(** * HN Daily Digest: a shallow embedding of [hn_digest.py]

    The pipeline of [hn_digest.py] is embedded function by function:
    [_request_with_retry], [find_top_posts_yesterday], [fetch_article],
    [fetch_item], [fetch_top_comments], [render_section], [generate_pdf]
    and [main].  Python exceptions are an error monad, JSON documents are
    an inductive type with the dynamic operations the script applies to
    them, and everything the script obtains from outside (HTTP responses,
    thread completion order, the clock, the third-party libraries) is an
    explicit argument. *)

From Stdlib Require Import ZArith List String Ascii Bool Lia.
From Stdlib Require Import Permutation Sorted DecimalString.
From Stdlib Require DecimalPos DecimalZ.
Import ListNotations.

Set Warnings "-register-all".

Open Scope list_scope.
Open Scope string_scope.
Open Scope Z_scope.

(** ** Exceptions *)

(** The exception classes the script can meet.  [SystemExit] is raised by
    [sys.exit]; it derives from [BaseException], not from [Exception]. *)
Inductive exn : Type :=
| RequestException
| KeyError
| TypeError
| AttributeError
| ValueError
| OverflowError
| RecursionError
| OSError
| OtherError
| SystemExit (code : Z).

Inductive result (A : Type) : Type :=
| Ok (a : A)
| Raise (e : exn).

Arguments Ok {A} a.
Arguments Raise {A} e.

Definition bind {A B : Type} (m : result A) (k : A -> result B) : result B :=
  match m with
  | Ok a => k a
  | Raise e => Raise e
  end.

Notation "x <- m ;; k" := (bind m (fun x => k))
  (at level 61, m at next level, right associativity).

(** [except requests.RequestException]. *)
Definition is_RequestException (e : exn) : bool :=
  match e with
  | RequestException => true
  | _ => false
  end.

(** [except Exception]: every class of the model but [SystemExit]. *)
Definition is_Exception (e : exn) : bool :=
  match e with
  | SystemExit _ => false
  | _ => true
  end.

(** [try: body  except <catches>: handler]. *)
Definition try_except {A : Type} (body : result A) (catches : exn -> bool)
  (handler : exn -> result A) : result A :=
  match body with
  | Ok a => Ok a
  | Raise e => if catches e then handler e else Raise e
  end.

(** [for x in l: body x], collecting what the body yields. *)
Fixpoint mapM {A B : Type} (f : A -> result B) (l : list A) : result (list B) :=
  match l with
  | [] => Ok []
  | x :: l' => y <- f x ;; ys <- mapM f l' ;; Ok (y :: ys)
  end.

(** ** Strings *)

Definition dq : string := String "034"%char EmptyString.
Definition nl : string := String "010"%char EmptyString.

(** Template texts are written with a backquote where the script has a
    double quote; [q] puts the double quotes back. *)
Fixpoint q (s : string) : string :=
  match s with
  | EmptyString => EmptyString
  | String c s' => String (if Ascii.eqb c "`"%char then "034"%char else c) (q s')
  end.

(** [str.startswith]. *)
Definition startswith (s p : string) : bool := String.prefix p s.

(** [sep.join(l)]. *)
Fixpoint join (sep : string) (l : list string) : string :=
  match l with
  | [] => ""
  | [x] => x
  | x :: l' => x ++ sep ++ join sep l'
  end.

(** [s.replace(c, r)] for a one-character pattern [c]. *)
Fixpoint replace_char (c : ascii) (r : string) (s : string) : string :=
  match s with
  | EmptyString => EmptyString
  | String a s' =>
      if Ascii.eqb a c then r ++ replace_char c r s'
      else String a (replace_char c r s')
  end.

(** A [str] is held as its UTF-8 encoding.  A character is a byte that is
    no continuation byte together with the continuation bytes that follow
    it; [len], slices and iteration go by characters, not by bytes. *)
Definition is_continuation (c : ascii) : bool :=
  let n := nat_of_ascii c in ((128 <=? n) && (n <? 192))%nat.

(** [len(s)]. *)
Fixpoint str_len (s : string) : nat :=
  match s with
  | EmptyString => O
  | String c s' => if is_continuation c then str_len s' else S (str_len s')
  end.

(** [s[:n]]. *)
Fixpoint str_take (n : nat) (s : string) : string :=
  match s with
  | EmptyString => EmptyString
  | String c s' =>
      if is_continuation c then String c (str_take n s')
      else
        match n with
        | O => EmptyString
        | S n' => String c (str_take n' s')
        end
  end.

(** The characters of a string, as [for c in s] visits them. *)
Fixpoint str_chars (s : string) : list string :=
  match s with
  | EmptyString => []
  | String c s' =>
      match s' with
      | String c' _ =>
          if is_continuation c' then
            match str_chars s' with
            | ch :: rest => String c ch :: rest
            | [] => [String c EmptyString]
            end
          else String c EmptyString :: str_chars s'
      | EmptyString => [String c EmptyString]
      end
  end.

(** [ord(ch)] of a character. *)
Definition code_point (ch : string) : Z :=
  match ch with
  | EmptyString => 0
  | String c rest =>
      let n := Z.of_nat (nat_of_ascii c) in
      let lead :=
        if n <? 128 then n
        else if n <? 224 then n mod 32
        else if n <? 240 then n mod 16
        else n mod 8 in
      fold_left (fun cp b => cp * 64 + Z.of_nat (nat_of_ascii b) mod 64)
        (list_ascii_of_string rest) lead
  end.

(** [s.isascii()]. *)
Definition isascii (s : string) : bool :=
  forallb (fun c => (nat_of_ascii c <? 128)%nat) (list_ascii_of_string s).

(** [str(n)] for a Python integer. *)
Definition str_int (n : Z) : string := NilZero.string_of_int (Z.to_int n).

(** [s[:stop]] on a sequence, with Python's treatment of a negative stop. *)
Definition slice_to {A : Type} (l : list A) (stop : Z) : list A :=
  if 0 <=? stop then firstn (Z.to_nat stop) l
  else firstn (Z.to_nat (Z.of_nat (List.length l) + stop)) l.

(** ** JSON values as Python objects *)

(** What [resp.json()] builds: [None], [bool], [int], [str], [list], [dict].
    Numbers are integers (fractional JSON numbers are outside the model); a
    dict is a list of items, the first item of a key being its entry. *)
Inductive json : Type :=
| JNull
| JBool (b : bool)
| JNum (n : Z)
| JStr (s : string)
| JArr (l : list json)
| JObj (items : list (string * json)).

(** Truth value of an object, as [if x:] and [not x] test it. *)
Definition truthy (v : json) : bool :=
  match v with
  | JNull => false
  | JBool b => b
  | JNum n => negb (n =? 0)
  | JStr s => negb (String.eqb s "")
  | JArr l => match l with [] => false | _ => true end
  | JObj m => match m with [] => false | _ => true end
  end.

Fixpoint lookup (k : string) (m : list (string * json)) : option json :=
  match m with
  | [] => None
  | (k', v) :: m' => if String.eqb k k' then Some v else lookup k m'
  end.

(** [d.get(k, default)]: only a dict has the method. *)
Definition get_default (d : json) (k : string) (default : json) : result json :=
  match d with
  | JObj m => Ok (match lookup k m with Some v => v | None => default end)
  | _ => Raise AttributeError
  end.

(** [d.get(k)]. *)
Definition get (d : json) (k : string) : result json := get_default d k JNull.

(** [d[k]] with a string key [k]. *)
Definition getitem (d : json) (k : string) : result json :=
  match d with
  | JObj m => match lookup k m with Some v => Ok v | None => Raise KeyError end
  | _ => Raise TypeError
  end.

(** Keys of a dict: one per distinct key. *)
Fixpoint distinct_keys (m : list (string * json)) : list string :=
  match m with
  | [] => []
  | (k, _) :: m' =>
      if existsb (String.eqb k) (distinct_keys m') then distinct_keys m'
      else k :: distinct_keys m'
  end.

(** [len(x)]. *)
Definition py_len (v : json) : result Z :=
  match v with
  | JStr s => Ok (Z.of_nat (str_len s))
  | JArr l => Ok (Z.of_nat (List.length l))
  | JObj m => Ok (Z.of_nat (List.length (distinct_keys m)))
  | _ => Raise TypeError
  end.

Definition chars (s : string) : list json := map JStr (str_chars s).

(** The elements [for x in v] visits, for the sequences that can be sliced. *)
Definition elements (v : json) : result (list json) :=
  match v with
  | JArr l => Ok l
  | JStr s => Ok (chars s)
  | _ => Raise TypeError
  end.

(** The elements of [v[:stop]]. *)
Definition slice_elements (v : json) (stop : Z) : result (list json) :=
  l <- elements v ;; Ok (slice_to l stop).

(** [x == "comment"] and the like: equal only to that very string. *)
Definition eq_str (v : json) (s : string) : bool :=
  match v with
  | JStr s' => String.eqb s' s
  | _ => false
  end.

(** Whether an object can be a dict key. *)
Definition hashable (v : json) : bool :=
  match v with
  | JArr _ | JObj _ => false
  | _ => true
  end.

(** Equality of dict keys: [True == 1] and [False == 0]. *)
Definition key_eqb (a b : json) : bool :=
  match a, b with
  | JNull, JNull => true
  | JStr s, JStr t => String.eqb s t
  | JNum n, JNum m => n =? m
  | JBool x, JBool y => Bool.eqb x y
  | JBool x, JNum n | JNum n, JBool x => n =? (if x then 1 else 0)
  | _, _ => false
  end.

(** ** HTTP *)

(** The ways a [requests.get] ends without a response; each is a subclass
    of [requests.RequestException]. *)
Inductive transport_failure : Type :=
| ConnectionError
| ReadTimeout
| TooManyRedirects.

(** What the network does to one [requests.get]: a final response with its
    status code, or a transport failure. *)
Inductive attempt (B : Type) : Type :=
| Responds (status : Z) (body : B)
| Fails (f : transport_failure).

Arguments Responds {B} status body.
Arguments Fails {B} f.

Record response (B : Type) : Type := mkResponse {
  status_code : Z;
  payload : B
}.

Arguments mkResponse {B} status_code payload.
Arguments status_code {B} r.
Arguments payload {B} r.

Definition requests_get {B : Type} (a : attempt B) : result (response B) :=
  match a with
  | Responds st b => Ok (mkResponse st b)
  | Fails _ => Raise RequestException
  end.

(** [Response.raise_for_status()] of the [requests] library: [HTTPError], a
    [RequestException], for a 4xx client error or a 5xx server error. *)
Definition raise_for_status {B : Type} (resp : response B) : result unit :=
  if (400 <=? status_code resp) && (status_code resp <? 600)
  then Raise RequestException
  else Ok tt.

(** What a call does besides returning: the attempts and the sleeps. *)
Inductive event : Type :=
| Get (attempt : nat)
| Sleep (seconds : Z).

Section Retry.

Context {B : Type}.

(** [net k] is what the [k]-th [requests.get] of this call meets. *)
Variable net : nat -> attempt B.
Variable retries : nat.

(** The loop [for attempt in range(retries)], from [attempt] on with
    [remaining] iterations to go.  Falling out of the loop returns
    [None]. *)
Fixpoint retry_loop (remaining attempt : nat)
  : list event * result (option (response B)) :=
  match remaining with
  | O => ([], Ok None)
  | S remaining' =>
      match (resp <- requests_get (net attempt) ;;
             _ <- raise_for_status resp ;;
             Ok resp) with
      | Ok resp => ([Get attempt], Ok (Some resp))
      | Raise e =>
          if is_RequestException e then
            if Nat.eqb attempt (retries - 1) then ([Get attempt], Raise e)
            else
              let (t, r) := retry_loop remaining' (S attempt) in
              (Get attempt :: Sleep (1 * (Z.of_nat attempt + 1)) :: t, r)
          else ([Get attempt], Raise e)
      end
  end.

Definition _request_with_retry : list event * result (option (response B)) :=
  retry_loop retries 0.

End Retry.

(** An attempt that lets [_request_with_retry] return: a response that
    [raise_for_status] accepts. *)
Definition accepted {B : Type} (a : attempt B) : option (response B) :=
  match a with
  | Responds st b =>
      if (400 <=? st) && (st <? 600) then None else Some (mkResponse st b)
  | Fails _ => None
  end.

(** An attempt that yields a 2xx status. *)
Definition is_2xx {B : Type} (a : attempt B) : bool :=
  match a with
  | Responds st _ => (200 <=? st) && (st <? 300)
  | Fails _ => false
  end.

(** ** Step 1: discovery *)

Definition ALGOLIA_SEARCH_URL : string := "https://hn.algolia.com/api/v1/search".
Definition MAX_POSTS : Z := 10.
Definition MAX_COMMENTS : Z := 5.

(** The clock is POSIX time: whole seconds since 1970-01-01T00:00:00Z. *)
Definition SECONDS_PER_DAY : Z := 86400.

(** [datetime.now(timezone.utc).replace(hour=0, minute=0, second=0,
    microsecond=0).timestamp()]: the most recent UTC midnight. *)
Definition today_utc (now : Z) : Z := now - now mod SECONDS_PER_DAY.

Definition yesterday_start (now : Z) : Z := today_utc now - 1 * SECONDS_PER_DAY.
Definition yesterday_end (now : Z) : Z := today_utc now.

(** One clause [attribute operator value] of a numeric filter of the
    search index. *)
Inductive comparison_op : Type :=
| GreaterThan
| LessThan.

Record clause : Type := mkClause {
  attribute : string;
  operator : comparison_op;
  bound : Z
}.

(** The text of a clause and of a comma-separated list of clauses, as the
    request carries them. *)
Definition clause_text (c : clause) : string :=
  attribute c
  ++ match operator c with GreaterThan => ">" | LessThan => "<" end
  ++ str_int (bound c).

Definition filters_text (cs : list clause) : string :=
  join "," (map clause_text cs).

(** The index keeps a record whose attribute has value [v] when every
    clause of the list holds of [v]. *)
Definition clause_holds (c : clause) (v : Z) : bool :=
  match operator c with
  | GreaterThan => bound c <? v
  | LessThan => v <? bound c
  end.

Definition filters_hold (cs : list clause) (v : Z) : bool :=
  forallb (fun c => clause_holds c v) cs.

(** The [params] of the discovery request. *)
Record search_params : Type := mkParams {
  tags : string;
  numericFilters : list clause;
  hitsPerPage : Z
}.

(** [f"created_at_i>{start_ts},created_at_i<{end_ts}"]. *)
Definition created_between (start_ts end_ts : Z) : list clause :=
  [ mkClause "created_at_i" GreaterThan start_ts;
    mkClause "created_at_i" LessThan end_ts ].

Definition discovery_params (now limit : Z) : search_params :=
  let start_ts := yesterday_start now in
  let end_ts := yesterday_end now in
  mkParams "story" (created_between start_ts end_ts) limit.

(** Whether the discovery request issued at time [now] admits a story
    created at time [created_at_i]. *)
Definition in_queried_window (now created_at_i : Z) : bool :=
  filters_hold (numericFilters (discovery_params now MAX_POSTS)) created_at_i.

(** What the decoder of [resp.json()] makes of the body of a response: a
    JSON document is decoded; on a text that is no JSON document the
    decoder raises [JSONDecodeError]; on a document nested too deep for the
    interpreter it raises [RecursionError], and on one with an integer of
    more than 4300 digits it raises [ValueError]. *)
Inductive body : Type :=
| Decodes (v : json)
| NotJSON
| TooDeep
| TooManyDigits.

(** [resp.json()]: [requests] turns the [JSONDecodeError] of the decoder
    into its own, a [RequestException], and lets the other exceptions
    pass. *)
Definition resp_json (resp : response body) : result json :=
  match payload resp with
  | Decodes v => Ok v
  | NotJSON => Raise RequestException
  | TooDeep => Raise RecursionError
  | TooManyDigits => Raise ValueError
  end.

(** A method call on what [_request_with_retry] returned. *)
Definition returned {B : Type} (r : list event * result (option (response B)))
  : result (response B) :=
  o <- snd r ;;
  match o with
  | Some resp => Ok resp
  | None => Raise AttributeError
  end.

(** The dict built for one hit. *)
Definition post_of_hit (hit : json) : result json :=
  objectID <- getitem hit "objectID" ;;
  title <- getitem hit "title" ;;
  url <- get hit "url" ;;
  story_text <- get hit "story_text" ;;
  points <- getitem hit "points" ;;
  num_comments <- getitem hit "num_comments" ;;
  author <- getitem hit "author" ;;
  created_at <- getitem hit "created_at" ;;
  Ok (JObj [ ("id", objectID); ("title", title); ("url", url);
             ("story_text", story_text); ("points", points);
             ("num_comments", num_comments); ("author", author);
             ("created_at", created_at) ]).

Section Discovery.

(** The search index: what the [k]-th attempt of a request with the given
    parameters meets. *)
Variable index : search_params -> nat -> attempt body.

(** The time of the call. *)
Variable now : Z.

Definition find_top_posts_yesterday (limit : Z) : result (list json) :=
  resp <- returned (_request_with_retry (index (discovery_params now limit)) 3) ;;
  data <- resp_json resp ;;
  hits <- get data "hits" ;;
  if negb (truthy hits) then Raise (SystemExit 0)
  else
    hits <- getitem data "hits" ;;
    batch <- slice_elements hits limit ;;
    mapM post_of_hit batch.

End Discovery.

(** ** Step 2: the linked article *)

(** A parsed document, as [BeautifulSoup] holds it: text and tags with
    their attributes and children. *)
Inductive node : Type :=
| Text (s : string)
| Element (name : string) (attrs : list (string * string)) (children : list node).

(** [tag.get(k)] on the attributes of a tag. *)
Fixpoint attr_get (k : string) (attrs : list (string * string)) : option string :=
  match attrs with
  | [] => None
  | (k', v) :: attrs' => if String.eqb k k' then Some v else attr_get k attrs'
  end.

(** [tag[k] = v]: the value is replaced in place, or the attribute is
    added. *)
Fixpoint attr_set (k v : string) (attrs : list (string * string))
  : list (string * string) :=
  match attrs with
  | [] => [(k, v)]
  | (k', v') :: attrs' =>
      if String.eqb k k' then (k, v) :: attrs'
      else (k', v') :: attr_set k v attrs'
  end.

(** The third-party code the script calls; it is no part of the
    repository, so it is taken as given.
    - [summary text] is [Document(text).summary()] of readability, which
      may raise on input it cannot handle;
    - [BeautifulSoup html] is [BeautifulSoup(html, "lxml")];
    - [soup_str soup] is [str(soup)];
    - [urljoin base url] is [urllib.parse.urljoin], which raises
      [ValueError] on a reference it cannot parse;
    - [write_pdf html] is what [HTML(string=html).write_pdf] writes to the
      file, or the exception it raises;
    - [repr_json v] is [str(v)] for a list or a dict. *)
Record Library : Type := mkLibrary {
  summary : string -> result string;
  BeautifulSoup : string -> list node;
  soup_str : list node -> string;
  urljoin : string -> string -> result string;
  write_pdf : string -> result string;
  repr_json : json -> string
}.

(** [for tag in soup.find_all(names): tag.decompose()]: the tags of these
    names leave the tree with all they contain. *)
Fixpoint decompose (names : list string) (n : node) : list node :=
  match n with
  | Text s => [Text s]
  | Element name attrs children =>
      if existsb (String.eqb name) names then []
      else [Element name attrs (flat_map (decompose names) children)]
  end.

Definition decompose_all (names : list string) (soup : list node) : list node :=
  flat_map (decompose names) soup.

(** The body of the loop over the [img] tags: the new attributes of one
    tag. *)
Definition rewrite_src (urljoin : string -> string -> result string)
  (url : string) (attrs : list (string * string))
  : result (list (string * string)) :=
  match attr_get "src" attrs with
  | Some src =>
      if negb (String.eqb src "")
         && negb (startswith src "http://" || startswith src "https://"
                  || startswith src "data:")
      then new_src <- urljoin url src ;; Ok (attr_set "src" new_src attrs)
      else Ok attrs
  | None => Ok attrs
  end.

(** [for img in soup.find_all("img"): ...]: the tags are visited in
    document order, a tag before its children. *)
Fixpoint rewrite_images (urljoin : string -> string -> result string)
  (url : string) (n : node) : result node :=
  match n with
  | Text s => Ok (Text s)
  | Element name attrs children =>
      attrs' <- (if String.eqb name "img" then rewrite_src urljoin url attrs
                 else Ok attrs) ;;
      children' <- mapM (rewrite_images urljoin url) children ;;
      Ok (Element name attrs' children')
  end.

Definition rewrite_all_images (urljoin : string -> string -> result string)
  (url : string) (soup : list node) : result (list node) :=
  mapM (rewrite_images urljoin url) soup.

Section Article.

Variable L : Library.

(** The web: what one [requests.get] of a page meets. *)
Variable web : string -> attempt string.

(** The tree [fetch_article] serialises, [None] when it gives up. *)
Definition fetch_article_soup (url : json) : result (option (list node)) :=
  if negb (truthy url) then Ok None
  else
    match url with
    | JStr url =>
        match (resp <- requests_get (web url) ;;
               _ <- raise_for_status resp ;;
               Ok resp) with
        | Raise e => if is_RequestException e then Ok None else Raise e
        | Ok resp =>
            match summary L (payload resp) with
            | Raise e => if is_Exception e then Ok None else Raise e
            | Ok summary_html =>
                let soup := BeautifulSoup L summary_html in
                let soup := decompose_all ["script"; "style"; "iframe"] soup in
                soup <- rewrite_all_images (urljoin L) url soup ;;
                Ok (Some soup)
            end
        end
    | _ =>
        (* [requests.get] of an object that is no string: its text names no
           HTTP URL, and [requests] raises [MissingSchema] or
           [InvalidSchema], both [RequestException]s. *)
        Ok None
    end.

(** The article is the dict [{"content_html": str(soup)}]; it is
    represented by its one value. *)
Definition fetch_article (url : json) : result (option string) :=
  o <- fetch_article_soup url ;;
  Ok (option_map (soup_str L) o).

End Article.

(** ** Step 3: the top comments *)

(** [FIREBASE_ITEM_URL.format(item_id)] names one item; the item service
    is indexed by the identifier itself. *)
Definition item_service : Type := json -> nat -> attempt body.

(** [fetch_item]: Python's [None] is [JNull]. *)
Definition fetch_item (firebase : item_service) (item_id : json) : result json :=
  try_except
    (resp <- returned (_request_with_retry (firebase item_id) 3) ;;
     resp_json resp)
    is_RequestException
    (fun _ => Ok JNull).

(** [as_completed(futures)] yields every future once, in the order in which
    they complete.  The order is the scheduler's: [choices] names, step by
    step, which of the futures still pending completes next. *)
Fixpoint remove_nth {A : Type} (k : nat) (l : list A) : list A :=
  match l, k with
  | [], _ => []
  | _ :: l', O => l'
  | x :: l', S k' => x :: remove_nth k' l'
  end.

Fixpoint complete {A : Type} (n : nat) (choices : list nat) (pending : list A)
  : list A :=
  match n, pending with
  | S n', x :: _ =>
      let k := Nat.modulo (hd 0%nat choices) (List.length pending) in
      nth k pending x :: complete n' (tl choices) (remove_nth k pending)
  | _, _ => []
  end.

Definition as_completed {A : Type} (choices : list nat) (futures : list A)
  : list A :=
  complete (List.length futures) choices futures.

(** The test of the collecting loop. *)
Definition is_live_comment (item : json) : result bool :=
  if negb (truthy item) then Ok false
  else
    type <- get item "type" ;;
    if negb (eq_str type "comment") then Ok false
    else
      deleted <- get item "deleted" ;;
      if truthy deleted then Ok false
      else
        dead <- get item "dead" ;;
        Ok (negb (truthy dead)).

(** The collecting loop: [future.result()] re-raises what the call
    raised. *)
Fixpoint collect (done : list (result json)) : result (list json) :=
  match done with
  | [] => Ok []
  | r :: done' =>
      item <- r ;;
      keep <- is_live_comment item ;;
      rest <- collect done' ;;
      Ok (if keep then item :: rest else rest)
  end.

(** [{cid: i for i, cid in enumerate(kid_ids)}]: the items in insertion
    order; a later item replaces an earlier one of an equal key. *)
Fixpoint enumerate_from {A : Type} (i : Z) (l : list A) : list (A * Z) :=
  match l with
  | [] => []
  | x :: l' => (x, i) :: enumerate_from (i + 1) l'
  end.

Definition position_map (kid_ids : list json) : result (list (json * Z)) :=
  if forallb hashable kid_ids then Ok (enumerate_from 0 kid_ids)
  else Raise TypeError.

(** [position_map.get(k, default)]. *)
Definition position_get (m : list (json * Z)) (k : json) (default : Z)
  : result Z :=
  if hashable k then
    Ok (fold_left (fun found item => if key_eqb (fst item) k then snd item else found)
          m default)
  else Raise TypeError.

(** The sort key [(-len(c.get("kids", [])), position_map.get(c["id"], 999))]. *)
Definition sort_key (m : list (json * Z)) (c : json) : result (Z * Z) :=
  kids <- get_default c "kids" (JArr []) ;;
  n <- py_len kids ;;
  id <- getitem c "id" ;;
  pos <- position_get m id 999 ;;
  Ok (- n, pos).

(** Order of tuples of two integers. *)
Definition key_le (a b : Z * Z) : bool :=
  (fst a <? fst b) || ((fst a =? fst b) && (snd a <=? snd b)).

(** [list.sort(key=...)] is stable: equal keys keep their order.  The
    result of a stable sort is determined by the keys; it is computed here
    by insertion. *)
Fixpoint insert_by_key {A : Type} (x : (Z * Z) * A) (l : list ((Z * Z) * A))
  : list ((Z * Z) * A) :=
  match l with
  | [] => [x]
  | y :: l' =>
      if key_le (fst x) (fst y) then x :: y :: l'
      else y :: insert_by_key x l'
  end.

Fixpoint sort_keyed {A : Type} (l : list ((Z * Z) * A)) : list ((Z * Z) * A) :=
  match l with
  | [] => []
  | x :: l' => insert_by_key x (sort_keyed l')
  end.

Definition sort_by_key (key : json -> result (Z * Z)) (l : list json)
  : result (list json) :=
  keyed <- mapM (fun c => k <- key c ;; Ok (k, c)) l ;;
  Ok (map snd (sort_keyed keyed)).

(** What the network and the scheduler do during one call of
    [fetch_top_comments]: the item service that answers for the story, the
    one that answers the worker in each slot of the pool, and the order in
    which the workers complete. *)
Record thread_env : Type := mkThreadEnv {
  story_service : item_service;
  kid_service : nat -> item_service;
  completion : list nat
}.

Fixpoint submit_from (E : thread_env) (slot : nat) (batch_ids : list json)
  : list (result json) :=
  match batch_ids with
  | [] => []
  | cid :: batch' =>
      fetch_item (kid_service E slot) cid :: submit_from E (S slot) batch'
  end.

Definition fetch_top_comments (E : thread_env) (story_id : Z) (limit : Z)
  : result (list json) :=
  story <- fetch_item (story_service E) (JNum story_id) ;;
  if negb (truthy story) then Ok []
  else
    kid_ids <- get_default story "kids" (JArr []) ;;
    if negb (truthy kid_ids) then Ok []
    else
      batch_ids <- slice_elements kid_ids (limit + 10) ;;
      let futures := submit_from E 0 batch_ids in
      comments <- collect (as_completed (completion E) futures) ;;
      all_ids <- elements kid_ids ;;
      position_map <- position_map all_ids ;;
      comments <- sort_by_key (sort_key position_map) comments ;;
      Ok (slice_to comments limit).

(** ** Dates *)

(** A [date] is its day number, counted from 1970-01-01; [timedelta(days=1)]
    is one.  The proleptic Gregorian year, month and day of a day number. *)
Definition ymd_of_days (days : Z) : Z * Z * Z :=
  let z := days + 719468 in
  let era := z / 146097 in
  let doe := z - era * 146097 in
  let yoe := (doe - doe / 1460 + doe / 36524 - doe / 146096) / 365 in
  let doy := doe - (365 * yoe + yoe / 4 - yoe / 100) in
  let mp := (5 * doy + 2) / 153 in
  let d := doy - (153 * mp + 2) / 5 + 1 in
  let m := if mp <? 10 then mp + 3 else mp - 9 in
  let y := yoe + era * 400 + (if m <=? 2 then 1 else 0) in
  (y, m, d).

(** ["%02d" % n] and ["%04d" % n] for a number that is not negative. *)
Definition pad2 (n : Z) : string :=
  if n <? 10 then "0" ++ str_int n else str_int n.

Definition pad4 (n : Z) : string :=
  if n <? 10 then "000" ++ str_int n
  else if n <? 100 then "00" ++ str_int n
  else if n <? 1000 then "0" ++ str_int n
  else str_int n.

(** [date.isoformat()]. *)
Definition isoformat (days : Z) : string :=
  let '(y, m, d) := ymd_of_days days in
  pad4 y ++ "-" ++ pad2 m ++ "-" ++ pad2 d.

Definition month_name (m : Z) : string :=
  nth (Z.to_nat (m - 1))
    [ "January"; "February"; "March"; "April"; "May"; "June"; "July";
      "August"; "September"; "October"; "November"; "December" ] "".

(** [date.strftime("%B %d, %Y")], with the month names of the C locale.
    The C library of Linux does not pad the year of [%Y]: the year 999 is
    printed as [999]. *)
Definition strftime_long (days : Z) : string :=
  let '(y, m, d) := ymd_of_days days in
  month_name m ++ " " ++ pad2 d ++ ", " ++ str_int y.

(** The UTC day of an instant, and [date.today()]: the day of the instant
    on the local clock, which is [utc_offset] seconds ahead of UTC. *)
Definition utc_day (now : Z) : Z := now / SECONDS_PER_DAY.

Definition date_today (now utc_offset : Z) : Z :=
  (now + utc_offset) / SECONDS_PER_DAY.

(** [datetime.fromtimestamp(t, tz=timezone.utc)] on Linux with a 64-bit
    [time_t]: an integer that does not fit [time_t] raises [OverflowError],
    one whose year [gmtime] cannot hold raises [OSError], and one outside
    the years 1 to 9999 raises [ValueError]; [True] and [False] are the
    integers 1 and 0. *)
Definition fromtimestamp_int (n : Z) : result Z :=
  if (n <? -9223372036854775808) || (9223372036854775807 <? n)
  then Raise OverflowError
  else if (n <? -67768040609740800) || (67768036191676799 <? n)
  then Raise OSError
  else if (n <? -62135596800) || (253402300799 <? n)
  then Raise ValueError
  else Ok n.

Definition fromtimestamp_utc (t : json) : result Z :=
  match t with
  | JNum n => fromtimestamp_int n
  | JBool b => fromtimestamp_int (if b then 1 else 0)
  | _ => Raise TypeError
  end.

(** [ts.strftime("%Y-%m-%d %H:%M UTC")]; the year is not padded. *)
Definition strftime_minutes (ts : Z) : string :=
  let '(y, m, d) := ymd_of_days (utc_day ts) in
  let second_of_day := ts mod SECONDS_PER_DAY in
  str_int y ++ "-" ++ pad2 m ++ "-" ++ pad2 d ++ " "
  ++ pad2 (second_of_day / 3600) ++ ":"
  ++ pad2 (second_of_day mod 3600 / 60) ++ " UTC".

(** ** Step 4: the document *)

(** A format string of [str.format]: literal text and replacement fields;
    [{{] and [}}] stand for a brace. *)
Inductive piece : Type :=
| Lit (s : string)
| Field (name : string).

Definition cons_lit (c : ascii) (ps : list piece) : list piece :=
  match ps with
  | Lit s :: ps' => Lit (String c s) :: ps'
  | _ => Lit (String c EmptyString) :: ps
  end.

Fixpoint scan_format (s : string) (field : option string) : list piece :=
  match s with
  | EmptyString => []
  | String c s' =>
      match field with
      | Some name =>
          if Ascii.eqb c "}"%char then Field name :: scan_format s' None
          else scan_format s' (Some (name ++ String c EmptyString))
      | None =>
          if Ascii.eqb c "{"%char then
            match s' with
            | String c' s'' =>
                if Ascii.eqb c' "{"%char then cons_lit c (scan_format s'' None)
                else scan_format s' (Some EmptyString)
            | EmptyString => []
            end
          else if Ascii.eqb c "}"%char then
            match s' with
            | String c' s'' =>
                if Ascii.eqb c' "}"%char then cons_lit c (scan_format s'' None)
                else cons_lit c (scan_format s' None)
            | EmptyString => cons_lit c []
            end
          else cons_lit c (scan_format s' None)
      end
  end.

Definition parse_format (s : string) : list piece := scan_format s None.

Fixpoint field_value (name : string) (args : list (string * string)) : string :=
  match args with
  | [] => ""
  | (k, v) :: args' => if String.eqb name k then v else field_value name args'
  end.

(** [template.format(name=value, ...)]. *)
Fixpoint format (template : list piece) (args : list (string * string)) : string :=
  match template with
  | [] => ""
  | Lit s :: t => s ++ format t args
  | Field name :: t => field_value name args ++ format t args
  end.

(** The fields of a template, in order. *)
Fixpoint fields (template : list piece) : list string :=
  match template with
  | [] => []
  | Lit _ :: t => fields t
  | Field name :: t => name :: fields t
  end.

Definition DOCUMENT_TEMPLATE : list piece := Eval vm_compute in parse_format (q "<!DOCTYPE html>
<html>
<head>
<meta charset=`utf-8`>
<style>
    @page {{
        size: A4;
        margin: 0.5in;
        @bottom-center {{
            content: `Page ` counter(page) ` of ` counter(pages);
            font-family: 'Helvetica Neue', Helvetica, Arial, sans-serif;
            font-size: 8pt;
            color: #aaa;
        }}
    }}

    body {{
        font-family: Georgia, 'Times New Roman', serif;
        font-size: 10.5pt;
        line-height: 1.65;
        color: #2a2a2a;
        background: #fff;
    }}

    /* ========== COVER / TOC ========== */

    .toc {{
        page-break-after: always;
    }}

    .toc-header {{
        text-align: center;
        padding: 30pt 0 20pt 0;
        border-bottom: 3px solid #ff6600;
        margin-bottom: 20pt;
    }}

    .toc-header h1 {{
        font-family: 'Helvetica Neue', Helvetica, Arial, sans-serif;
        font-size: 28pt;
        font-weight: 800;
        color: #1a1a1a;
        margin: 0;
        letter-spacing: -0.5pt;
    }}

    .toc-header .toc-subtitle {{
        font-family: 'Helvetica Neue', Helvetica, Arial, sans-serif;
        font-size: 11pt;
        color: #ff6600;
        margin-top: 6pt;
        font-weight: 500;
        letter-spacing: 2pt;
        text-transform: uppercase;
    }}

    .toc-list {{
        list-style: none;
        padding: 0;
        margin: 0;
    }}

    .toc-item {{
        display: block;
        padding: 7pt 10pt;
        margin-bottom: 4pt;
        border-radius: 4pt;
        background: #fafafa;
        border-left: 3pt solid transparent;
    }}

    .toc-item:nth-child(odd) {{
        background: #f5f5f5;
    }}

    .toc-item-rank {{
        display: inline-block;
        font-family: 'Helvetica Neue', Helvetica, Arial, sans-serif;
        font-size: 9pt;
        font-weight: 700;
        color: #fff;
        background: #ff6600;
        border-radius: 3pt;
        padding: 1pt 5pt;
        margin-right: 6pt;
        min-width: 14pt;
        text-align: center;
    }}

    .toc-item-title {{
        font-family: 'Helvetica Neue', Helvetica, Arial, sans-serif;
        font-size: 10pt;
        font-weight: 600;
        color: #1a1a1a;
    }}

    .toc-item-title a {{
        color: #1a1a1a;
        text-decoration: none;
    }}

    .toc-item-meta {{
        font-family: 'Helvetica Neue', Helvetica, Arial, sans-serif;
        font-size: 7.5pt;
        color: #999;
        margin-top: 1pt;
        padding-left: 30pt;
    }}

    /* ========== POST SECTIONS ========== */

    .post-section {{
        page-break-before: always;
    }}

    .post-card {{
        border: 1px solid #e0e0e0;
        border-radius: 6pt;
        overflow: hidden;
        margin-bottom: 20pt;
    }}

    .post-card-header {{
        background: linear-gradient(135deg, #ff6600, #ff8533);
        padding: 14pt 16pt;
    }}

    .post-card-header .rank-badge {{
        font-family: 'Helvetica Neue', Helvetica, Arial, sans-serif;
        font-size: 8pt;
        font-weight: 700;
        color: rgba(255,255,255,0.85);
        text-transform: uppercase;
        letter-spacing: 1.5pt;
        margin-bottom: 4pt;
    }}

    .post-card-header h1 {{
        font-family: 'Helvetica Neue', Helvetica, Arial, sans-serif;
        font-size: 18pt;
        font-weight: 700;
        color: #fff;
        margin: 0;
        line-height: 1.3;
    }}

    .post-card-meta {{
        background: #f8f8f8;
        padding: 8pt 16pt;
        border-bottom: 1px solid #e0e0e0;
        font-family: 'Helvetica Neue', Helvetica, Arial, sans-serif;
        font-size: 8.5pt;
        color: #666;
    }}

    .post-card-meta a {{
        color: #ff6600;
        text-decoration: none;
        font-weight: 500;
    }}

    .stat {{
        display: inline-block;
        margin-right: 12pt;
    }}

    .stat-value {{
        font-weight: 700;
        color: #333;
    }}

    /* ========== ARTICLE ========== */

    .article {{
        margin: 20pt 0 24pt 0;
    }}

    .article h2 {{
        font-family: 'Helvetica Neue', Helvetica, Arial, sans-serif;
        font-size: 11pt;
        font-weight: 700;
        color: #ff6600;
        text-transform: uppercase;
        letter-spacing: 1pt;
        border-bottom: 2px solid #ff6600;
        padding-bottom: 4pt;
        margin-bottom: 12pt;
    }}

    .article .content {{
        text-align: justify;
    }}

    .article .content img {{
        max-width: 100%;
        height: auto;
        border-radius: 3pt;
    }}

    .article .content p:first-child::first-letter {{
        font-size: 24pt;
        color: #ff6600;
        font-weight: bold;
    }}

    .article .unavailable {{
        font-style: italic;
        color: #999;
        padding: 20pt;
        text-align: center;
        background: #fafafa;
        border: 1px dashed #ddd;
        border-radius: 4pt;
    }}

    /* ========== COMMENTS ========== */

    .comments {{
        margin-top: 24pt;
    }}

    .comments h2 {{
        font-family: 'Helvetica Neue', Helvetica, Arial, sans-serif;
        font-size: 11pt;
        font-weight: 700;
        color: #ff6600;
        text-transform: uppercase;
        letter-spacing: 1pt;
        border-bottom: 2px solid #ff6600;
        padding-bottom: 4pt;
        margin-bottom: 12pt;
    }}

    .comment {{
        margin-bottom: 12pt;
        padding: 10pt 14pt;
        background: #fafafa;
        border-left: 3px solid #ff6600;
        border-radius: 0 4pt 4pt 0;
        page-break-inside: avoid;
    }}

    .comment:nth-child(even) {{
        border-left-color: #ffaa66;
    }}

    .comment .comment-meta {{
        font-family: 'Helvetica Neue', Helvetica, Arial, sans-serif;
        font-size: 8pt;
        color: #999;
        margin-bottom: 4pt;
    }}

    .comment .comment-meta strong {{
        color: #444;
        font-weight: 600;
    }}

    .comment .comment-body {{
        font-size: 9.5pt;
        line-height: 1.55;
    }}

    .comment .comment-body p {{
        margin: 3pt 0;
    }}

    .comment .comment-body a {{
        color: #ff6600;
        word-break: break-all;
    }}

    .comment .comment-body pre {{
        font-family: 'Courier New', monospace;
        font-size: 8.5pt;
        background: #f0f0f0;
        padding: 6pt 8pt;
        border-radius: 3pt;
        overflow-wrap: break-word;
        white-space: pre-wrap;
    }}

    .comment .comment-body code {{
        font-family: 'Courier New', monospace;
        font-size: 8.5pt;
        background: #f0f0f0;
        padding: 1pt 3pt;
        border-radius: 2pt;
    }}

</style>
</head>
<body>
{toc}
{sections}
</body>
</html>
").

Definition SECTION_TEMPLATE : list piece := Eval vm_compute in parse_format (q "<div class=`post-section` id=`post-{rank}`>
    <div class=`post-card`>
        <div class=`post-card-header`>
            <div class=`rank-badge`>#{rank} of {total}</div>
            <h1>{title}</h1>
        </div>
        <div class=`post-card-meta`>
            <span class=`stat`><span class=`stat-value`>{points}</span> points</span>
            <span class=`stat`><span class=`stat-value`>{num_comments}</span> comments</span>
            <span class=`stat`>by <strong>{author}</strong></span>
            | <a href=`https://news.ycombinator.com/item?id={story_id}`>View on HN</a>
            {url_link}
        </div>
    </div>

    <div class=`article`>
        <h2>Article</h2>
        {article_section}
    </div>

    <div class=`comments`>
        <h2>Top {comment_count} Comments</h2>
        {comments_html}
    </div>
</div>
").

Definition COMMENT_TEMPLATE : list piece := Eval vm_compute in parse_format (q "<div class=`comment`>
    <div class=`comment-meta`>
        <strong>{author}</strong> &middot; {time} &middot; {reply_count} replies
    </div>
    <div class=`comment-body`>{body}</div>
</div>
").

Definition TOC_TEMPLATE : list piece := Eval vm_compute in parse_format (q "<div class=`toc`>
    <div class=`toc-header`>
        <h1>Hacker News Daily Digest</h1>
        <div class=`toc-subtitle`>{date}</div>
    </div>
    <div class=`toc-list`>
        {toc_entries}
    </div>
</div>
").

Definition TOC_ENTRY_TEMPLATE : list piece := Eval vm_compute in parse_format (q "<div class=`toc-item`>
    <span class=`toc-item-rank`>{rank}</span>
    <span class=`toc-item-title`><a href=`#post-{rank}`>{title}</a></span>
    <div class=`toc-item-meta`>{points} points &middot; {num_comments} comments &middot; by {author}</div>
</div>
").

(** *** The texts of the templates

    What each template reads once its fields are filled, written out from
    the text of the template. *)

(** How the text of a section begins: the tag that carries the anchor of
    the rank, the badge of the rank, and the title. *)
Definition section_header (rank total title : string) : string :=
  q "<div class=`post-section` id=`post-"
  ++ rank
  ++ q "`>
    <div class=`post-card`>
        <div class=`post-card-header`>
            <div class=`rank-badge`>#"
  ++ rank
  ++ " of "
  ++ total
  ++ "</div>
            <h1>"
  ++ title
  ++ "</h1>".

(** The text of a comment block whose fields hold these values. *)
Definition comment_text (author time reply_count body : string) : string :=
  q "<div class=`comment`>
    <div class=`comment-meta`>
        <strong>"
  ++ author
  ++ "</strong> &middot; "
  ++ time
  ++ " &middot; "
  ++ reply_count
  ++ q " replies
    </div>
    <div class=`comment-body`>"
  ++ body
  ++ "</div>
</div>
".

(** The text of a section. *)
Definition section_text
  (rank total title points num_comments author story_id url_link
     article_section comment_count comments_html : string) : string :=
  q "<div class=`post-section` id=`post-"
  ++ rank
  ++ q "`>
    <div class=`post-card`>
        <div class=`post-card-header`>
            <div class=`rank-badge`>#"
  ++ rank
  ++ " of "
  ++ total
  ++ "</div>
            <h1>"
  ++ title
  ++ q "</h1>
        </div>
        <div class=`post-card-meta`>
            <span class=`stat`><span class=`stat-value`>"
  ++ points
  ++ q "</span> points</span>
            <span class=`stat`><span class=`stat-value`>"
  ++ num_comments
  ++ q "</span> comments</span>
            <span class=`stat`>by <strong>"
  ++ author
  ++ q "</strong></span>
            | <a href=`https://news.ycombinator.com/item?id="
  ++ story_id
  ++ q "`>View on HN</a>
            "
  ++ url_link
  ++ q "
        </div>
    </div>

    <div class=`article`>
        <h2>Article</h2>
        "
  ++ article_section
  ++ q "
    </div>

    <div class=`comments`>
        <h2>Top "
  ++ comment_count
  ++ " Comments</h2>
        "
  ++ comments_html
  ++ "
    </div>
</div>
".

(** The text of a line of the table of contents. *)
Definition toc_entry_text (rank title points num_comments author : string)
  : string :=
  q "<div class=`toc-item`>
    <span class=`toc-item-rank`>"
  ++ rank
  ++ q "</span>
    <span class=`toc-item-title`><a href=`#post-"
  ++ rank
  ++ q "`>"
  ++ title
  ++ q "</a></span>
    <div class=`toc-item-meta`>"
  ++ points
  ++ " points &middot; "
  ++ num_comments
  ++ " comments &middot; by "
  ++ author
  ++ "</div>
</div>
".

(** The text of the table of contents. *)
Definition toc_text (date toc_entries : string) : string :=
  q "<div class=`toc`>
    <div class=`toc-header`>
        <h1>Hacker News Daily Digest</h1>
        <div class=`toc-subtitle`>"
  ++ date
  ++ q "</div>
    </div>
    <div class=`toc-list`>
        "
  ++ toc_entries
  ++ "
    </div>
</div>
".

(** The text of the document template before the table of contents: the
    head of the page with its style sheet, and the tag that opens the
    body. *)
Definition DOCUMENT_HEAD : string :=
  match DOCUMENT_TEMPLATE with
  | Lit head :: _ => head
  | _ => ""
  end.

(** The text of the document: the table of contents, then the sections,
    each on a line of its own, between the head and the two closing
    tags. *)
Definition document_text (toc sections : string) : string :=
  DOCUMENT_HEAD ++ toc ++ nl ++ sections ++ nl ++ "</body>" ++ nl ++ "</html>"
  ++ nl.

(** [part in s]. *)
Fixpoint occurs (part s : string) : bool :=
  String.prefix part s
  || match s with
     | EmptyString => false
     | String _ s' => occurs part s'
     end.

(** [html.escape(s)]: five replacements, the ampersand first. *)
Definition html_escape (s : string) : string :=
  let s := replace_char "&"%char "&amp;" s in
  let s := replace_char "<"%char "&lt;" s in
  let s := replace_char ">"%char "&gt;" s in
  let s := replace_char "034"%char "&quot;" s in
  let s := replace_char "'"%char "&#x27;" s in
  s.

(** [escape(v)] calls [v.replace], which only a string has. *)
Definition escape (v : json) : result string :=
  match v with
  | JStr s => Ok (html_escape s)
  | _ => Raise AttributeError
  end.

(** [str(v)], as a replacement field or an f-string inserts a value. *)
Definition py_str (L : Library) (v : json) : string :=
  match v with
  | JStr s => s
  | JNum n => str_int n
  | JBool true => "True"
  | JBool false => "False"
  | JNull => "None"
  | _ => repr_json L v
  end.

(** [display_url[:57] + "..."]. *)
Definition shorten (display_url : json) : result json :=
  match display_url with
  | JStr s => Ok (JStr (str_take 57 s ++ "..."))
  | _ => Raise TypeError
  end.

Definition UNAVAILABLE : string :=
  q "<div class=`unavailable`>Article content could not be retrieved.</div>".

Section Rendering.

Variable L : Library.

Definition article_section_of (post : json) (article : option string)
  : result string :=
  match article with
  | Some content_html => Ok (q "<div class=`content`>" ++ content_html ++ "</div>")
  | None =>
      story_text <- get post "story_text" ;;
      if truthy story_text then
        story_text <- getitem post "story_text" ;;
        Ok (q "<div class=`content`>" ++ py_str L story_text ++ "</div>")
      else Ok UNAVAILABLE
  end.

Definition url_link_of (post : json) : result string :=
  url <- get post "url" ;;
  if truthy url then
    display_url <- getitem post "url" ;;
    n <- py_len display_url ;;
    display_url <- (if 60 <? n then shorten display_url else Ok display_url) ;;
    url <- getitem post "url" ;;
    href <- escape url ;;
    text <- escape display_url ;;
    Ok (q " | <a href=`" ++ href ++ q "`>" ++ text ++ "</a>")
  else Ok "".

Definition comment_block (c : json) : result string :=
  time <- getitem c "time" ;;
  ts <- fromtimestamp_utc time ;;
  let time_str := strftime_minutes ts in
  kids <- get_default c "kids" (JArr []) ;;
  reply_count <- py_len kids ;;
  by_ <- get_default c "by" (JStr "[unknown]") ;;
  author <- escape by_ ;;
  body <- get_default c "text" (JStr "<em>[deleted]</em>") ;;
  Ok (format COMMENT_TEMPLATE
        [ ("author", author); ("time", time_str);
          ("reply_count", str_int reply_count); ("body", py_str L body) ]).

Definition render_section (post : json) (article : option string)
  (comments : list json) (rank total : Z) : result string :=
  article_section <- article_section_of post article ;;
  url_link <- url_link_of post ;;
  comment_blocks <- mapM comment_block comments ;;
  title <- getitem post "title" ;;
  title <- escape title ;;
  points <- getitem post "points" ;;
  author <- getitem post "author" ;;
  author <- escape author ;;
  num_comments <- getitem post "num_comments" ;;
  story_id <- getitem post "id" ;;
  Ok (format SECTION_TEMPLATE
        [ ("rank", str_int rank); ("total", str_int total); ("title", title);
          ("points", py_str L points); ("author", author);
          ("num_comments", py_str L num_comments);
          ("story_id", py_str L story_id); ("url_link", url_link);
          ("article_section", article_section);
          ("comment_count", str_int (Z.of_nat (List.length comments)));
          ("comments_html", join nl comment_blocks) ]).

(** One entry of the digest: [(post, article, comments)]. *)
Definition entry : Type := json * option string * list json.

Definition toc_entry (i : Z) (e : entry) : result string :=
  let '(post, _, _) := e in
  title <- getitem post "title" ;;
  title <- escape title ;;
  points <- getitem post "points" ;;
  num_comments <- getitem post "num_comments" ;;
  author <- getitem post "author" ;;
  author <- escape author ;;
  Ok (format TOC_ENTRY_TEMPLATE
        [ ("rank", str_int i); ("title", title); ("points", py_str L points);
          ("num_comments", py_str L num_comments); ("author", author) ]).

Definition section_entry (total : Z) (i : Z) (e : entry) : result string :=
  let '(post, article, comments) := e in
  render_section post article comments i total.

(** [for i, x in enumerate(l, start=i0): out.append(f(i, x))]. *)
Fixpoint enumerate_mapM {A B : Type} (f : Z -> A -> result B) (i : Z) (l : list A)
  : result (list B) :=
  match l with
  | [] => Ok []
  | x :: l' => y <- f i x ;; ys <- enumerate_mapM f (i + 1) l' ;; Ok (y :: ys)
  end.

(** The sections of the document. *)
Definition sections_of (entries : list entry) : result (list string) :=
  enumerate_mapM (section_entry (Z.of_nat (List.length entries))) 1 entries.

(** [html_content], for the date [yesterday]. *)
Definition html_content_of (yesterday : Z) (entries : list entry) : result string :=
  toc_entries <- enumerate_mapM toc_entry 1 entries ;;
  let toc :=
    format TOC_TEMPLATE
      [ ("date", strftime_long yesterday); ("toc_entries", join nl toc_entries) ] in
  sections <- sections_of entries ;;
  Ok (format DOCUMENT_TEMPLATE [ ("toc", toc); ("sections", join nl sections) ]).

(** The host of the run: the home directory, the offset of its local clock
    from UTC in seconds, and whether the output directory can be made. *)
Record host : Type := mkHost {
  home : string;
  utc_offset : Z;
  mkdir : result unit
}.

(** [OUTPUT_DIR = Path.home() / "Documents" / "hn-digests"]. *)
Definition OUTPUT_DIR (H : host) : string := home H ++ "/Documents/hn-digests".

(** The files of the output directory, by path. *)
Definition files : Type := string -> option string.

Definition write_file (path content : string) (fs : files) : files :=
  fun p => if String.eqb p path then Some content else fs p.

(** [LOG_FILE = OUTPUT_DIR / "hn_digest.log"]. *)
Definition LOG_FILE (H : host) : string := OUTPUT_DIR H ++ "/hn_digest.log".

(** A text written to a file opened for appending: the file is created
    when it does not exist. *)
Definition append_file (path text : string) (fs : files) : files :=
  fun p =>
    if String.eqb p path then
      Some (match fs p with Some old => old ++ text | None => text end)
    else fs p.

(** [generate_pdf(entries)] at time [now]: the path written and the files
    after the call. *)
Definition generate_pdf (H : host) (now : Z) (fs : files) (entries : list entry)
  : result (string * files) :=
  let yesterday := date_today now (utc_offset H) - 1 in
  html_content <- html_content_of yesterday entries ;;
  _ <- mkdir H ;;
  let output_path := OUTPUT_DIR H ++ "/" ++ isoformat yesterday ++ ".pdf" in
  pdf <- write_pdf L html_content ;;
  Ok (output_path, write_file output_path pdf fs).

End Rendering.

(** ** Main *)

Definition is_space (c : ascii) : bool :=
  existsb (Ascii.eqb c) [" "%char; "009"%char; "010"%char; "011"%char;
                         "012"%char; "013"%char].

Fixpoint lstrip (s : string) : string :=
  match s with
  | String c s' => if is_space c then lstrip s' else s
  | EmptyString => EmptyString
  end.

Fixpoint rstrip (s : string) : string :=
  match s with
  | String c s' =>
      match rstrip s' with
      | EmptyString => if is_space c then EmptyString else String c EmptyString
      | r => String c r
      end
  | EmptyString => EmptyString
  end.

Definition digit_value (c : ascii) : option Z :=
  let n := Z.of_nat (nat_of_ascii c) in
  if (48 <=? n) && (n <=? 57) then Some (n - 48) else None.

(** The decimal digits of Unicode 14.0, as CPython 3.11 knows them: each
    of these characters is a digit zero, and the nine characters after it
    are the digits one to nine of the same script. *)
Definition decimal_zeros : list Z :=
  [ 48; 1632; 1776; 1984; 2406; 2534; 2662; 2790; 2918; 3046; 3174; 3302;
    3430; 3558; 3664; 3792; 3872; 4160; 4240; 6112; 6160; 6470; 6608; 6784;
    6800; 6992; 7088; 7232; 7248; 42528; 43216; 43264; 43472; 43504; 43600;
    44016; 65296; 66720; 68912; 69734; 69872; 69942; 70096; 70384; 70736;
    70864; 71248; 71360; 71472; 71904; 72016; 72784; 73040; 73120; 92768;
    92864; 93008; 120782; 120792; 120802; 120812; 120822; 123200; 123632;
    125264; 130032 ].

(** The characters beyond ASCII that [str.isspace] takes for white
    space. *)
Definition unicode_spaces : list Z :=
  [ 133; 160; 5760; 8192; 8193; 8194; 8195; 8196; 8197; 8198; 8199; 8200;
    8201; 8202; 8232; 8233; 8239; 8287; 12288 ].

Definition decimal_of (cp : Z) : option Z :=
  option_map (fun zero => cp - zero)
    (find (fun zero => (zero <=? cp) && (cp <=? zero + 9)) decimal_zeros).

(** What [int] makes of one character of a string that is not ASCII before
    it reads the number: white space becomes a blank and a decimal digit
    of any script the ASCII digit; a character that is neither is no part
    of a number. *)
Definition to_ascii_char (ch : string) : option ascii :=
  let cp := code_point ch in
  if cp <? 127 then Some (ascii_of_nat (Z.to_nat cp))
  else if existsb (Z.eqb cp) unicode_spaces then Some " "%char
  else
    match decimal_of cp with
    | Some d => Some (ascii_of_nat (Z.to_nat (48 + d)))
    | None => None
    end.

Fixpoint to_ascii_chars (chs : list string) : option string :=
  match chs with
  | [] => Some EmptyString
  | ch :: chs' =>
      match to_ascii_char ch, to_ascii_chars chs' with
      | Some c, Some s => Some (String c s)
      | _, _ => None
      end
  end.

Definition to_ascii (s : string) : option string :=
  if isascii s then Some s else to_ascii_chars (str_chars s).

Definition count_digits (s : string) : Z :=
  Z.of_nat
    (List.length
       (filter (fun c => match digit_value c with Some _ => true | None => false end)
          (list_ascii_of_string s))).

(** [sys.int_info.default_max_str_digits]. *)
Definition MAX_STR_DIGITS : Z := 4300.

(** Decimal digits, single underscores allowed between them. *)
Fixpoint digits_value (s : string) (acc : Z) (after_digit : bool) : option Z :=
  match s with
  | EmptyString => if after_digit then Some acc else None
  | String c s' =>
      match digit_value c with
      | Some d => digits_value s' (10 * acc + d) true
      | None =>
          if Ascii.eqb c "_"%char && after_digit then digits_value s' acc false
          else None
      end
  end.

(** [int(s)] for a string: white space around an optional sign and the
    digits; a number of more than 4300 digits is refused. *)
Definition int_of_str (s : string) : option Z :=
  match to_ascii s with
  | None => None
  | Some s =>
      let s := rstrip (lstrip s) in
      if MAX_STR_DIGITS <? count_digits s then None
      else
        match s with
        | String "-" s' => option_map Z.opp (digits_value s' 0 false)
        | String "+" s' => digits_value s' 0 false
        | _ => digits_value s 0 false
        end
  end.

(** [int(v)]. *)
Definition py_int (v : json) : result Z :=
  match v with
  | JNum n => Ok n
  | JBool b => Ok (if b then 1 else 0)
  | JStr s =>
      match int_of_str s with
      | Some n => Ok n
      | None => Raise ValueError
      end
  | _ => Raise TypeError
  end.

(** All a run meets: the clock at discovery and at rendering, the search
    index, and, for the post at each position of the discovery result, the
    web and the item service with the scheduler of its worker pool;
    whether [setup_logging] can make the output directory and open the log
    file; and the text that the handler of the log file writes during the
    run: the records of the script, each with the time of the clock, in
    the order in which the threads emit them, and the traceback that
    [log.exception] adds. *)
Record World : Type := mkWorld {
  discovery_clock : Z;
  index : search_params -> nat -> attempt body;
  web : nat -> string -> attempt string;
  threads : nat -> thread_env;
  render_clock : Z;
  setup_mkdir : result unit;
  open_log : result unit;
  logged : string
}.

Section Main.

Variable L : Library.
Variable H : host.
Variable W : World.

(** The body of the loop of [main] for the post at position [i]; the first
    record it logs reads the title, the points and the number of comments
    of the post. *)
Definition entry_of (i : nat) (post : json) : result entry :=
  _ <- getitem post "title" ;;
  _ <- getitem post "points" ;;
  _ <- getitem post "num_comments" ;;
  url <- getitem post "url" ;;
  article <- (if truthy url then
                url <- getitem post "url" ;;
                fetch_article L (web W i) url
              else Ok None) ;;
  id <- getitem post "id" ;;
  story_id <- py_int id ;;
  comments <- fetch_top_comments (threads W i) story_id MAX_COMMENTS ;;
  Ok (post, article, comments).

Fixpoint entries_from (i : nat) (posts : list json) : result (list entry) :=
  match posts with
  | [] => Ok []
  | post :: posts' =>
      e <- entry_of i post ;;
      es <- entries_from (S i) posts' ;;
      Ok (e :: es)
  end.

(** The [try] block of [main]: the path it returns and the files it
    writes, the log file apart. *)
Definition run (fs : files) : result (string * files) :=
  posts <- find_top_posts_yesterday (index W) (discovery_clock W) MAX_POSTS ;;
  entries <- entries_from 0 posts ;;
  generate_pdf L H (render_clock W) fs entries.

(** [setup_logging()]: the output directory is made, and the log file is
    opened for appending, which creates it when it does not exist. *)
Definition setup_logging (fs : files) : result files :=
  _ <- setup_mkdir W ;;
  _ <- open_log W ;;
  Ok (append_file (LOG_FILE H) "" fs).

(** The exit status of the process and the files it leaves.  [setup_logging]
    is outside the [try]: an exception there ends the process with status
    1 before anything is logged.  Every run that gets past it logs, at
    least that it starts, and the records go to the log file whether the
    [try] block returns, exits or raises. *)
Definition main (fs : files) : Z * files :=
  match setup_logging fs with
  | Raise _ => (1, fs)
  | Ok fs =>
      match run fs with
      | Ok (_, fs') => (0, append_file (LOG_FILE H) (logged W) fs')
      | Raise (SystemExit code) => (code, append_file (LOG_FILE H) (logged W) fs)
      | Raise _ => (1, append_file (LOG_FILE H) (logged W) fs)
      end
  end.

End Main.

(** ** Vocabulary of the properties *)

(** An item of type ["comment"] that is flagged neither deleted nor dead. *)
Definition has_type_comment (c : json) : Prop :=
  get c "type" = Ok (JStr "comment").

Definition not_flagged (flag : string) (c : json) : Prop :=
  exists v : json, get c flag = Ok v /\ truthy v = false.

Definition live_comment (c : json) : Prop :=
  has_type_comment c /\ not_flagged "deleted" c /\ not_flagged "dead" c.

(** The count of a comment's own reply identifiers. *)
Definition reply_count (c : json) : Z :=
  match (kids <- get_default c "kids" (JArr []) ;; py_len kids) with
  | Ok n => n
  | Raise _ => 0
  end.

(** The position of an identifier in the story's list of reply
    identifiers. *)
Fixpoint index_of (id : Z) (ids : list Z) : Z :=
  match ids with
  | [] => 0
  | id' :: ids' => if id =? id' then 0 else 1 + index_of id ids'
  end.

Definition original_position (ids : list Z) (c : json) : Z :=
  match getitem c "id" with
  | Ok (JNum id) => index_of id ids
  | _ => 999
  end.

(** The ranking rule: more replies first, a lower original position first
    among equal counts. *)
Definition ranks_before (ids : list Z) (a b : json) : Prop :=
  reply_count a > reply_count b
  \/ (reply_count a = reply_count b
      /\ original_position ids a < original_position ids b).

(** The items, among the answers to the workers, that the collecting loop
    keeps, in the order of the answers. *)
Definition live_items (answers : list (result json)) : list json :=
  flat_map
    (fun r =>
       match r with
       | Ok item =>
           match is_live_comment item with
           | Ok true => [item]
           | _ => []
           end
       | Raise _ => []
       end)
    answers.

(** An answer the loop can handle: an item on which the test does not
    raise. *)
Definition testable (r : result json) : Prop :=
  exists (item : json) (keep : bool), r = Ok item /\ is_live_comment item = Ok keep.

(** The workers of the slots [slot], [slot + 1], ... ask for the
    identifiers at these positions of [ids]. *)
Definition aligned (ids : list Z) (slot : nat) (l : list Z) : Prop :=
  forall (j : nat) (id : Z),
    nth_error l j = Some id -> nth_error ids (slot + j) = Some id.

(** The same network under another order of completion. *)
Definition reschedule (E : thread_env) (choices : list nat) : thread_env :=
  mkThreadEnv (story_service E) (kid_service E) choices.

(** A thread as the item service documents it: the story is a dict whose
    ["kids"] are distinct integers, and the worker that asks for the reply
    [id] gets an answer, which is either dropped by the collecting loop or
    a dict with that ["id"] whose ["kids"], if any, are a list. *)
Definition well_formed_thread (E : thread_env) (story_id : Z) (ids : list Z)
  : Prop :=
  NoDup ids
  /\ (exists m : list (string * json),
         fetch_item (story_service E) (JNum story_id) = Ok (JObj m)
         /\ lookup "kids" m = Some (JArr (map JNum ids)))
  /\ forall (k : nat) (id : Z),
       nth_error ids k = Some id ->
       exists item : json,
         fetch_item (kid_service E k) (JNum id) = Ok item
         /\ (is_live_comment item = Ok false
             \/ (is_live_comment item = Ok true
                 /\ getitem item "id" = Ok (JNum id)
                 /\ exists replies : list json,
                      get_default item "kids" (JArr []) = Ok (JArr replies))).

(** ** Sample inputs *)

(** An endpoint that answers every attempt with status 200 and the body
    [v]. *)
Definition answers {B : Type} (v : B) : nat -> attempt B :=
  fun _ => Responds 200 v.

Definition sample_comment (id : Z) (replies : list Z) : json :=
  JObj [ ("by", JStr "pg"); ("id", JNum id); ("kids", JArr (map JNum replies));
         ("parent", JNum 100); ("text", JStr "<p>First!</p>");
         ("time", JNum 1704100000); ("type", JStr "comment") ].

(** A story with four replies, whose own reply counts are 3, 1, 3, 0. *)
Definition sample_story : json :=
  JObj [ ("by", JStr "dang"); ("id", JNum 100);
         ("kids", JArr [JNum 101; JNum 102; JNum 103; JNum 104]);
         ("time", JNum 1704090000); ("title", JStr "Show HN");
         ("type", JStr "story") ].

Definition sample_service : item_service :=
  fun item_id =>
    match item_id with
    | JNum 100 => answers (Decodes sample_story)
    | JNum 101 => answers (Decodes (sample_comment 101 [201; 202; 203]))
    | JNum 102 => answers (Decodes (sample_comment 102 [204]))
    | JNum 103 => answers (Decodes (sample_comment 103 [205; 206; 207]))
    | JNum 104 => answers (Decodes (sample_comment 104 []))
    | _ => answers (Decodes JNull)
    end.

Definition sample_thread (choices : list nat) : thread_env :=
  mkThreadEnv sample_service (fun _ => sample_service) choices.

(** Order of keyed elements, and the key of the ranking rule. *)
Definition keyed_le {A : Type} (p r : (Z * Z) * A) : Prop :=
  key_le (fst p) (fst r) = true.

Definition rank_key (ids : list Z) (c : json) : Z * Z :=
  (- reply_count c, original_position ids c).

(** The candidates in ranking order. *)
Definition rank (ids : list Z) (candidates : list json) : list json :=
  map snd (sort_keyed (map (fun c => (rank_key ids c, c)) candidates)).

(** A candidate as the item service documents it: it carries the
    identifier of a reply of the story, and its ["kids"] are a list. *)
Definition documented_candidate (ids : list Z) (c : json) : Prop :=
  exists (k : nat) (id : Z) (replies : list json),
    nth_error ids k = Some id
    /\ getitem c "id" = Ok (JNum id)
    /\ get_default c "kids" (JArr []) = Ok (JArr replies).

(** ** [urllib.parse.urljoin]

    A transcription of CPython 3.11's [urllib.parse] for [str] arguments,
    with what it uses of [ipaddress] and, for the check of a host that is
    not ASCII, of the Unicode 14.0 tables of [unicodedata].  It is no part
    of the repository, and the properties of the pipeline do not depend on
    it: it serves to run the pipeline on examples. *)

Definition char_in (c : ascii) (s : string) : bool :=
  existsb (Ascii.eqb c) (list_ascii_of_string s).

Fixpoint find_from (c : ascii) (s : string) (i : nat) : option nat :=
  match s with
  | EmptyString => None
  | String a s' => if Ascii.eqb a c then Some i else find_from c s' (S i)
  end.

(** [s.find(c)]. *)
Definition find_char (c : ascii) (s : string) : option nat := find_from c s 0.

Definition take (n : nat) (s : string) : string := String.substring 0 n s.

Definition drop (n : nat) (s : string) : string :=
  String.substring n (String.length s - n) s.

(** [s.split(c)]. *)
Fixpoint split_char (c : ascii) (s : string) : list string :=
  match s with
  | EmptyString => [EmptyString]
  | String a s' =>
      if Ascii.eqb a c then EmptyString :: split_char c s'
      else
        match split_char c s' with
        | [] => [String a EmptyString]
        | w :: ws => String a w :: ws
        end
  end.

(** [s.split(c, 1)] when [c] occurs in [s]. *)
Definition split_first (c : ascii) (s : string) : string * string :=
  match find_char c s with
  | Some i => (take i s, drop (S i) s)
  | None => (s, EmptyString)
  end.

Definition is_c0_or_space (c : ascii) : bool := (nat_of_ascii c <=? 32)%nat.

Fixpoint lstrip_c0 (s : string) : string :=
  match s with
  | String c s' => if is_c0_or_space c then lstrip_c0 s' else s
  | EmptyString => EmptyString
  end.

Fixpoint rstrip_c0 (s : string) : string :=
  match s with
  | String c s' =>
      match rstrip_c0 s' with
      | EmptyString => if is_c0_or_space c then EmptyString else String c EmptyString
      | r => String c r
      end
  | EmptyString => EmptyString
  end.

Fixpoint remove_chars (cs : list ascii) (s : string) : string :=
  match s with
  | EmptyString => EmptyString
  | String a s' =>
      if existsb (Ascii.eqb a) cs then remove_chars cs s'
      else String a (remove_chars cs s')
  end.

Definition is_alpha (c : ascii) : bool :=
  let n := nat_of_ascii c in
  ((65 <=? n) && (n <=? 90) || (97 <=? n) && (n <=? 122))%nat.

Definition is_digit (c : ascii) : bool :=
  let n := nat_of_ascii c in ((48 <=? n) && (n <=? 57))%nat.

Definition is_scheme_char (c : ascii) : bool :=
  is_alpha c || is_digit c || char_in c "+-.".

Definition lower_char (c : ascii) : ascii :=
  let n := nat_of_ascii c in
  if ((65 <=? n) && (n <=? 90))%nat then ascii_of_nat (n + 32) else c.

Fixpoint lower (s : string) : string :=
  match s with
  | EmptyString => EmptyString
  | String c s' => String (lower_char c) (lower s')
  end.

Definition uses_relative : list string :=
  [ ""; "ftp"; "http"; "gopher"; "nntp"; "imap"; "wais"; "file"; "https";
    "shttp"; "mms"; "prospero"; "rtsp"; "rtspu"; "sftp"; "svn"; "svn+ssh";
    "ws"; "wss" ].

Definition uses_netloc : list string :=
  [ ""; "ftp"; "http"; "gopher"; "nntp"; "telnet"; "imap"; "wais"; "file";
    "mms"; "https"; "shttp"; "snews"; "prospero"; "rtsp"; "rtspu"; "rsync";
    "svn"; "svn+ssh"; "sftp"; "nfs"; "git"; "git+ssh"; "ws"; "wss" ].

Definition uses_params : list string :=
  [ ""; "ftp"; "hdl"; "prospero"; "http"; "imap"; "https"; "shttp"; "rtsp";
    "rtspu"; "sip"; "sips"; "mms"; "sftp"; "tel" ].

Definition mem (s : string) (l : list string) : bool := existsb (String.eqb s) l.

Definition nonempty (s : string) : bool := negb (String.eqb s "").

(** [_splitnetloc(url, 2)]. *)
Definition splitnetloc (url : string) : string * string :=
  let rest := drop 2 url in
  let delim :=
    fold_left
      (fun delim c =>
         match find_char c rest with
         | Some w => Nat.min delim w
         | None => delim
         end)
      ["/"%char; "?"%char; "#"%char] (String.length rest) in
  (take delim rest, drop delim rest).

Fixpoint rfind_from (c : ascii) (s : string) (i : nat) (found : option nat)
  : option nat :=
  match s with
  | EmptyString => found
  | String a s' =>
      rfind_from c s' (S i) (if Ascii.eqb a c then Some i else found)
  end.

(** [s.partition(c)]: the text before the first [c], whether [c] occurs,
    and the text after it. *)
Definition partition (c : ascii) (s : string) : string * bool * string :=
  match find_char c s with
  | Some i => (take i s, true, drop (S i) s)
  | None => (s, false, EmptyString)
  end.

(** [s.rpartition(c)[2]]: the text after the last [c]. *)
Definition after_last (c : ascii) (s : string) : string :=
  match rfind_from c s 0 None with
  | Some i => drop (S i) s
  | None => s
  end.

Definition is_hex_digit (c : ascii) : bool :=
  is_digit c || char_in c "ABCDEFabcdef".

(** [IPv4Address._parse_octet] accepts the octet. *)
Definition valid_octet (octet_str : string) : bool :=
  nonempty octet_str
  && forallb is_digit (list_ascii_of_string octet_str)
  && (String.length octet_str <=? 3)%nat
  && (String.eqb octet_str "0" || negb (String.eqb (take 1 octet_str) "0"))
  && match digits_value octet_str 0 false with
     | Some n => n <=? 255
     | None => false
     end.

(** [IPv4Address(s)] does not raise. *)
Definition valid_ipv4 (addr_str : string) : bool :=
  negb (char_in "/" addr_str)
  && nonempty addr_str
  && let octets := split_char "." addr_str in
     (List.length octets =? 4)%nat && forallb valid_octet octets.

(** [IPv6Address._parse_hextet] accepts the hextet. *)
Definition valid_hextet (hextet_str : string) : bool :=
  forallb is_hex_digit (list_ascii_of_string hextet_str)
  && (String.length hextet_str <=? 4)%nat
  && nonempty hextet_str.

(** The indices from 1 to [len(parts) - 2] of the empty parts. *)
Fixpoint skip_indices (i : nat) (parts : list string) : list nat :=
  match parts with
  | [] | [_] => []
  | part :: parts' =>
      ((if nonempty part then [] else [i]) ++ skip_indices (S i) parts')%list
  end.

(** [IPv6Address._ip_int_from_string(ip_str)] does not raise. *)
Definition valid_ipv6_parts (ip_str : string) : bool :=
  nonempty ip_str
  && let parts := split_char ":" ip_str in
     (3 <=? List.length parts)%nat
     && let suffix := last parts "" in
        (negb (char_in "." suffix) || valid_ipv4 suffix)
        && let parts :=
             if char_in "." suffix then (removelast parts ++ ["0"; "0"])%list
             else parts in
           let len := List.length parts in
           (len <=? 9)%nat
           && match skip_indices 1 (tl parts) with
              | _ :: _ :: _ => false
              | [skip_index] =>
                  let parts_hi := skip_index in
                  let parts_lo := (len - skip_index - 1)%nat in
                  let leading := negb (nonempty (hd "" parts)) in
                  let trailing := negb (nonempty (last parts "")) in
                  let parts_hi := if leading then (parts_hi - 1)%nat else parts_hi in
                  let parts_lo := if trailing then (parts_lo - 1)%nat else parts_lo in
                  (negb leading || (parts_hi =? 0)%nat)
                  && (negb trailing || (parts_lo =? 0)%nat)
                  && (1 <=? 8 - (parts_hi + parts_lo))%nat
                  && forallb valid_hextet (firstn parts_hi parts)
                  && forallb valid_hextet (skipn (len - parts_lo) parts)
              | [] =>
                  (len =? 8)%nat
                  && nonempty (hd "" parts)
                  && nonempty (last parts "")
                  && forallb valid_hextet parts
              end.

(** [IPv6Address(s)] does not raise: an address, and after a percent
    sign a scope that is not empty and holds no other percent sign. *)
Definition valid_ipv6 (addr_str : string) : bool :=
  negb (char_in "/" addr_str)
  && let '(addr, sep, scope_id) := partition "%" addr_str in
     (negb sep || (nonempty scope_id && negb (char_in "%" scope_id)))
     && valid_ipv6_parts addr.

(** [re.match(r"\Av[a-fA-F0-9]+\..+\Z", hostname)] matches. *)
Definition is_ipvfuture (hostname : string) : bool :=
  match hostname with
  | String "v" rest =>
      let '(version, dot, address) := partition "." rest in
      dot && nonempty version
      && forallb is_hex_digit (list_ascii_of_string version)
      && nonempty address && negb (char_in "010" address)
  | _ => false
  end.

(** [_check_bracketed_host(hostname)] does not raise. *)
Definition check_bracketed_host (hostname : string) : bool :=
  if startswith hostname "v" then is_ipvfuture hostname
  else negb (valid_ipv4 hostname) && valid_ipv6 hostname.

(** [_check_bracketed_netloc(netloc)] does not raise. *)
Definition check_bracketed_netloc (netloc : string) : bool :=
  let hostname_and_port := after_last "@" netloc in
  let '(before_bracket, have_open_br, bracketed) :=
    partition "[" hostname_and_port in
  if have_open_br then
    if nonempty before_bracket then false
    else
      let '(hostname, _, port) := partition "]" bracketed in
      if nonempty port && negb (startswith port ":") then false
      else check_bracketed_host hostname
  else
    let '(hostname, _, port) := partition ":" hostname_and_port in
    check_bracketed_host hostname.

(** The characters whose NFKC normalisation holds one of the delimiters
    [/], [?], [#], [@] and [:]. *)
Definition nfkc_delimiters : list Z :=
  [ 8263; 8264; 8265; 8448; 8449; 8453; 8454; 10868; 65043; 65046; 65109;
    65110; 65119; 65131; 65283; 65295; 65306; 65311; 65312 ].

(** [_checknetloc(netloc)] does not raise. *)
Definition checknetloc (netloc : string) : bool :=
  negb (nonempty netloc) || isascii netloc
  || negb (existsb (fun ch => existsb (Z.eqb (code_point ch)) nfkc_delimiters)
             (str_chars netloc)).

Record split_result : Type := mkSplit {
  s_scheme : string;
  s_netloc : string;
  s_path : string;
  s_query : string;
  s_fragment : string
}.

Definition urlsplit (url scheme : string) : result split_result :=
  let url := lstrip_c0 url in
  let scheme := rstrip_c0 (lstrip_c0 scheme) in
  let unsafe := ["009"%char; "013"%char; "010"%char] in
  let url := remove_chars unsafe url in
  let scheme := remove_chars unsafe scheme in
  let '(scheme, url) :=
    match find_char ":" url, url with
    | Some (S i), String c _ =>
        if is_alpha c && forallb is_scheme_char (list_ascii_of_string (take (S i) url))
        then (lower (take (S i) url), drop (S (S i)) url)
        else (scheme, url)
    | _, _ => (scheme, url)
    end in
  netloc_url <-
    (if String.eqb (take 2 url) "//" then
       let '(netloc, url) := splitnetloc url in
       if (char_in "[" netloc && negb (char_in "]" netloc))
          || (char_in "]" netloc && negb (char_in "[" netloc))
       then Raise ValueError
       else if char_in "[" netloc && char_in "]" netloc
                 && negb (check_bracketed_netloc netloc)
       then Raise ValueError
       else Ok (netloc, url)
     else Ok (EmptyString, url)) ;;
  let '(netloc, url) := netloc_url in
  let '(url, fragment) :=
    if char_in "#" url then split_first "#" url else (url, EmptyString) in
  let '(url, query) :=
    if char_in "?" url then split_first "?" url else (url, EmptyString) in
  if checknetloc netloc then Ok (mkSplit scheme netloc url query fragment)
  else Raise ValueError.

(** [_splitparams(url)]. *)
Definition splitparams (url : string) : string * string :=
  match rfind_from "/" url 0 None with
  | Some slash =>
      match find_char ";" (drop slash url) with
      | Some j => (take (slash + j) url, drop (S (slash + j)) url)
      | None => (url, EmptyString)
      end
  | None =>
      match find_char ";" url with
      | Some i => (take i url, drop (S i) url)
      | None =>
          (* [url[:-1], url[0:]] *)
          (str_take (str_len url - 1) url, url)
      end
  end.

Record parse_result : Type := mkParse {
  p_scheme : string;
  p_netloc : string;
  p_path : string;
  p_params : string;
  p_query : string;
  p_fragment : string
}.

Definition urlparse (url scheme : string) : result parse_result :=
  r <- urlsplit url scheme ;;
  let '(url, params) :=
    if mem (s_scheme r) uses_params && char_in ";" (s_path r)
    then splitparams (s_path r)
    else (s_path r, EmptyString) in
  Ok (mkParse (s_scheme r) (s_netloc r) url params (s_query r) (s_fragment r)).

Definition urlunsplit (scheme netloc url query fragment : string) : string :=
  let url :=
    if nonempty netloc
       || (nonempty scheme && mem scheme uses_netloc
           && negb (String.eqb (take 2 url) "//"))
    then
      let url :=
        if nonempty url && negb (String.eqb (take 1 url) "/") then "/" ++ url
        else url in
      "//" ++ netloc ++ url
    else url in
  let url := if nonempty scheme then scheme ++ ":" ++ url else url in
  let url := if nonempty query then url ++ "?" ++ query else url in
  let url := if nonempty fragment then url ++ "#" ++ fragment else url in
  url.

Definition urlunparse (scheme netloc url params query fragment : string)
  : string :=
  let url := if nonempty params then url ++ ";" ++ params else url in
  urlunsplit scheme netloc url query fragment.

(** [segments[1:-1] = filter(None, segments[1:-1])]. *)
Definition filter_middle (segments : list string) : list string :=
  match segments with
  | first :: rest =>
      match rev rest with
      | last :: middle_rev =>
          (first :: filter nonempty (rev middle_rev) ++ [last])%list
      | [] => segments
      end
  | [] => []
  end.

(** The loop over the segments: [..] pops, [.] is skipped. *)
Definition resolve_segments (segments : list string) : list string :=
  fold_left
    (fun resolved seg =>
       if String.eqb seg ".." then removelast resolved
       else if String.eqb seg "." then resolved
       else (resolved ++ [seg])%list)
    segments [].

Definition urllib_urljoin (base url : string) : result string :=
  if negb (nonempty base) then Ok url
  else if negb (nonempty url) then Ok base
  else
    b <- urlparse base "" ;;
    u <- urlparse url (p_scheme b) ;;
    if negb (String.eqb (p_scheme u) (p_scheme b))
       || negb (mem (p_scheme u) uses_relative)
    then Ok url
    else if mem (p_scheme u) uses_netloc && nonempty (p_netloc u) then
      Ok (urlunparse (p_scheme u) (p_netloc u) (p_path u) (p_params u)
            (p_query u) (p_fragment u))
    else
      let netloc :=
        if mem (p_scheme u) uses_netloc then p_netloc b else p_netloc u in
      if negb (nonempty (p_path u)) && negb (nonempty (p_params u)) then
        let query := if nonempty (p_query u) then p_query u else p_query b in
        Ok (urlunparse (p_scheme u) netloc (p_path b) (p_params b) query
              (p_fragment u))
      else
        let base_parts := split_char "/" (p_path b) in
        let base_parts :=
          if nonempty (last base_parts "") then removelast base_parts
          else base_parts in
        let segments :=
          if String.eqb (take 1 (p_path u)) "/" then split_char "/" (p_path u)
          else filter_middle (base_parts ++ split_char "/" (p_path u))%list in
        let resolved_path := resolve_segments segments in
        let resolved_path :=
          if mem (last segments "") ["."; ".."] then (resolved_path ++ [""])%list
          else resolved_path in
        let path := join "/" resolved_path in
        Ok (urlunparse (p_scheme u) netloc
              (if nonempty path then path else "/")
              (p_params u) (p_query u) (p_fragment u)).

(** ** Vocabulary of the article properties *)

(** The attributes of the [img] tags of a tree, in document order. *)
Fixpoint images (n : node) : list (list (string * string)) :=
  match n with
  | Text _ => []
  | Element name attrs children =>
      ((if String.eqb name "img" then [attrs] else []) ++ flat_map images children)%list
  end.

Definition images_of (soup : list node) : list (list (string * string)) :=
  flat_map images soup.

(** A tree with all attributes of its [img] tags erased: what the loop over
    the images cannot change. *)
Fixpoint without_image_attrs (n : node) : node :=
  match n with
  | Text s => Text s
  | Element name attrs children =>
      Element name (if String.eqb name "img" then [] else attrs)
        (map without_image_attrs children)
  end.

(** A source that the loop leaves as it is: an empty one, or one that
    starts with one of the three prefixes. *)
Definition kept_src (src : string) : bool :=
  String.eqb src ""
  || startswith src "http://" || startswith src "https://"
  || startswith src "data:".

(** How the attributes of one [img] tag change: without a [src], or with a
    kept one, not at all; otherwise the [src] becomes the join of the page
    URL and the old value, and nothing else changes. *)
Definition image_rewritten (urljoin : string -> string -> result string)
  (url : string) (before after : list (string * string)) : Prop :=
  match attr_get "src" before with
  | None => after = before
  | Some src =>
      if kept_src src then after = before
      else exists new_src : string,
             urljoin url src = Ok new_src
             /\ after = attr_set "src" new_src before
             /\ attr_get "src" after = Some new_src
  end.

(** ** A sample library *)

Fixpoint serialize (n : node) : string :=
  match n with
  | Text s => s
  | Element name attrs children =>
      "<" ++ name
      ++ String.concat ""
           (map (fun kv => " " ++ fst kv ++ "=" ++ dq ++ snd kv ++ dq) attrs)
      ++ ">" ++ String.concat "" (map serialize children)
      ++ "</" ++ name ++ ">"
  end.

(** The parse of the sample page: three images, a script and a
    paragraph. *)
Definition sample_soup : list node :=
  [ Element "html" []
      [ Element "body" []
          [ Element "script" [] [Text "track()"];
            Element "p" [] [Text "Hello"];
            Element "img" [("alt", "a"); ("src", "/img/a.png")] [];
            Element "img" [("src", "https://x.com/a.png")] [];
            Element "img" [("src", "data:image/png;base64,AAAA")] [] ] ] ].

(** A library whose readability keeps the page as it is, whose parser
    yields [soup] whatever the page, and whose renderer prefixes the
    document with a PDF header. *)
Definition sample_library (soup : list node) : Library :=
  mkLibrary
    (fun text => Ok text)
    (fun _ => soup)
    (fun soup => String.concat "" (map serialize soup))
    urllib_urljoin
    (fun html => Ok ("%PDF-1.7 " ++ html))
    (fun _ => "[...]").

(** A web where every page is served with status 200, and one where no
    server can be reached. *)
Definition sample_web : string -> attempt string :=
  fun _ => Responds 200 "<html>page</html>".

Definition unreachable_web : string -> attempt string :=
  fun _ => Fails ConnectionError.

(** The parse of a page with an image whose source opens a bracket that it
    does not close. *)
Definition bracket_soup : list node :=
  [ Element "html" []
      [ Element "body" []
          [ Element "p" [] [Text "Hello"];
            Element "img" [("src", "//[cdn/a.png")] [] ] ] ].

(** A post and a comment with markup in every text field. *)
Definition sample_post : json :=
  JObj [ ("id", JStr "100"); ("title", JStr "Show HN: <b>x</b> & y");
         ("url", JNull); ("story_text", JStr "<p>self <i>text</i></p>");
         ("points", JNum 42); ("num_comments", JNum 4);
         ("author", JStr "d'Ang"); ("created_at", JStr "2024-01-01T10:00:00Z") ].

Definition markup_comment : json :=
  JObj [ ("by", JStr "<pg>"); ("id", JNum 101); ("kids", JArr [JNum 201]);
         ("text", JStr "<script>alert(1)</script>");
         ("time", JNum 1704100000); ("type", JStr "comment") ].

Definition textless_comment : json :=
  JObj [ ("id", JNum 102); ("time", JNum 1704100060); ("type", JStr "comment") ].

(** What a comment block reads: the escaped author, with [[unknown]] for a
    comment without one, the time to the minute, the count of replies, and
    the text as it is, with the placeholder for a comment without a
    text. *)
Definition comment_inserted (L : Library) (c : json) (block : string) : Prop :=
  exists (m : list (string * json)) (by_ body : string) (time : json) (ts : Z),
    c = JObj m
    /\ match lookup "by" m with
       | Some v => v = JStr by_
       | None => by_ = "[unknown]"
       end
    /\ body = match lookup "text" m with
              | Some v => py_str L v
              | None => "<em>[deleted]</em>"
              end
    /\ (forall text : string, lookup "text" m = Some (JStr text) -> body = text)
    /\ lookup "time" m = Some time
    /\ fromtimestamp_utc time = Ok ts
    /\ block
       = comment_text (html_escape by_) (strftime_minutes ts)
           (str_int (reply_count c)) body.

(** ** A sample run *)

Definition sample_hits : json :=
  JArr
    [ JObj [ ("objectID", JStr "100"); ("title", JStr "Show HN: a <b>bold</b> idea");
             ("url", JStr "https://ex.com/post"); ("points", JNum 42);
             ("num_comments", JNum 4); ("author", JStr "dang");
             ("created_at", JStr "2024-01-01T10:00:00Z");
             ("created_at_i", JNum 1704103200) ];
      JObj [ ("objectID", JStr "200"); ("title", JStr "Ask HN: why?");
             ("story_text", JStr "<p>Why indeed</p>"); ("points", JNum 7);
             ("num_comments", JNum 0); ("author", JStr "pg");
             ("created_at", JStr "2024-01-01T11:00:00Z");
             ("created_at_i", JNum 1704106800) ] ].

(** An index that answers every request with the two sample hits. *)
Definition sample_index : search_params -> nat -> attempt body :=
  fun _ => answers (Decodes (JObj [("hits", sample_hits)])).

(** What the handler of the log file writes for the first record of a
    run. *)
Definition sample_log : string :=
  "2024-01-02 12:00:00,000 [INFO] Starting HN Daily Digest generation" ++ nl.

(** A run at 2024-01-02T12:00:00Z, rendered five seconds later. *)
Definition sample_world : World :=
  mkWorld 1704196800 sample_index (fun _ => sample_web)
    (fun _ => sample_thread [2; 0]%nat) 1704196805 (Ok tt) (Ok tt) sample_log.

(** A host on UTC. *)
Definition sample_host : host := mkHost "/home/u" 0 (Ok tt).

(** No file yet. *)
Definition no_files : files := fun _ => None.

(** A host five hours behind UTC, and a run at 2024-01-02T02:00:00Z, which
    is 21:00 of the first of January on that host. *)
Definition eastern_host : host := mkHost "/home/u" (-18000) (Ok tt).

Definition night_world : World :=
  mkWorld 1704160800 sample_index (fun _ => sample_web)
    (fun _ => sample_thread []) 1704160805 (Ok tt) (Ok tt) sample_log.

(** ** Vocabulary of fault isolation *)

(** A post as discovery documents it: title and author are strings, the
    points and the number of comments are integers, the URL is absent or a
    string, the self-text is absent or a string, and the identifier is a
    string that reads as an integer. *)
Definition documented_post (post : json) : Prop :=
  exists (m : list (string * json)) (title author id : string) (url : json)
         (story_id points num_comments : Z),
    post = JObj m
    /\ lookup "title" m = Some (JStr title)
    /\ lookup "author" m = Some (JStr author)
    /\ lookup "url" m = Some url
    /\ (truthy url = false \/ exists u : string, url = JStr u)
    /\ lookup "id" m = Some (JStr id)
    /\ py_int (JStr id) = Ok story_id
    /\ lookup "points" m = Some (JNum points)
    /\ lookup "num_comments" m = Some (JNum num_comments)
    /\ (forall v : json,
          lookup "story_text" m = Some v ->
          truthy v = false \/ exists text : string, v = JStr text).

(** A comment as the item service documents it: a time within the range of
    [datetime], an author that is absent or a string, replies that are
    absent or a list, a text that is absent or a string. *)
Definition renderable_comment (c : json) : Prop :=
  exists (m : list (string * json)) (time : json) (ts : Z),
    c = JObj m
    /\ lookup "time" m = Some time
    /\ fromtimestamp_utc time = Ok ts
    /\ (lookup "by" m = None \/ exists b : string, lookup "by" m = Some (JStr b))
    /\ (lookup "kids" m = None
        \/ exists l : list json, lookup "kids" m = Some (JArr l))
    /\ (lookup "text" m = None
        \/ exists text : string, lookup "text" m = Some (JStr text)).

(** The answers of the item service for one story, lookups that failed
    included.  Every lookup returns: its transport fails, or the body it
    gets is no JSON document, which both yield [None], or the body
    decodes; no body makes the decoder raise anything but
    [JSONDecodeError].  The story lookup yields nothing, or a dict without
    replies, or a dict with distinct integer replies, and the answer to
    each worker is dropped by the collecting loop (as a failed lookup is)
    or is a documented comment with the identifier asked for. *)
Definition documented_thread (E : thread_env) (story_id : Z) : Prop :=
  exists story : json,
    fetch_item (story_service E) (JNum story_id) = Ok story
    /\ (truthy story = false
        \/ exists m : list (string * json),
             story = JObj m
             /\ (lookup "kids" m = None
                 \/ exists ids : list Z,
                      lookup "kids" m = Some (JArr (map JNum ids))
                      /\ NoDup ids
                      /\ forall (k : nat) (id : Z),
                           nth_error ids k = Some id ->
                           exists item : json,
                             fetch_item (kid_service E k) (JNum id) = Ok item
                             /\ (is_live_comment item = Ok false
                                 \/ (is_live_comment item = Ok true
                                     /\ getitem item "id" = Ok (JNum id)
                                     /\ renderable_comment item)))).

(** The image sources of a fragment can be joined to the page URL. *)
Definition joinable (urljoin : string -> string -> result string)
  (url : string) (attrs : list (string * string)) : Prop :=
  forall src : string,
    attr_get "src" attrs = Some src ->
    exists joined : string, urljoin url src = Ok joined.

Definition joinable_images (L : Library) (url : string) (soup : list node)
  : Prop :=
  Forall (joinable (urljoin L) url) (images_of soup).

(** The library as the script expects it: readability raises nothing
    beyond [Exception], and the renderer renders. *)
Definition summary_raises_exceptions (L : Library) : Prop :=
  forall (text : string) (e : exn),
    summary L text = Raise e -> is_Exception e = true.

Definition renders (L : Library) : Prop :=
  forall html : string, exists pdf : string, write_pdf L html = Ok pdf.

(** An item service where the lookup of the reply 102 times out, one where
    every lookup times out, and a run in which no page can be reached, the
    first story has a reply that cannot be fetched and the second story
    cannot be fetched at all. *)
Definition flaky_service : item_service :=
  fun item_id =>
    match item_id with
    | JNum 102 => fun _ => Fails ReadTimeout
    | _ => sample_service item_id
    end.

Definition dead_service : item_service := fun _ _ => Fails ReadTimeout.

Definition flaky_world : World :=
  mkWorld 1704196800 sample_index (fun _ => unreachable_web)
    (fun i =>
       match i with
       | O => mkThreadEnv flaky_service (fun _ => flaky_service) [1; 1]%nat
       | S _ => mkThreadEnv dead_service (fun _ => dead_service) []
       end)
    1704196805 (Ok tt) (Ok tt) sample_log.

(** A run in which the item service answers, for the reply 101, a comment
    without an identifier. *)
Definition odd_service : item_service :=
  fun item_id =>
    match item_id with
    | JNum 101 => answers (Decodes (JObj [("type", JStr "comment")]))
    | _ => sample_service item_id
    end.

Definition odd_world : World :=
  mkWorld 1704196800 sample_index (fun _ => sample_web)
    (fun _ => mkThreadEnv odd_service (fun _ => odd_service) [])
    1704196805 (Ok tt) (Ok tt) sample_log.

(** What the run meets for the post at position [i] is documented: the
    post, the thread of its story, and the images of its page. *)
Definition documented_answers (L : Library) (W : World) (i : nat) (post : json)
  : Prop :=
  documented_post post
  /\ (forall (u : string) (resp : response string) (summary_html : string),
         getitem post "url" = Ok (JStr u) ->
         accepted (web W i u) = Some resp ->
         summary L (payload resp) = Ok summary_html ->
         joinable_images L u
           (decompose_all ["script"; "style"; "iframe"]
              (BeautifulSoup L summary_html)))
  /\ (forall (id : json) (story_id : Z),
         getitem post "id" = Ok id ->
         py_int id = Ok story_id ->
         documented_thread (threads W i) story_id).

(** The article of an entry: none when the post has no URL, when the page
    cannot be fetched and when the content reduction raises; the
    serialised fragment of the page otherwise. *)
Definition article_outcome (L : Library) (web : string -> attempt string)
  (url : json) (article : option string) : Prop :=
  match url with
  | JStr u =>
      if String.eqb u "" then article = None
      else
        match accepted (web u) with
        | None => article = None
        | Some resp =>
            match summary L (payload resp) with
            | Raise _ => article = None
            | Ok summary_html =>
                exists soup : list node,
                  rewrite_all_images (urljoin L) u
                    (decompose_all ["script"; "style"; "iframe"]
                       (BeautifulSoup L summary_html))
                  = Ok soup
                  /\ article = Some (soup_str L soup)
            end
        end
  | _ => article = None
  end.

(** The comments of an entry: none when the story cannot be fetched or has
    no replies; otherwise the ranking of the answers that the collecting
    loop keeps among the lookups of the batch, cut at [MAX_COMMENTS].  A
    reply whose lookup failed is not among them, and the others are
    ranked as they would be without it. *)
Definition comments_outcome (E : thread_env) (story_id : Z)
  (comments : list json) : Prop :=
  exists story : json,
    fetch_item (story_service E) (JNum story_id) = Ok story
    /\ (truthy story = false -> comments = [])
    /\ forall m : list (string * json),
         story = JObj m ->
         (lookup "kids" m = None -> comments = [])
         /\ forall ids : list Z,
              lookup "kids" m = Some (JArr (map JNum ids)) ->
              comments
              = firstn (Z.to_nat MAX_COMMENTS)
                  (rank ids
                     (live_items
                        (submit_from E 0
                           (map JNum
                              (firstn (Z.to_nat (MAX_COMMENTS + 10)) ids))))).

(** The entry of a post whose retrieval may have failed: the post itself,
    with the article and the comments that could be retrieved. *)
Definition entry_outcome (L : Library) (W : World) (i : nat) (post : json)
  (e : entry) : Prop :=
  fst (fst e) = post
  /\ (forall url : json,
         getitem post "url" = Ok url ->
         article_outcome L (web W i) url (snd (fst e)))
  /\ (forall (id : json) (story_id : Z),
         getitem post "id" = Ok id ->
         py_int id = Ok story_id ->
         comments_outcome (threads W i) story_id (snd e))
  /\ Forall renderable_comment (snd e).

(** What a run leaves of the files [fs] when it writes nothing but its
    log: the log file holds what it held, followed by the records of the
    run, and every other file is as it was. *)
Definition only_logged (H : host) (W : World) (fs fs' : files) : Prop :=
  fs' (LOG_FILE H)
  = Some (match fs (LOG_FILE H) with Some old => old | None => "" end
          ++ logged W)
  /\ forall p : string, p <> LOG_FILE H -> fs' p = fs p.

(** Every file but the log file is as it was. *)
Definition untouched_but_log (H : host) (fs fs' : files) : Prop :=
  forall p : string, p <> LOG_FILE H -> fs' p = fs p.

(** What a run leaves when it writes the digest [pdf] at [output_path]
    and its log. *)
Definition digest_written (H : host) (W : World) (output_path pdf : string)
  (fs fs' : files) : Prop :=
  fs' output_path = Some pdf
  /\ fs' (LOG_FILE H)
     = Some (match fs (LOG_FILE H) with Some old => old | None => "" end
             ++ logged W)
  /\ forall p : string, p <> output_path -> p <> LOG_FILE H -> fs' p = fs p.

(** ** Vocabulary of the further properties *)

(** The events of a call of [_request_with_retry] whose last request is
    [more] requests after the request [attempt]: after each request but
    the last, a sleep of as many seconds as requests were made. *)
Fixpoint backoff_trace (attempt more : nat) : list event :=
  match more with
  | O => [Get attempt]
  | S more' =>
      Get attempt :: Sleep (Z.of_nat attempt + 1)
        :: backoff_trace (S attempt) more'
  end.

(** The requests made and the seconds slept during a trace. *)
Fixpoint requests_made (t : list event) : list nat :=
  match t with
  | [] => []
  | Get k :: t' => k :: requests_made t'
  | Sleep _ :: t' => requests_made t'
  end.

Fixpoint seconds_slept (t : list event) : Z :=
  match t with
  | [] => 0
  | Get _ :: t' => seconds_slept t'
  | Sleep s :: t' => s + seconds_slept t'
  end.

(** The first response that [raise_for_status] accepts among the [n]
    attempts from [attempt] on. *)
Fixpoint first_accepted {B : Type} (net : nat -> attempt B) (attempt n : nat)
  : option (response B) :=
  match n with
  | O => None
  | S n' =>
      match accepted (net attempt) with
      | Some r => Some r
      | None => first_accepted net (S attempt) n'
      end
  end.

(** What [fetch_item] makes of the body of the response it got: the
    [JSONDecodeError] of a body that is no JSON document is caught, the
    other exceptions of the decoder are not. *)
Definition item_of_body (b : body) : result json :=
  match b with
  | Decodes item => Ok item
  | NotJSON => Ok JNull
  | TooDeep => Raise RecursionError
  | TooManyDigits => Raise ValueError
  end.

(** Two calls of [fetch_top_comments] that differ at most in what the
    workers of the slots from [limit + 10] on would meet: the story and
    the workers of the first [limit + 10] slots meet the same network, and
    the workers complete in the same order. *)
Definition same_batch (limit : Z) (E E' : thread_env) : Prop :=
  (forall (item_id : json) (k : nat),
      story_service E' item_id k = story_service E item_id k)
  /\ completion E' = completion E
  /\ forall (slot : nat) (item_id : json) (k : nat),
       Z.of_nat slot < limit + 10 ->
       kid_service E' slot item_id k = kid_service E slot item_id k.

(** A story with sixteen replies, the last of which has four replies of
    its own and the others none; and the same thread with another network
    [last] for the workers of the slots from 15 on. *)
Definition crowded_story : json :=
  JObj [ ("by", JStr "dang"); ("id", JNum 100);
         ("kids",
          JArr (map JNum [ 101; 102; 103; 104; 105; 106; 107; 108; 109; 110;
                           111; 112; 113; 114; 115; 116 ]));
         ("time", JNum 1704090000); ("title", JStr "Ask HN");
         ("type", JStr "story") ].

Definition crowded_service : item_service :=
  fun item_id =>
    match item_id with
    | JNum 100 => answers (Decodes crowded_story)
    | JNum 116 => answers (Decodes (sample_comment 116 [301; 302; 303; 304]))
    | JNum id => answers (Decodes (sample_comment id []))
    | _ => answers (Decodes JNull)
    end.

Definition crowded_thread (last : item_service) : thread_env :=
  mkThreadEnv crowded_service
    (fun slot => if (slot <? 15)%nat then crowded_service else last) [].

(** The names of the tags of a tree, at every depth, and of a fragment. *)
Fixpoint tag_names (n : node) : list string :=
  match n with
  | Text _ => []
  | Element name _ children => name :: flat_map tag_names children
  end.

Definition tag_names_of (soup : list node) : list string :=
  flat_map tag_names soup.

(** The parse of a page without [script], [style] or [iframe]. *)
Definition clean_soup : list node :=
  [ Element "div" [("class", "post")]
      [ Element "p" [] [Text "Hello"; Element "em" [] [Text "world"]];
        Element "img" [("src", "/a.png")] [] ] ].

(** [part] occurs in [s]. *)
Definition contains (s part : string) : Prop :=
  exists before after : string, s = before ++ part ++ after.

(** The link of the table of contents to the post of a rank, and the
    opening tag of the section of a rank, which carries the anchor. *)
Definition toc_link (rank : Z) (title : string) : string :=
  q "<a href=`#post-" ++ str_int rank ++ q "`>" ++ html_escape title ++ "</a>".

Definition section_opening (rank : Z) : string :=
  q "<div class=`post-section` id=`post-" ++ str_int rank ++ q "`>".

(** A post with a URL of 70 characters, which are 74 bytes, the 57th an
    ampersand, and a post with a URL of 53 characters, which are 61
    bytes. *)
Definition long_url_post : json :=
  JObj [ ("id", JStr "300"); ("title", JStr "A long read");
         ("url",
          JStr "https://example.com/café/crème-brûlée/a-long-read/24?pg=&ref=hn-digest");
         ("story_text", JNull); ("points", JNum 10); ("num_comments", JNum 0);
         ("author", JStr "pg"); ("created_at", JStr "2024-01-01T10:00:00Z") ].

Definition accented_url_post : json :=
  JObj [ ("id", JStr "301"); ("title", JStr "Desserts");
         ("url", JStr "https://example.com/café/crème-brûlée/déjà-vu/naïveté");
         ("story_text", JNull); ("points", JNum 10); ("num_comments", JNum 0);
         ("author", JStr "pg"); ("created_at", JStr "2024-01-01T10:00:00Z") ].

(** What a computation may raise. *)
Definition raises_only {A : Type} (P : exn -> Prop) (r : result A) : Prop :=
  forall e : exn, r = Raise e -> P e.

(** An exception that [except Exception] catches. *)
Definition an_Exception (e : exn) : Prop := is_Exception e = true.

(** A library that raises nothing beyond [Exception]: it does not end the
    process by itself. *)
Definition library_raises_exceptions (L : Library) : Prop :=
  (forall text : string, raises_only an_Exception (summary L text))
  /\ (forall base url : string, raises_only an_Exception (urljoin L base url))
  /\ (forall html : string, raises_only an_Exception (write_pdf L html)).

(** A run on a day without stories, and a run that cannot reach the
    search index. *)
Definition quiet_world : World :=
  mkWorld 1704196800 (fun _ => answers (Decodes (JObj [("hits", JArr [])])))
    (fun _ => sample_web) (fun _ => sample_thread []) 1704196805 (Ok tt) (Ok tt) sample_log.

Definition offline_world : World :=
  mkWorld 1704196800 (fun _ _ => Fails ConnectionError)
    (fun _ => sample_web) (fun _ => sample_thread []) 1704196805 (Ok tt) (Ok tt) sample_log.

(** The keys of a post, in the order of the dict that discovery builds. *)
Definition post_fields : list string :=
  [ "id"; "title"; "url"; "story_text"; "points"; "num_comments"; "author";
    "created_at" ].

(** The post built from a hit: the values of the hit under the keys of
    the post, [None] for a URL or a self-text that the hit does not have. *)
Definition post_from_hit (hit post : json) : Prop :=
  exists objectID title url story_text points num_comments author created_at : json,
    getitem hit "objectID" = Ok objectID
    /\ getitem hit "title" = Ok title
    /\ get hit "url" = Ok url
    /\ get hit "story_text" = Ok story_text
    /\ getitem hit "points" = Ok points
    /\ getitem hit "num_comments" = Ok num_comments
    /\ getitem hit "author" = Ok author
    /\ getitem hit "created_at" = Ok created_at
    /\ post = JObj [ ("id", objectID); ("title", title); ("url", url);
                     ("story_text", story_text); ("points", points);
                     ("num_comments", num_comments); ("author", author);
                     ("created_at", created_at) ].

(** The line of a comment block that names the author, the time and the
    count of replies, and the heading over the comments of a section. *)
Definition comment_meta (author : string) (ts replies : Z) : string :=
  "<strong>" ++ html_escape author ++ "</strong> &middot; "
  ++ strftime_minutes ts ++ " &middot; " ++ str_int replies ++ " replies".

Definition comments_heading (count : Z) : string :=
  "<h2>Top " ++ str_int count ++ " Comments</h2>".

(** A block that shows a comment: its author, [[unknown]] for a comment
    without one, its time, and the count of its replies. *)
Definition shown_comment (c : json) (block : string) : Prop :=
  exists (time : json) (ts : Z) (author : string),
    getitem c "time" = Ok time
    /\ fromtimestamp_utc time = Ok ts
    /\ get_default c "by" (JStr "[unknown]") = Ok (JStr author)
    /\ contains block (comment_meta author ts (reply_count c)).

(** * Properties *)

(** ** The retry-wrapped fetch *)

Section RetryFacts.

Context {B : Type}.
Variable net : nat -> attempt B.

(** One iteration of the loop body, seen through [accepted]. *)
Lemma try_get_accepted (k : nat) :
  (resp <- requests_get (net k) ;; _ <- raise_for_status resp ;; Ok resp)
  = match accepted (net k) with
    | Some r => Ok r
    | None => Raise RequestException
    end.
Proof.
  unfold accepted, requests_get, raise_for_status.
  destruct (net k) as [st b | f]; simpl; [ | reflexivity ].
  destruct ((400 <=? st) && (st <? 600)); reflexivity.
Qed.

(** The three attempts unrolled: the first accepted attempt wins. *)
Lemma retry_three_unrolled :
  snd (_request_with_retry net 3)
  = match accepted (net 0%nat), accepted (net 1%nat), accepted (net 2%nat) with
    | Some r, _, _ => Ok (Some r)
    | None, Some r, _ => Ok (Some r)
    | None, None, Some r => Ok (Some r)
    | None, None, None => Raise RequestException
    end.
Proof.
  unfold _request_with_retry. simpl retry_loop.
  rewrite !try_get_accepted.
  destruct (accepted (net 0%nat)); [ reflexivity | ].
  destruct (accepted (net 1%nat)); [ reflexivity | ].
  destruct (accepted (net 2%nat)); reflexivity.
Qed.

(** The sleeps of a call whose three attempts all fail: 1 s, then 2 s, and
    none after the last attempt. *)
Lemma retry_three_backoff :
  accepted (net 0%nat) = None -> accepted (net 1%nat) = None ->
  accepted (net 2%nat) = None ->
  fst (_request_with_retry net 3)
  = [Get 0; Sleep 1; Get 1; Sleep 2; Get 2].
Proof.
  intros H0 H1 H2. unfold _request_with_retry. simpl retry_loop.
  rewrite !try_get_accepted, H0, H1, H2. reflexivity.
Qed.

End RetryFacts.

(** C5, as stated, fails: a final response with status 304 is no 2xx
    response, yet [raise_for_status] accepts it and the call returns it
    from the first attempt. *)
Lemma retry_returns_a_304_response :
  snd (_request_with_retry (fun _ => Responds 304 "not modified") 3)
  = Ok (Some (mkResponse 304 "not modified"))
  /\ is_2xx (Responds 304 "not modified") = false.
Proof. split; reflexivity. Qed.

(** C5, amended: with three attempts, [_request_with_retry] returns a
    response exactly when one of the first three attempts yields a response
    whose status is no 4xx or 5xx error status, and it is the response of
    the first such attempt; connection errors, timeouts and 4xx/5xx
    statuses are retried alike, and the call raises the transport failure
    exactly when all three attempts fail; it never returns without a
    response.  In particular two failures followed by a success return the
    successful response. *)
Theorem retry_three_attempts :
  forall (B : Type) (net : nat -> attempt B),
    let out := snd (_request_with_retry net 3) in
    (forall r : response B,
        out = Ok (Some r) <->
        exists k : nat,
          (k < 3)%nat /\ accepted (net k) = Some r /\
          forall j : nat, (j < k)%nat -> accepted (net j) = None)
    /\ (out = Raise RequestException <->
        forall k : nat, (k < 3)%nat -> accepted (net k) = None)
    /\ out <> Ok None
    /\ (forall (f g : transport_failure) (st : Z) (b : B),
          net 0%nat = Fails f -> net 1%nat = Fails g ->
          net 2%nat = Responds st b -> 200 <= st < 300 ->
          out = Ok (Some (mkResponse st b))).
Proof.
  intros B net out. subst out. rewrite retry_three_unrolled.
  assert (small : forall k : nat, (k < 3)%nat -> k = 0%nat \/ k = 1%nat \/ k = 2%nat)
    by (intros; lia).
  split; [ | split; [ | split ] ].
  - (* a response: the first accepted attempt *)
    intros r. split.
    + intros H.
      destruct (accepted (net 0%nat)) as [r0|] eqn:E0.
      { exists 0%nat. injection H as <-.
        repeat split; [lia | assumption | intros; lia]. }
      destruct (accepted (net 1%nat)) as [r1|] eqn:E1.
      { exists 1%nat. injection H as <-.
        repeat split; [lia | assumption | ].
        intros j Hj. replace j with 0%nat by lia. assumption. }
      destruct (accepted (net 2%nat)) as [r2|] eqn:E2; [ | discriminate ].
      exists 2%nat. injection H as <-.
      repeat split; [lia | assumption | ].
      intros j Hj. assert (j = 0%nat \/ j = 1%nat) as [-> | ->] by lia; assumption.
    + intros [k [Hk [Hr Hj]]].
      destruct (small k Hk) as [-> | [-> | ->]].
      * rewrite Hr. reflexivity.
      * rewrite (Hj 0%nat ltac:(lia)), Hr. reflexivity.
      * rewrite (Hj 0%nat ltac:(lia)), (Hj 1%nat ltac:(lia)), Hr. reflexivity.
  - (* a failure: all three attempts failed *)
    split.
    + intros H k Hk.
      destruct (accepted (net 0%nat)) eqn:E0; [discriminate|].
      destruct (accepted (net 1%nat)) eqn:E1; [discriminate|].
      destruct (accepted (net 2%nat)) eqn:E2; [discriminate|].
      destruct (small k Hk) as [-> | [-> | ->]]; assumption.
    + intros H.
      rewrite (H 0%nat ltac:(lia)), (H 1%nat ltac:(lia)), (H 2%nat ltac:(lia)).
      reflexivity.
  - (* never [None] *)
    destruct (accepted (net 0%nat)); [discriminate|].
    destruct (accepted (net 1%nat)); [discriminate|].
    destruct (accepted (net 2%nat)); discriminate.
  - (* two failures, then a success *)
    intros f g st b H0 H1 H2 Hst. rewrite H0, H1, H2. simpl.
    replace ((400 <=? st) && (st <? 600)) with false; [reflexivity|].
    symmetry. apply andb_false_iff. left. apply Z.leb_gt. lia.
Qed.

(** ** The discovery window *)

Lemma today_utc_is_midnight (now : Z) :
  today_utc now = SECONDS_PER_DAY * (now / SECONDS_PER_DAY)
  /\ today_utc now <= now < today_utc now + SECONDS_PER_DAY.
Proof.
  unfold today_utc, SECONDS_PER_DAY.
  pose proof (Z.div_mod now 86400 ltac:(lia)).
  pose proof (Z.mod_pos_bound now 86400 ltac:(lia)). lia.
Qed.

(** The request carries the filter in the textual form of the script. *)
Lemma discovery_filter_text (now limit : Z) :
  filters_text (numericFilters (discovery_params now limit))
  = "created_at_i>" ++ str_int (yesterday_start now)
    ++ ",created_at_i<" ++ str_int (yesterday_end now).
Proof. reflexivity. Qed.

(** C4: the window the discovery request selects is the open interval
    between [start], the most recent UTC midnight minus 24h, and [end], the
    most recent UTC midnight: a story is admitted exactly when
    [start < created_at_i < end].  A story created exactly at [end] is
    outside, as the claim says, but so is one created exactly at [start],
    which the claim places inside. *)
Theorem discovery_window_is_open :
  forall now t : Z,
    let start_ts := today_utc now - 86400 in
    let end_ts := today_utc now in
    (in_queried_window now t = true <-> start_ts < t < end_ts)
    /\ in_queried_window now start_ts = false
    /\ in_queried_window now end_ts = false.
Proof.
  intros now t start_ts end_ts. subst start_ts end_ts.
  unfold in_queried_window, discovery_params, filters_hold, created_between,
    clause_holds, yesterday_start, yesterday_end, SECONDS_PER_DAY.
  cbn [numericFilters forallb operator bound].
  split; [ split | split ].
  - intros H. apply andb_prop in H as [H1 H2].
    apply andb_prop in H2 as [H2 _].
    apply Z.ltb_lt in H1. apply Z.ltb_lt in H2. lia.
  - intros [H1 H2].
    apply andb_true_intro. split; [apply Z.ltb_lt; lia|].
    apply andb_true_intro. split; [apply Z.ltb_lt; lia|reflexivity].
  - replace (today_utc now - 1 * 86400 <? today_utc now - 86400) with false;
      [reflexivity|]. symmetry. apply Z.ltb_ge. lia.
  - rewrite Z.ltb_irrefl. apply andb_false_r.
Qed.

(** At 2024-01-02T12:00:00Z the request asks for
    [created_at_i>1704067200,created_at_i<1704153600]; a story created at
    2024-01-01T00:00:00Z, the first second of the prior UTC day, does not
    pass. *)
Example discovery_misses_first_second :
  filters_text (numericFilters (discovery_params 1704196800 MAX_POSTS))
  = "created_at_i>1704067200,created_at_i<1704153600"
  /\ in_queried_window 1704196800 1704067200 = false
  /\ in_queried_window 1704196800 1704067201 = true.
Proof. repeat split; vm_compute; reflexivity. Qed.

(** ** The error monad *)

Lemma bind_Ok {A B : Type} (m : result A) (k : A -> result B) (b : B) :
  bind m k = Ok b <-> exists a : A, m = Ok a /\ k a = Ok b.
Proof.
  destruct m as [a | e]; simpl; split.
  - intros H. exists a. split; [reflexivity | assumption].
  - intros [a' [Ha Hk]]. injection Ha as ->. assumption.
  - discriminate.
  - intros [a' [Ha _]]. discriminate.
Qed.

(** Peel one bind, or all binds, of a hypothesis [bind m k = Ok b]. *)
Tactic Notation "bind_inv" hyp(H) "as" ident(a) ident(Ha) :=
  apply bind_Ok in H; destruct H as [a [Ha H]].

Ltac inv_bind H :=
  repeat match type of H with
    | bind ?m ?k = Ok ?b =>
        let a := fresh "a" in
        let Ha := fresh "Hbind" in
        apply bind_Ok in H; destruct H as [a [Ha H]]
    end.

Lemma mapM_Ok_length {A B : Type} (f : A -> result B) (l : list A) (l' : list B) :
  mapM f l = Ok l' -> List.length l' = List.length l.
Proof.
  revert l'. induction l as [| x l IH]; intros l' H; simpl in H.
  - injection H as <-. reflexivity.
  - inv_bind H. injection H as <-. simpl. f_equal. apply IH. assumption.
Qed.

Lemma mapM_Ok_Forall2 {A B : Type} (f : A -> result B) (l : list A) (l' : list B) :
  mapM f l = Ok l' <-> Forall2 (fun x y => f x = Ok y) l l'.
Proof.
  revert l'. induction l as [| x l IH]; intros l'; simpl; split.
  - intros H. injection H as <-. constructor.
  - intros H. inversion H. reflexivity.
  - intros H. inv_bind H. injection H as <-. constructor; [assumption|].
    apply IH. assumption.
  - intros H. inversion H as [| x' y l0 l0' Hxy Hrest]; subst.
    rewrite Hxy. simpl. apply IH in Hrest. rewrite Hrest. reflexivity.
Qed.

(** ** Strings *)

Lemma string_app_assoc (a b c : string) : (a ++ b) ++ c = a ++ (b ++ c).
Proof.
  induction a as [| x a IH]; simpl; [reflexivity|]. rewrite IH. reflexivity.
Qed.

Lemma string_length_app (a b : string) :
  String.length (a ++ b) = (String.length a + String.length b)%nat.
Proof.
  induction a as [| x a IH]; simpl; [reflexivity|]. rewrite IH. reflexivity.
Qed.

Lemma substring_length (n : nat) :
  forall s : string,
    (n <= String.length s)%nat -> String.length (String.substring 0 n s) = n.
Proof.
  induction n as [| n IH]; intros s Hn.
  - destruct s; reflexivity.
  - destruct s as [| c s]; simpl in Hn; [lia|].
    simpl. rewrite IH by lia. reflexivity.
Qed.

Lemma prefix_app (p s : string) : String.prefix p (p ++ s) = true.
Proof.
  induction p as [| c p IH]; simpl.
  - destruct s; reflexivity.
  - destruct (ascii_dec c c) as [_ | Hne]; [assumption | contradiction].
Qed.

Lemma string_app_inv_head (a b c : string) : a ++ b = a ++ c -> b = c.
Proof.
  induction a as [| x a IH]; simpl; intros H; [assumption|].
  injection H as H. apply IH. assumption.
Qed.

Lemma string_app_inv_tail (c : string) :
  forall a b : string, a ++ c = b ++ c -> a = b.
Proof.
  induction a as [| x a IH]; intros b H.
  - destruct b as [| y b]; [reflexivity|].
    apply (f_equal String.length) in H. simpl in H.
    rewrite string_length_app in H. lia.
  - destruct b as [| y b].
    + apply (f_equal String.length) in H. simpl in H.
      rewrite string_length_app in H. lia.
    + simpl in H. injection H as -> H. f_equal. apply IH. assumption.
Qed.

(** [str(n)] tells the integers apart. *)
Lemma str_int_injective (a b : Z) : str_int a = str_int b -> a = b.
Proof.
  unfold str_int. intros H. apply DecimalZ.to_int_inj.
  assert (Hnonnil : forall n : Z,
             Z.to_int n <> Decimal.Pos Decimal.Nil
             /\ Z.to_int n <> Decimal.Neg Decimal.Nil).
  { intros [| p | p]; simpl; split; try discriminate;
      intros Habs; injection Habs as Habs;
      apply (DecimalPos.Unsigned.to_uint_nonnil p); assumption. }
  destruct (Hnonnil a) as [Ha1 Ha2]. destruct (Hnonnil b) as [Hb1 Hb2].
  pose proof (NilZero.isi (Z.to_int a) Ha1 Ha2) as Hia.
  pose proof (NilZero.isi (Z.to_int b) Hb1 Hb2) as Hib.
  rewrite H in Hia. rewrite Hia in Hib. injection Hib as Hib. assumption.
Qed.

(** ** Slices *)

Lemma slice_to_firstn {A : Type} (l : list A) (stop : Z) :
  0 <= stop -> slice_to l stop = firstn (Z.to_nat stop) l.
Proof.
  intros H. unfold slice_to.
  destruct (0 <=? stop) eqn:E; [reflexivity|]. apply Z.leb_gt in E. lia.
Qed.

Lemma slice_to_length {A : Type} (l : list A) (stop : Z) :
  0 <= stop -> Z.of_nat (List.length (slice_to l stop)) <= stop.
Proof.
  intros H. rewrite slice_to_firstn by assumption.
  pose proof (firstn_le_length (Z.to_nat stop) l). rewrite length_firstn. lia.
Qed.

Lemma In_firstn {A : Type} (n : nat) (l : list A) (x : A) :
  In x (firstn n l) -> In x l.
Proof.
  revert l. induction n as [| n IH]; intros [| y l]; simpl; try tauto.
  intros [-> | H]; [left; reflexivity | right; apply IH; assumption].
Qed.

Lemma slice_to_incl {A : Type} (l : list A) (stop : Z) (x : A) :
  In x (slice_to l stop) -> In x l.
Proof.
  unfold slice_to. destruct (0 <=? stop); apply In_firstn.
Qed.

(** ** Comment selection *)

Lemma is_live_comment_sound (item : json) :
  is_live_comment item = Ok true -> live_comment item.
Proof.
  unfold is_live_comment, live_comment, has_type_comment, not_flagged.
  destruct (truthy item); simpl; [ | discriminate ].
  destruct (get item "type") as [t | e] eqn:Et; simpl; [ | discriminate ].
  destruct (eq_str t "comment") eqn:Etype; simpl; [ | discriminate ].
  destruct (get item "deleted") as [d | e] eqn:Ed; simpl; [ | discriminate ].
  destruct (truthy d) eqn:Etd; simpl; [ discriminate | ].
  destruct (get item "dead") as [dd | e] eqn:Edd; simpl; [ | discriminate ].
  destruct (truthy dd) eqn:Etdd; simpl; [ discriminate | ].
  intros _. split; [ | split ].
  - destruct t; simpl in Etype; try discriminate.
    apply String.eqb_eq in Etype. subst. reflexivity.
  - exists d. split; [reflexivity | assumption].
  - exists dd. split; [reflexivity | assumption].
Qed.

Lemma collect_live (done : list (result json)) (comments : list json) :
  collect done = Ok comments ->
  Forall (fun c => is_live_comment c = Ok true) comments.
Proof.
  revert comments. induction done as [| r done IH]; intros comments H; simpl in H.
  - injection H as <-. constructor.
  - bind_inv H as item Hitem. bind_inv H as keep Hkeep.
    bind_inv H as rest Hrest. injection H as <-.
    destruct keep.
    + constructor; [assumption | apply IH; assumption].
    + apply IH. assumption.
Qed.

Lemma insert_by_key_perm {A : Type} (x : (Z * Z) * A) (l : list ((Z * Z) * A)) :
  Permutation (x :: l) (insert_by_key x l).
Proof.
  induction l as [| y l IH]; simpl.
  - apply Permutation_refl.
  - destruct (key_le (fst x) (fst y)).
    + apply Permutation_refl.
    + apply perm_trans with (y :: x :: l); [apply perm_swap|].
      apply perm_skip. assumption.
Qed.

Lemma sort_keyed_perm {A : Type} (l : list ((Z * Z) * A)) :
  Permutation l (sort_keyed l).
Proof.
  induction l as [| x l IH]; simpl.
  - apply perm_nil.
  - apply perm_trans with (x :: sort_keyed l).
    + apply perm_skip. assumption.
    + apply insert_by_key_perm.
Qed.

Lemma mapM_keyed_snd (key : json -> result (Z * Z)) (l : list json)
  (keyed : list ((Z * Z) * json)) :
  mapM (fun c => k <- key c ;; Ok (k, c)) l = Ok keyed -> map snd keyed = l.
Proof.
  revert keyed. induction l as [| c l IH]; intros keyed H; simpl in H.
  - injection H as <-. reflexivity.
  - bind_inv H as kc Hkc. bind_inv H as rest Hrest. injection H as <-.
    bind_inv Hkc as k Hk. injection Hkc as <-.
    simpl. f_equal. apply IH. assumption.
Qed.

Lemma sort_by_key_perm (key : json -> result (Z * Z)) (l l' : list json) :
  sort_by_key key l = Ok l' -> Permutation l l'.
Proof.
  unfold sort_by_key. intros H. bind_inv H as keyed Hkeyed. injection H as <-.
  rewrite <- (mapM_keyed_snd key l keyed) by assumption.
  apply Permutation_map. apply sort_keyed_perm.
Qed.

(** Every item [fetch_top_comments] returns passed the test of the
    collecting loop. *)
Lemma fetch_top_comments_live (E : thread_env) (story_id limit : Z)
  (cs : list json) :
  fetch_top_comments E story_id limit = Ok cs ->
  Forall (fun c => is_live_comment c = Ok true) cs.
Proof.
  unfold fetch_top_comments. intros H. bind_inv H as story Hstory.
  destruct (negb (truthy story)); [injection H as <-; constructor|].
  bind_inv H as kid_ids Hkids.
  destruct (negb (truthy kid_ids)); [injection H as <-; constructor|].
  bind_inv H as batch Hbatch. bind_inv H as comments Hcollect.
  bind_inv H as all_ids Hall. bind_inv H as pm Hpm.
  bind_inv H as sorted Hsorted. injection H as <-.
  apply collect_live in Hcollect.
  apply sort_by_key_perm in Hsorted.
  apply Forall_forall. intros c Hc. apply slice_to_incl in Hc.
  rewrite Forall_forall in Hcollect. apply Hcollect.
  apply Permutation_in with (l := sorted); [apply Permutation_sym|]; assumption.
Qed.

Lemma fetch_top_comments_length (E : thread_env) (story_id limit : Z)
  (cs : list json) :
  0 <= limit ->
  fetch_top_comments E story_id limit = Ok cs ->
  Z.of_nat (List.length cs) <= limit.
Proof.
  unfold fetch_top_comments. intros Hlimit H. bind_inv H as story Hstory.
  destruct (negb (truthy story)); [injection H as <-; simpl; lia|].
  bind_inv H as kid_ids Hkids.
  destruct (negb (truthy kid_ids)); [injection H as <-; simpl; lia|].
  inv_bind H. injection H as <-.
  apply slice_to_length. assumption.
Qed.

(** C2: whatever the item service answers and in whatever order the
    workers complete, a call of [fetch_top_comments] with a limit that is
    not negative (the script's is [MAX_COMMENTS = 5]) returns at most
    [limit] items, and every item returned has type ["comment"] and is
    flagged neither deleted nor dead. *)
Theorem fetch_top_comments_bounded_and_live :
  forall (E : thread_env) (story_id limit : Z) (cs : list json),
    0 <= limit ->
    fetch_top_comments E story_id limit = Ok cs ->
    Z.of_nat (List.length cs) <= limit /\ Forall live_comment cs.
Proof.
  intros E story_id limit cs Hlimit H. split.
  - apply fetch_top_comments_length with (E := E) (story_id := story_id);
      assumption.
  - apply fetch_top_comments_live in H.
    apply Forall_impl with (P := fun c => is_live_comment c = Ok true);
      [ | assumption].
    intros c. apply is_live_comment_sound.
Qed.

(** The witness of C2: the sample thread, with the limit of the script. *)
Lemma fetch_top_comments_bounded_and_live_witness :
  0 <= MAX_COMMENTS
  /\ fetch_top_comments (sample_thread [1; 0; 1]%nat) 100 MAX_COMMENTS
     = Ok [ sample_comment 101 [201; 202; 203]; sample_comment 103 [205; 206; 207];
            sample_comment 102 [204]; sample_comment 104 [] ]
  /\ Z.of_nat 4 <= MAX_COMMENTS
  /\ Forall live_comment
       [ sample_comment 101 [201; 202; 203]; sample_comment 103 [205; 206; 207];
         sample_comment 102 [204]; sample_comment 104 [] ].
Proof.
  assert (Hlimit : 0 <= MAX_COMMENTS) by (unfold MAX_COMMENTS; lia).
  assert (Hrun : fetch_top_comments (sample_thread [1; 0; 1]%nat) 100 MAX_COMMENTS
                 = Ok [ sample_comment 101 [201; 202; 203];
                        sample_comment 103 [205; 206; 207];
                        sample_comment 102 [204]; sample_comment 104 [] ])
    by (vm_compute; reflexivity).
  split; [exact Hlimit | split; [exact Hrun | ]].
  exact (fetch_top_comments_bounded_and_live _ _ _ _ Hlimit Hrun).
Defined.

(** ** The item lookup *)

(** [fetch_item] goes by the first response that is accepted: no response
    and a body that is no JSON document give [None]; what else the decoder
    raises is raised. *)
Lemma fetch_item_first_accepted (firebase : item_service) (item_id : json) :
  fetch_item firebase item_id
  = match first_accepted (firebase item_id) 0 3 with
    | Some resp => item_of_body (payload resp)
    | None => Ok JNull
    end.
Proof.
  unfold fetch_item, returned. rewrite retry_three_unrolled.
  cbn [first_accepted].
  destruct (accepted (firebase item_id 0%nat)) as [r0|];
    [ | destruct (accepted (firebase item_id 1%nat)) as [r1|];
        [ | destruct (accepted (firebase item_id 2%nat)) as [r2|] ] ];
    cbn [bind try_except]; unfold resp_json, item_of_body;
    try (match goal with
         | |- context [payload ?r] => destruct (payload r)
         end);
    reflexivity.
Qed.

(** ** The order of completion *)

Lemma remove_nth_perm {A : Type} (k : nat) (l : list A) (d : A) :
  (k < List.length l)%nat -> Permutation (nth k l d :: remove_nth k l) l.
Proof.
  revert k. induction l as [| x l IH]; intros k Hk; simpl in Hk; [lia|].
  destruct k as [| k]; simpl.
  - apply Permutation_refl.
  - apply perm_trans with (x :: nth k l d :: remove_nth k l);
      [apply perm_swap|].
    apply perm_skip. apply IH. lia.
Qed.

Lemma remove_nth_length {A : Type} (k : nat) (l : list A) :
  (k < List.length l)%nat -> List.length (remove_nth k l) = pred (List.length l).
Proof.
  revert k. induction l as [| x l IH]; intros k Hk; simpl in Hk; [lia|].
  destruct k as [| k]; simpl; [reflexivity|].
  rewrite IH by lia. destruct l; simpl in *; lia.
Qed.

Lemma complete_perm {A : Type} (n : nat) (choices : list nat) (pending : list A) :
  List.length pending = n -> Permutation (complete n choices pending) pending.
Proof.
  revert choices pending. induction n as [| n IH]; intros choices pending Hn.
  - destruct pending; [apply perm_nil | discriminate].
  - destruct pending as [| x pending]; [discriminate|].
    cbn [complete].
    set (k := Nat.modulo (hd 0%nat choices) (List.length (x :: pending))).
    assert (Hk : (k < List.length (x :: pending))%nat).
    { apply Nat.mod_upper_bound. simpl. lia. }
    apply perm_trans with (nth k (x :: pending) x :: remove_nth k (x :: pending)).
    + apply perm_skip. apply IH.
      rewrite remove_nth_length by assumption. rewrite Hn. reflexivity.
    + apply remove_nth_perm. assumption.
Qed.

(** Every future is yielded exactly once, whatever the scheduler does. *)
Lemma as_completed_perm {A : Type} (choices : list nat) (futures : list A) :
  Permutation (as_completed choices futures) futures.
Proof. apply complete_perm. reflexivity. Qed.

(** Every order of the futures is the order of completion under some
    scheduler. *)
Lemma In_remove_nth {A : Type} (x d : A) (l : list A) :
  In x l ->
  exists k : nat,
    (k < List.length l)%nat /\ nth k l d = x
    /\ Permutation (x :: remove_nth k l) l.
Proof.
  induction l as [| y l IH]; intros Hin; [contradiction|].
  destruct Hin as [-> | Hin].
  - exists 0%nat. simpl. split; [lia | split; [reflexivity | apply Permutation_refl]].
  - destruct (IH Hin) as [k [Hk [Hnth Hperm]]]. exists (S k). simpl.
    split; [lia | split; [assumption|]].
    apply perm_trans with (y :: x :: remove_nth k l); [apply perm_swap|].
    apply perm_skip. assumption.
Qed.

Lemma complete_reaches {A : Type} (order : list A) :
  forall pending : list A,
    Permutation pending order ->
    exists choices : list nat,
      complete (List.length pending) choices pending = order.
Proof.
  induction order as [| x order IH]; intros pending Hperm.
  - apply Permutation_sym, Permutation_nil in Hperm. subst.
    exists []. reflexivity.
  - destruct pending as [| p pending].
    { apply Permutation_nil in Hperm. discriminate. }
    assert (Hin : In x (p :: pending)).
    { apply Permutation_in with (l := x :: order);
        [apply Permutation_sym; assumption | left; reflexivity]. }
    destruct (In_remove_nth x p (p :: pending) Hin) as [k [Hk [Hnth Hrest]]].
    destruct (IH (remove_nth k (p :: pending))) as [choices Hchoices].
    { apply Permutation_cons_inv with (a := x).
      apply perm_trans with (p :: pending); assumption. }
    exists (k :: choices).
    rewrite remove_nth_length in Hchoices by assumption.
    change (complete (List.length (p :: pending)) (k :: choices) (p :: pending))
      with (nth (Nat.modulo k (List.length (p :: pending))) (p :: pending) p
            :: complete (List.length pending) choices
                 (remove_nth (Nat.modulo k (List.length (p :: pending)))
                    (p :: pending))).
    rewrite Nat.mod_small by assumption.
    rewrite Hnth. f_equal. exact Hchoices.
Qed.

Lemma as_completed_reaches {A : Type} (futures order : list A) :
  Permutation futures order ->
  exists choices : list nat, as_completed choices futures = order.
Proof. apply complete_reaches. Qed.

(** ** The collecting loop *)

Lemma collect_live_items (done : list (result json)) :
  Forall testable done -> collect done = Ok (live_items done).
Proof.
  induction 1 as [| r done [item [keep [-> Hkeep]]] _ IH]; simpl.
  - reflexivity.
  - rewrite Hkeep, IH. simpl. destruct keep; reflexivity.
Qed.

Lemma live_items_perm (l l' : list (result json)) :
  Permutation l l' -> Permutation (live_items l) (live_items l').
Proof. apply Permutation_flat_map. Qed.

(** ** Positions *)

Lemma position_fold_absent (id : Z) (l : list Z) (i found : Z) :
  ~ In id l ->
  fold_left (fun found item => if key_eqb (fst item) (JNum id) then snd item else found)
    (enumerate_from i (map JNum l)) found = found.
Proof.
  revert i found. induction l as [| x l IH]; intros i found Hin; simpl.
  - reflexivity.
  - destruct (x =? id) eqn:E.
    + apply Z.eqb_eq in E. exfalso. apply Hin. left. assumption.
    + apply IH. intros H. apply Hin. right. assumption.
Qed.

Lemma position_fold_found (id : Z) (l : list Z) (k : nat) (i found : Z) :
  NoDup l -> nth_error l k = Some id ->
  fold_left (fun found item => if key_eqb (fst item) (JNum id) then snd item else found)
    (enumerate_from i (map JNum l)) found = i + Z.of_nat k.
Proof.
  revert k i found. induction l as [| x l IH]; intros k i found Hnd Hk.
  - destruct k; discriminate.
  - inversion Hnd as [| x' l' Hx Hnd']; subst. destruct k as [| k]; simpl in *.
    + injection Hk as ->. rewrite Z.eqb_refl.
      rewrite position_fold_absent by assumption. lia.
    + rewrite (IH k (i + 1)) by assumption. lia.
Qed.

Lemma index_of_nth (id : Z) (l : list Z) (k : nat) :
  NoDup l -> nth_error l k = Some id -> index_of id l = Z.of_nat k.
Proof.
  revert k. induction l as [| x l IH]; intros k Hnd Hk.
  - destruct k; discriminate.
  - inversion Hnd as [| x' l' Hx Hnd']; subst.
    destruct k as [| k]; simpl in Hk; cbn [index_of].
    + injection Hk as ->. rewrite Z.eqb_refl. reflexivity.
    + destruct (id =? x) eqn:E.
      * apply Z.eqb_eq in E. subst. exfalso. apply Hx.
        apply nth_error_In with (n := k). assumption.
      * rewrite (IH k) by assumption. lia.
Qed.

Lemma position_map_of_integers (ids : list Z) :
  position_map (map JNum ids) = Ok (enumerate_from 0 (map JNum ids)).
Proof.
  unfold position_map.
  replace (forallb hashable (map JNum ids)) with true; [reflexivity|].
  symmetry. apply forallb_forall. intros v Hv.
  apply in_map_iff in Hv as [id [<- _]]. reflexivity.
Qed.

(** On a documented candidate the sort key of the script is the key of the
    ranking rule. *)
Lemma sort_key_documented (ids : list Z) (c : json) :
  NoDup ids -> documented_candidate ids c ->
  sort_key (enumerate_from 0 (map JNum ids)) c = Ok (rank_key ids c).
Proof.
  intros Hnd [k [id [replies [Hk [Hid Hkids]]]]].
  unfold sort_key, rank_key, reply_count, original_position, position_get.
  rewrite Hkids, Hid. simpl.
  rewrite (position_fold_found id ids k) by assumption.
  rewrite (index_of_nth id ids k) by assumption. reflexivity.
Qed.

(** ** The stable sort *)

Lemma key_le_total (a b : Z * Z) : key_le a b = false -> key_le b a = true.
Proof.
  unfold key_le. destruct a as [a1 a2], b as [b1 b2]; simpl.
  intros H. apply orb_false_iff in H as [H1 H2]. apply Z.ltb_ge in H1.
  destruct (b1 <? a1) eqn:E; [reflexivity|]. apply Z.ltb_ge in E.
  assert (a1 = b1) by lia. subst.
  rewrite Z.eqb_refl in *. simpl in *. apply Z.leb_gt in H2.
  apply Z.leb_le. lia.
Qed.

Lemma key_le_spec (a b : Z * Z) :
  key_le a b = true <-> fst a < fst b \/ (fst a = fst b /\ snd a <= snd b).
Proof.
  unfold key_le. rewrite orb_true_iff, andb_true_iff, Z.ltb_lt, Z.eqb_eq, Z.leb_le.
  reflexivity.
Qed.

Lemma key_le_trans (a b c : Z * Z) :
  key_le a b = true -> key_le b c = true -> key_le a c = true.
Proof. rewrite !key_le_spec. lia. Qed.

Lemma key_le_antisym (a b : Z * Z) :
  key_le a b = true -> key_le b a = true -> a = b.
Proof.
  rewrite !key_le_spec. destruct a, b; simpl. intros H1 H2.
  f_equal; lia.
Qed.

Lemma insert_by_key_In {A : Type} (x y : (Z * Z) * A) (l : list ((Z * Z) * A)) :
  In y (insert_by_key x l) -> y = x \/ In y l.
Proof.
  intros H. apply Permutation_in with (l' := x :: l) in H.
  - destruct H as [-> | H]; [left; reflexivity | right; assumption].
  - apply Permutation_sym. apply insert_by_key_perm.
Qed.

Lemma insert_by_key_sorted {A : Type} (x : (Z * Z) * A) (l : list ((Z * Z) * A)) :
  StronglySorted keyed_le l -> StronglySorted keyed_le (insert_by_key x l).
Proof.
  induction 1 as [| y l Hsorted IH Hy]; simpl.
  - constructor; constructor.
  - destruct (key_le (fst x) (fst y)) eqn:E.
    + constructor; [constructor; assumption|].
      constructor; [exact E|].
      apply Forall_impl with (P := keyed_le y); [ | assumption].
      intros z Hz. unfold keyed_le in *. apply key_le_trans with (b := fst y); assumption.
    + constructor; [assumption|].
      apply Forall_forall. intros z Hz. apply insert_by_key_In in Hz as [-> | Hz].
      * apply key_le_total. assumption.
      * rewrite Forall_forall in Hy. apply Hy. assumption.
Qed.

Lemma sort_keyed_sorted {A : Type} (l : list ((Z * Z) * A)) :
  StronglySorted keyed_le (sort_keyed l).
Proof.
  induction l as [| x l IH]; simpl.
  - constructor.
  - apply insert_by_key_sorted. assumption.
Qed.

(** Two sorted arrangements of the same elements are the same list when
    the order cannot tie. *)
Lemma sorted_perm_unique {A : Type} (R : A -> A -> Prop) (l1 l2 : list A) :
  (forall x y, In x l1 -> In y l1 -> R x y -> R y x -> x = y) ->
  StronglySorted R l1 -> StronglySorted R l2 -> Permutation l1 l2 -> l1 = l2.
Proof.
  revert l2. induction l1 as [| x l1 IH]; intros l2 Hanti H1 H2 Hperm.
  - apply Permutation_nil in Hperm. subst. reflexivity.
  - destruct l2 as [| y l2].
    { apply Permutation_sym, Permutation_nil in Hperm. discriminate. }
    inversion H1 as [| x' l1' Hs1 Hx]; subst.
    inversion H2 as [| y' l2' Hs2 Hy]; subst.
    rewrite Forall_forall in Hx, Hy.
    assert (Hxy : x = y).
    { assert (Hx2 : In x (y :: l2))
        by (apply Permutation_in with (l := x :: l1); [assumption | left; reflexivity]).
      assert (Hy1 : In y (x :: l1))
        by (apply Permutation_in with (l := y :: l2);
            [apply Permutation_sym; assumption | left; reflexivity]).
      destruct Hx2 as [-> | Hx2]; [reflexivity|].
      destruct Hy1 as [-> | Hy1]; [reflexivity|].
      apply Hanti; [left; reflexivity | right; assumption | apply Hx; assumption
                   | apply Hy; assumption]. }
    subst y. f_equal. apply IH.
    + intros a b Ha Hb. apply Hanti; right; assumption.
    + assumption.
    + assumption.
    + apply Permutation_cons_inv with (a := x). assumption.
Qed.

Lemma NoDup_map_injective {A B : Type} (f : A -> B) (l : list A) (x y : A) :
  NoDup (map f l) -> In x l -> In y l -> f x = f y -> x = y.
Proof.
  induction l as [| a l IH]; intros Hnd Hx Hy Hf; [contradiction|].
  simpl in Hnd. inversion Hnd as [| b l' Ha Hnd']; subst.
  destruct Hx as [-> | Hx], Hy as [-> | Hy].
  - reflexivity.
  - exfalso. apply Ha. rewrite Hf. apply in_map. assumption.
  - exfalso. apply Ha. rewrite <- Hf. apply in_map. assumption.
  - apply IH; assumption.
Qed.

(** ** The ranking of the candidates *)

Lemma submit_from_reschedule (E : thread_env) (choices : list nat) (slot : nat)
  (batch_ids : list json) :
  submit_from (reschedule E choices) slot batch_ids = submit_from E slot batch_ids.
Proof.
  revert slot. induction batch_ids as [| cid l IH]; intros slot; simpl.
  - reflexivity.
  - rewrite IH. reflexivity.
Qed.

Lemma nth_error_firstn_Some {A : Type} (n j : nat) (l : list A) (x : A) :
  nth_error (firstn n l) j = Some x -> nth_error l j = Some x.
Proof.
  revert j l. induction n as [| n IH]; intros j l H.
  - destruct j; discriminate.
  - destruct l as [| y l]; [destruct j; discriminate|].
    destruct j as [| j]; simpl in *; [assumption | apply IH; assumption].
Qed.

Section Candidates.

Variable E : thread_env.
Variable ids : list Z.

Hypothesis ids_distinct : NoDup ids.

Hypothesis answers_documented :
  forall (k : nat) (id : Z),
    nth_error ids k = Some id ->
    exists item : json,
      fetch_item (kid_service E k) (JNum id) = Ok item
      /\ (is_live_comment item = Ok false
          \/ (is_live_comment item = Ok true
              /\ getitem item "id" = Ok (JNum id)
              /\ exists replies : list json,
                   get_default item "kids" (JArr []) = Ok (JArr replies))).

Lemma aligned_tail (slot : nat) (id : Z) (l : list Z) :
  aligned ids slot (id :: l) -> aligned ids (S slot) l.
Proof.
  intros H j id' Hj. replace (S slot + j)%nat with (slot + S j)%nat by lia.
  apply H. assumption.
Qed.

Lemma answers_testable (slot : nat) (l : list Z) :
  aligned ids slot l -> Forall testable (submit_from E slot (map JNum l)).
Proof.
  revert slot. induction l as [| id l IH]; intros slot Hal; simpl.
  - constructor.
  - constructor; [ | apply IH; apply aligned_tail with (id := id); assumption].
    assert (Hk : nth_error ids slot = Some id).
    { replace slot with (slot + 0)%nat by lia. apply Hal. reflexivity. }
    destruct (answers_documented slot id Hk)
      as [item [Hitem [Hlive | [Hlive _]]]];
      exists item; eexists; split; eassumption.
Qed.

(** The candidates are documented, and they come in the order of their
    original positions. *)
Lemma candidates_in_position_order (slot : nat) (l : list Z) :
  aligned ids slot l ->
  let candidates := live_items (submit_from E slot (map JNum l)) in
  Forall (fun c => documented_candidate ids c
                   /\ Z.of_nat slot <= original_position ids c) candidates
  /\ NoDup (map (original_position ids) candidates).
Proof.
  revert slot. induction l as [| id l IH]; intros slot Hal; simpl.
  - split; constructor.
  - destruct (IH (S slot) (aligned_tail slot id l Hal)) as [Hdoc Hnd].
    assert (Hweaker :
      Forall (fun c => documented_candidate ids c
                       /\ Z.of_nat slot <= original_position ids c)
        (live_items (submit_from E (S slot) (map JNum l)))).
    { apply Forall_impl with (2 := Hdoc). intros c [Hc Hpos]. split; [assumption|lia]. }
    assert (Hk : nth_error ids slot = Some id).
    { replace slot with (slot + 0)%nat by lia. apply Hal. reflexivity. }
    destruct (answers_documented slot id Hk)
      as [item [Hitem [Hlive | [Hlive [Hid [replies Hkids]]]]]];
      rewrite Hitem, Hlive; simpl.
    + split; assumption.
    + assert (Hpos : original_position ids item = Z.of_nat slot).
      { unfold original_position. rewrite Hid.
        apply index_of_nth; assumption. }
      split.
      * constructor; [ | assumption]. split; [ | lia].
        exists slot, id, replies. repeat split; assumption.
      * constructor; [ | assumption]. rewrite Hpos. intros Hin.
        apply in_map_iff in Hin as [c [Hc Hin]].
        rewrite Forall_forall in Hdoc. destruct (Hdoc c Hin) as [_ Hge]. lia.
Qed.

End Candidates.

Lemma mapM_keyed_total (key : json -> result (Z * Z)) (g : json -> Z * Z)
  (l : list json) :
  Forall (fun c => key c = Ok (g c)) l ->
  mapM (fun c => k <- key c ;; Ok (k, c)) l = Ok (map (fun c => (g c, c)) l).
Proof.
  induction 1 as [| c l Hc _ IH]; simpl.
  - reflexivity.
  - rewrite Hc. simpl. rewrite IH. reflexivity.
Qed.

Lemma map_snd_keyed {A K : Type} (g : A -> K) (l : list A) :
  map snd (map (fun c => (g c, c)) l) = l.
Proof.
  induction l as [| x l IH]; simpl; [reflexivity | rewrite IH; reflexivity].
Qed.

Lemma rank_perm (ids : list Z) (l : list json) : Permutation (rank ids l) l.
Proof.
  unfold rank.
  rewrite <- (map_snd_keyed (rank_key ids) l) at 2.
  apply Permutation_map. apply Permutation_sym. apply sort_keyed_perm.
Qed.

(** The ranking does not depend on the order in which the candidates
    arrive, as long as no two of them share a position. *)
Lemma rank_order_independent (ids : list Z) (l l' : list json) :
  NoDup (map (original_position ids) l) ->
  Permutation l' l -> rank ids l' = rank ids l.
Proof.
  intros Hnd Hperm. unfold rank. f_equal.
  set (keyed := fun c : json => (rank_key ids c, c)).
  assert (Hp : Permutation (sort_keyed (map keyed l')) (sort_keyed (map keyed l))).
  { apply perm_trans with (map keyed l'); [apply Permutation_sym, sort_keyed_perm|].
    apply perm_trans with (map keyed l); [ | apply sort_keyed_perm].
    apply Permutation_map. assumption. }
  apply sorted_perm_unique with (R := keyed_le);
    [ | apply sort_keyed_sorted | apply sort_keyed_sorted | assumption ].
  intros x y Hx Hy Hxy Hyx.
  assert (Hin : forall z, In z (sort_keyed (map keyed l')) ->
                          exists c, z = keyed c /\ In c l).
  { intros z Hz.
    apply Permutation_in with (l' := map keyed l') in Hz;
      [ | apply Permutation_sym, sort_keyed_perm ].
    apply in_map_iff in Hz as [c [<- Hc]]. exists c. split; [reflexivity|].
    apply Permutation_in with (l := l'); assumption. }
  destruct (Hin x Hx) as [cx [-> Hcx]]. destruct (Hin y Hy) as [cy [-> Hcy]].
  unfold keyed_le, keyed in Hxy, Hyx. simpl in Hxy, Hyx.
  assert (Hkey : rank_key ids cx = rank_key ids cy)
    by (apply key_le_antisym; assumption).
  assert (cx = cy).
  { apply NoDup_map_injective with (f := original_position ids) (l := l);
      try assumption.
    unfold rank_key in Hkey. congruence. }
  subst. reflexivity.
Qed.

(** The ranked candidates obey the ranking rule, strictly. *)
Lemma rank_sorted (ids : list Z) (l : list json) :
  NoDup (map (original_position ids) l) ->
  StronglySorted (ranks_before ids) (rank ids l).
Proof.
  intros Hnd.
  assert (Hnd' : NoDup (map (original_position ids) (rank ids l))).
  { apply Permutation_NoDup with (l := map (original_position ids) l);
      [ | assumption]. apply Permutation_map, Permutation_sym, rank_perm. }
  assert (Hsorted : StronglySorted
            (fun a b => key_le (rank_key ids a) (rank_key ids b) = true)
            (rank ids l)).
  { unfold rank.
    pose proof (sort_keyed_sorted (map (fun c => (rank_key ids c, c)) l)) as Hs.
    assert (Hall : Forall (fun p => fst p = rank_key ids (snd p))
                     (sort_keyed (map (fun c => (rank_key ids c, c)) l))).
    { apply Forall_forall. intros p Hp.
      apply Permutation_in with (l' := map (fun c => (rank_key ids c, c)) l) in Hp;
        [ | apply Permutation_sym, sort_keyed_perm ].
      apply in_map_iff in Hp as [c [<- _]]. reflexivity. }
    induction Hs as [| p ps Hps IH Hp]; simpl; constructor.
    - apply IH. inversion Hall; assumption.
    - inversion Hall as [| p' ps' Hfst Hrest]; subst.
      apply Forall_forall. intros c Hc. apply in_map_iff in Hc as [r [<- Hr]].
      rewrite Forall_forall in Hp, Hrest.
      specialize (Hp r Hr). specialize (Hrest r Hr).
      unfold keyed_le in Hp. rewrite Hfst, Hrest in Hp. assumption. }
  induction Hsorted as [| a cs Hcs IH Ha]; constructor.
  - apply IH. inversion Hnd'; assumption.
  - simpl in Hnd'. inversion Hnd' as [| pa pcs Hnotin Hndcs]; subst.
    apply Forall_forall. intros b Hb. rewrite Forall_forall in Ha.
    specialize (Ha b Hb). apply key_le_spec in Ha. unfold rank_key in Ha.
    simpl in Ha.
    assert (Hne : original_position ids a <> original_position ids b).
    { intros Heq. apply Hnotin. rewrite Heq. apply in_map. assumption. }
    unfold ranks_before. lia.
Qed.

Lemma Forall_perm {A : Type} (P : A -> Prop) (l l' : list A) :
  Permutation l l' -> Forall P l -> Forall P l'.
Proof.
  intros Hperm H. apply Forall_forall. intros x Hx.
  rewrite Forall_forall in H. apply H.
  apply Permutation_in with (l := l'); [apply Permutation_sym|]; assumption.
Qed.

(** The ranking of a documented thread: the candidates of the batch, in
    ranking order, cut at the limit. *)
Lemma fetch_top_comments_rank :
  forall (E : thread_env) (story_id limit : Z) (ids : list Z),
    0 <= limit ->
    well_formed_thread E story_id ids ->
    let candidates :=
      live_items
        (submit_from E 0 (map JNum (firstn (Z.to_nat (limit + 10)) ids))) in
    StronglySorted (ranks_before ids) (rank ids candidates)
    /\ forall choices : list nat,
         fetch_top_comments (reschedule E choices) story_id limit
         = Ok (firstn (Z.to_nat limit) (rank ids candidates)).
Proof.
  intros E story_id limit ids Hlimit [Hnd [[m [Hstory Hkids]] Hdoc]].
  set (batch := firstn (Z.to_nat (limit + 10)) ids).
  set (candidates := live_items (submit_from E 0 (map JNum batch))).
  cbv zeta.
  assert (Hal : aligned ids 0 batch).
  { intros j id Hj. simpl. apply nth_error_firstn_Some with (n := Z.to_nat (limit + 10)).
    assumption. }
  destruct (candidates_in_position_order E ids Hnd Hdoc 0 batch Hal)
    as [Hcands Hpos].
  fold candidates in Hcands, Hpos.
  split; [apply rank_sorted; assumption|].
  intros choices. unfold fetch_top_comments.
  cbn [story_service reschedule]. rewrite Hstory. cbn [bind].
  assert (Htruthy : truthy (JObj m) = true).
  { destruct m; [discriminate Hkids | reflexivity]. }
  rewrite Htruthy. cbn [negb].
  unfold get_default. rewrite Hkids. cbn [bind].
  assert (Hcase : ids = [] \/ truthy (JArr (map JNum ids)) = true)
    by (destruct ids; [left | right]; reflexivity).
  destruct Hcase as [Hempty | Hsome].
  { (* no replies *)
    subst batch candidates. rewrite Hempty.
    rewrite firstn_nil. unfold rank, live_items. simpl.
    rewrite firstn_nil. reflexivity. }
  rewrite Hsome. cbn [negb].
  unfold slice_elements, elements. cbn [bind].
  rewrite slice_to_firstn by lia. rewrite firstn_map. fold batch.
  rewrite submit_from_reschedule. cbn [completion reschedule].
  set (futures := submit_from E 0 (map JNum batch)).
  pose proof (as_completed_perm choices futures) as Hperm.
  assert (Htest : Forall testable (as_completed choices futures)).
  { apply Forall_perm with (l := futures);
      [apply Permutation_sym; assumption|].
    apply answers_testable with (ids := ids); assumption. }
  rewrite (collect_live_items _ Htest). cbn [bind].
  rewrite position_map_of_integers. cbn [bind].
  set (comments := live_items (as_completed choices futures)).
  assert (Hcperm : Permutation comments candidates)
    by (apply live_items_perm; assumption).
  unfold sort_by_key.
  rewrite (mapM_keyed_total _ (rank_key ids) comments).
  - cbn [bind]. fold (rank ids comments).
    rewrite (rank_order_independent ids candidates comments Hpos Hcperm).
    rewrite slice_to_firstn by assumption. reflexivity.
  - apply Forall_perm with (l := candidates);
      [apply Permutation_sym; assumption|].
    apply Forall_impl with (2 := Hcands). intros c [Hc _].
    apply sort_key_documented; assumption.
Qed.

Lemma fetch_top_comments_ranked :
  forall (E : thread_env) (story_id limit : Z) (ids : list Z),
    0 <= limit ->
    well_formed_thread E story_id ids ->
    exists ranked : list json,
      Permutation ranked
        (live_items
           (submit_from E 0 (map JNum (firstn (Z.to_nat (limit + 10)) ids))))
      /\ StronglySorted (ranks_before ids) ranked
      /\ forall choices : list nat,
           fetch_top_comments (reschedule E choices) story_id limit
           = Ok (firstn (Z.to_nat limit) ranked).
Proof.
  intros E story_id limit ids Hlimit Hwf.
  destruct (fetch_top_comments_rank E story_id limit ids Hlimit Hwf)
    as [Hsorted Hall].
  eexists. split; [apply rank_perm|]. split; [exact Hsorted | exact Hall].
Qed.

(** C3: in a thread as the item service documents it, the comments
    returned are the kept candidates of the batch ordered by descending
    count of their own reply identifiers, ties broken by ascending
    original position in the story's list of reply identifiers, truncated
    to [limit]; the result is the same for every order in which the
    fetches complete. *)
Theorem comments_ranked_by_replies_then_position :
  forall (E : thread_env) (story_id limit : Z) (ids : list Z),
    0 <= limit ->
    well_formed_thread E story_id ids ->
    exists ranked : list json,
      Permutation ranked
        (live_items
           (submit_from E 0 (map JNum (firstn (Z.to_nat (limit + 10)) ids))))
      /\ StronglySorted (ranks_before ids) ranked
      /\ forall choices : list nat,
           fetch_top_comments (reschedule E choices) story_id limit
           = Ok (firstn (Z.to_nat limit) ranked).
Proof. exact fetch_top_comments_ranked. Qed.

(** The witness of C3 is the example of the claim: candidates with the
    reply counts 3, 1, 3, 0 at the positions 0, 1, 2, 3; the top two are
    the candidate at position 0 and then the one at position 2, for every
    order of completion. *)
Lemma comments_ranked_by_replies_then_position_witness :
  0 <= 2
  /\ well_formed_thread (sample_thread []) 100 [101; 102; 103; 104]
  /\ forall choices : list nat,
       fetch_top_comments (sample_thread choices) 100 2
       = Ok [ sample_comment 101 [201; 202; 203];
              sample_comment 103 [205; 206; 207] ].
Proof.
  assert (Hlimit : 0 <= 2) by lia.
  assert (Hwf : well_formed_thread (sample_thread []) 100 [101; 102; 103; 104]).
  { split; [ | split ].
    - repeat constructor; simpl; intuition discriminate.
    - eexists. split; [vm_compute; reflexivity | reflexivity].
    - intros k id Hk.
      do 4 (destruct k as [| k];
            [ simpl in Hk; injection Hk as <-;
              eexists; split; [vm_compute; reflexivity|];
              right; split; [reflexivity|]; split; [reflexivity|];
              eexists; reflexivity
            | ]).
      simpl in Hk. destruct k; discriminate. }
  split; [exact Hlimit | split; [exact Hwf | ]].
  destruct (comments_ranked_by_replies_then_position
              (sample_thread []) 100 2 [101; 102; 103; 104] Hlimit Hwf)
    as [ranked [_ [_ Hall]]].
  intros choices.
  change (sample_thread choices) with (reschedule (sample_thread []) choices).
  rewrite Hall. rewrite <- (Hall []).
  vm_compute. reflexivity.
Defined.

(** ** The images of an article *)

Lemma node_induction (P : node -> Prop) :
  (forall s, P (Text s)) ->
  (forall name attrs children, Forall P children -> P (Element name attrs children)) ->
  forall n, P n.
Proof.
  intros HT HE.
  refine (fix IH (n : node) : P n :=
            match n with
            | Text s => HT s
            | Element name attrs children =>
                HE name attrs children
                  ((fix all (l : list node) : Forall P l :=
                      match l with
                      | [] => Forall_nil P
                      | c :: l' => Forall_cons c (IH c) (all l')
                      end) children)
            end).
Qed.

Lemma attr_get_set (k v : string) (attrs : list (string * string)) :
  attr_get k (attr_set k v attrs) = Some v.
Proof.
  induction attrs as [| [k' v'] attrs IH]; simpl.
  - rewrite String.eqb_refl. reflexivity.
  - destruct (String.eqb k k') eqn:E; simpl.
    + rewrite String.eqb_refl. reflexivity.
    + rewrite E. assumption.
Qed.

Lemma rewrite_src_spec (urljoin : string -> string -> result string)
  (url : string) (attrs attrs' : list (string * string)) :
  rewrite_src urljoin url attrs = Ok attrs' ->
  image_rewritten urljoin url attrs attrs'.
Proof.
  unfold rewrite_src, image_rewritten, kept_src.
  destruct (attr_get "src" attrs) as [src |]; [ | intros H; injection H as <-; reflexivity].
  destruct (String.eqb src ""), (startswith src "http://"),
    (startswith src "https://"), (startswith src "data:"); simpl;
    try (intros H; injection H as <-; reflexivity).
  intros H. bind_inv H as new_src Hjoin. injection H as <-.
  exists new_src. split; [assumption | split; [reflexivity | apply attr_get_set]].
Qed.

Lemma Forall2_flat_map {A B : Type} (R : B -> B -> Prop) (f : A -> list B)
  (l l' : list A) :
  Forall2 (fun x y => Forall2 R (f x) (f y)) l l' ->
  Forall2 R (flat_map f l) (flat_map f l').
Proof.
  induction 1 as [| x y l l' Hxy _ IH]; simpl.
  - constructor.
  - apply Forall2_app; assumption.
Qed.

Section Images.

Variable urljoin : string -> string -> result string.
Variable url : string.

(** The loop over the images changes the attributes of each [img] tag as
    [image_rewritten] says, and nothing else. *)
Lemma rewrite_images_spec (n : node) :
  forall n' : node,
    rewrite_images urljoin url n = Ok n' ->
    Forall2 (image_rewritten urljoin url) (images n) (images n')
    /\ without_image_attrs n' = without_image_attrs n.
Proof.
  induction n as [s | name attrs children IH] using node_induction;
    intros n' H; simpl in H.
  - injection H as <-. split; [constructor | reflexivity].
  - bind_inv H as attrs' Hattrs. bind_inv H as children' Hchildren.
    injection H as <-.
    apply mapM_Ok_Forall2 in Hchildren.
    assert (Hboth :
      Forall2 (fun c c' =>
                 Forall2 (image_rewritten urljoin url) (images c) (images c')
                 /\ without_image_attrs c' = without_image_attrs c)
        children children').
    { clear Hattrs. induction Hchildren as [| c c' l l' Hc _ IHl].
      - constructor.
      - inversion IH as [| c0 l0 Hc0 Hl0]; subst.
        constructor; [apply Hc0; assumption | apply IHl; assumption]. }
    split.
    + simpl. apply Forall2_app.
      * destruct (String.eqb name "img").
        -- constructor; [apply rewrite_src_spec; assumption | constructor].
        -- constructor.
      * apply Forall2_flat_map.
        apply Forall2_impl with (2 := Hboth). intros c c' [Hc _]. exact Hc.
    + simpl. f_equal.
      * destruct (String.eqb name "img"); [reflexivity|].
        injection Hattrs as <-. reflexivity.
      * clear -Hboth. induction Hboth as [| c c' l l' [_ Hc] _ IHl]; simpl.
        -- reflexivity.
        -- rewrite Hc, IHl. reflexivity.
Qed.

Lemma rewrite_all_images_spec (soup soup' : list node) :
  rewrite_all_images urljoin url soup = Ok soup' ->
  Forall2 (image_rewritten urljoin url) (images_of soup) (images_of soup')
  /\ map without_image_attrs soup' = map without_image_attrs soup.
Proof.
  unfold rewrite_all_images, images_of. intros H.
  apply mapM_Ok_Forall2 in H.
  induction H as [| n n' l l' Hn _ IH]; simpl.
  - split; [constructor | reflexivity].
  - destruct (rewrite_images_spec n n' Hn) as [Himg Hrest].
    destruct IH as [IHimg IHrest]. split.
    + apply Forall2_app; assumption.
    + rewrite Hrest, IHrest. reflexivity.
Qed.

End Images.

(** One guarded [requests.get], seen through [accepted]. *)
Lemma request_accepted {B : Type} (a : attempt B) :
  (resp <- requests_get a ;; _ <- raise_for_status resp ;; Ok resp)
  = match accepted a with
    | Some r => Ok r
    | None => Raise RequestException
    end.
Proof.
  unfold accepted, requests_get, raise_for_status.
  destruct a as [st b | f]; simpl; [ | reflexivity ].
  destruct ((400 <=? st) && (st <? 600)); reflexivity.
Qed.

(** What a successful [fetch_article] went through. *)
Lemma fetch_article_soup_Some (L : Library) (web : string -> attempt string)
  (url : json) (soup' : list node) :
  fetch_article_soup L web url = Ok (Some soup') ->
  exists (u : string) (resp : response string) (summary_html : string),
    url = JStr u
    /\ accepted (web u) = Some resp
    /\ summary L (payload resp) = Ok summary_html
    /\ rewrite_all_images (urljoin L) u
         (decompose_all ["script"; "style"; "iframe"]
            (BeautifulSoup L summary_html))
       = Ok soup'.
Proof.
  unfold fetch_article_soup.
  destruct (negb (truthy url)); [discriminate|].
  destruct url as [| b | n | u | l | m]; try discriminate.
  rewrite request_accepted.
  destruct (accepted (web u)) as [resp |] eqn:Hacc; [ | simpl; discriminate].
  destruct (summary L (payload resp)) as [summary_html | e] eqn:Esum.
  - intros H. bind_inv H as soup Hsoup. injection H as <-.
    exists u, resp, summary_html.
    split; [reflexivity | split; [assumption | split; [assumption | assumption]]].
  - destruct (is_Exception e); discriminate.
Qed.

(** C7, as stated, fails on an image whose [src] is empty: it is no
    absolute HTTP(S) or data URI, its resolution against the page URL is
    the page URL, and the loop leaves it empty. *)
Lemma empty_src_is_left_unresolved :
  rewrite_all_images urllib_urljoin "https://ex.com/post"
    [Element "img" [("src", "")] []]
  = Ok [Element "img" [("src", "")] []]
  /\ urllib_urljoin "https://ex.com/post" "" = Ok "https://ex.com/post".
Proof. split; vm_compute; reflexivity. Qed.

(** C7, amended: in a successfully extracted article, the [img] tags are
    those of the parsed fragment (once [script], [style] and [iframe] are
    gone), in the same order, and nothing but their [src] differs: a [src]
    that is not empty and starts with none of [http://], [https://] and
    [data:] is replaced by [urljoin(url, src)]; an empty [src] and one that
    starts with one of the three prefixes are left unchanged. *)
Theorem article_image_sources_are_joined :
  forall (L : Library) (web : string -> attempt string) (url : string)
         (soup' : list node),
    fetch_article_soup L web (JStr url) = Ok (Some soup') ->
    exists (resp : response string) (summary_html : string),
      accepted (web url) = Some resp
      /\ summary L (payload resp) = Ok summary_html
      /\ fetch_article L web (JStr url) = Ok (Some (soup_str L soup'))
      /\ let soup := decompose_all ["script"; "style"; "iframe"]
                       (BeautifulSoup L summary_html) in
         Forall2 (image_rewritten (urljoin L) url) (images_of soup) (images_of soup')
         /\ map without_image_attrs soup' = map without_image_attrs soup.
Proof.
  intros L web url soup' H.
  destruct (fetch_article_soup_Some L web (JStr url) soup' H)
    as [u [resp [summary_html [Hu [Hresp [Hsum Hrw]]]]]].
  injection Hu as <-.
  exists resp, summary_html. split; [assumption|]. split; [assumption|].
  split.
  - unfold fetch_article. rewrite H. reflexivity.
  - apply rewrite_all_images_spec. assumption.
Qed.

(** The witness of C7 is the example of the claim: on the page
    [https://ex.com/post], the source [/img/a.png] becomes
    [https://ex.com/img/a.png], and [https://x.com/a.png] and the [data:]
    URI stay. *)
Lemma article_image_sources_are_joined_witness :
  fetch_article_soup (sample_library sample_soup) sample_web
    (JStr "https://ex.com/post")
  = Ok (Some
          [ Element "html" []
              [ Element "body" []
                  [ Element "p" [] [Text "Hello"];
                    Element "img"
                      [("alt", "a"); ("src", "https://ex.com/img/a.png")] [];
                    Element "img" [("src", "https://x.com/a.png")] [];
                    Element "img" [("src", "data:image/png;base64,AAAA")] [] ] ] ])
  /\ exists (resp : response string) (summary_html : string) (soup' : list node),
       accepted (sample_web "https://ex.com/post") = Some resp
       /\ summary (sample_library sample_soup) (payload resp) = Ok summary_html
       /\ fetch_article (sample_library sample_soup) sample_web
            (JStr "https://ex.com/post")
          = Ok (Some (soup_str (sample_library sample_soup) soup'))
       /\ images_of soup'
          = [ [("alt", "a"); ("src", "https://ex.com/img/a.png")];
              [("src", "https://x.com/a.png")];
              [("src", "data:image/png;base64,AAAA")] ].
Proof.
  assert (Hrun :
    fetch_article_soup (sample_library sample_soup) sample_web
      (JStr "https://ex.com/post")
    = Ok (Some
            [ Element "html" []
                [ Element "body" []
                    [ Element "p" [] [Text "Hello"];
                      Element "img"
                        [("alt", "a"); ("src", "https://ex.com/img/a.png")] [];
                      Element "img" [("src", "https://x.com/a.png")] [];
                      Element "img" [("src", "data:image/png;base64,AAAA")] [] ] ] ]))
    by (vm_compute; reflexivity).
  split; [exact Hrun|].
  destruct (article_image_sources_are_joined _ _ _ _ Hrun)
    as [resp [summary_html [Hresp [Hsum [Hfetch _]]]]].
  exists resp, summary_html. eexists.
  split; [exact Hresp | split; [exact Hsum | split; [exact Hfetch | reflexivity]]].
Defined.

(** ** Article extraction *)

Section ArticleFacts.

Variable L : Library.
Variable web : string -> attempt string.

(** No URL: no article. *)
Lemma fetch_article_without_url (url : json) :
  truthy url = false -> fetch_article L web url = Ok None.
Proof.
  intros H. unfold fetch_article, fetch_article_soup. rewrite H. reflexivity.
Qed.

(** The one [requests.get] of the page fails: no article.  There is no
    second attempt. *)
Lemma fetch_article_fetch_fails (url : string) :
  accepted (web url) = None -> fetch_article L web (JStr url) = Ok None.
Proof.
  intros H. unfold fetch_article, fetch_article_soup.
  destruct (negb (truthy (JStr url))); [reflexivity|].
  rewrite request_accepted, H. reflexivity.
Qed.

(** The content reduction raises: no article. *)
Lemma fetch_article_reduction_raises (url : string) (resp : response string)
  (e : exn) :
  accepted (web url) = Some resp ->
  summary L (payload resp) = Raise e ->
  is_Exception e = true ->
  fetch_article L web (JStr url) = Ok None.
Proof.
  intros Hresp Hsum He. unfold fetch_article, fetch_article_soup.
  destruct (negb (truthy (JStr url))); [reflexivity|].
  rewrite request_accepted, Hresp, Hsum, He. reflexivity.
Qed.

(** Without an article the body is the self-text of the post if it has
    one, and the placeholder otherwise. *)
Lemma article_section_fallback (post story_text : json) :
  get post "story_text" = Ok story_text ->
  article_section_of L post None
  = Ok (if truthy story_text
        then q "<div class=`content`>" ++ py_str L story_text ++ "</div>"
        else UNAVAILABLE).
Proof.
  intros H. unfold article_section_of. rewrite H. simpl.
  destruct (truthy story_text) eqn:Etruthy; [ | reflexivity].
  unfold get, get_default in H.
  destruct post as [| b | n | s | l | items]; try discriminate.
  injection H as H. unfold getitem.
  destruct (lookup "story_text" items) as [v |]; subst.
  - reflexivity.
  - discriminate Etruthy.
Qed.

End ArticleFacts.

(** C6: [fetch_article] returns no article when the URL is absent, when
    the fetch of the page fails, and when the content reduction raises, and
    the body then falls back to the self-text or to the placeholder; but it
    does raise out of the pipeline.  The loop over the images runs outside
    both [try] blocks, and [urljoin] raises [ValueError] on a source such
    as [//[cdn/a.png]. *)
Theorem article_extraction_can_raise :
  (forall (L : Library) (web : string -> attempt string) (url : json),
      truthy url = false -> fetch_article L web url = Ok None)
  /\ (forall (L : Library) (web : string -> attempt string) (url : string),
         accepted (web url) = None -> fetch_article L web (JStr url) = Ok None)
  /\ (forall (L : Library) (web : string -> attempt string) (url : string)
             (resp : response string) (e : exn),
         accepted (web url) = Some resp ->
         summary L (payload resp) = Raise e ->
         is_Exception e = true ->
         fetch_article L web (JStr url) = Ok None)
  /\ (forall (L : Library) (post story_text : json),
         get post "story_text" = Ok story_text ->
         article_section_of L post None
         = Ok (if truthy story_text
               then q "<div class=`content`>" ++ py_str L story_text ++ "</div>"
               else UNAVAILABLE))
  /\ urllib_urljoin "https://ex.com/post" "//[cdn/a.png" = Raise ValueError
  /\ fetch_article (sample_library bracket_soup) sample_web
       (JStr "https://ex.com/post")
     = Raise ValueError.
Proof.
  split; [exact fetch_article_without_url|].
  split; [exact fetch_article_fetch_fails|].
  split; [exact fetch_article_reduction_raises|].
  split; [exact article_section_fallback|].
  split; vm_compute; reflexivity.
Qed.

(** ** Escaping *)

Lemma char_in_app (x : ascii) (a b : string) :
  char_in x (a ++ b) = char_in x a || char_in x b.
Proof.
  unfold char_in. induction a as [| c a IH]; simpl.
  - reflexivity.
  - rewrite IH. apply orb_assoc.
Qed.

Lemma char_in_replace (x c : ascii) (r s : string) :
  char_in x (replace_char c r s) = true ->
  (char_in x s = true /\ x <> c) \/ char_in x r = true.
Proof.
  induction s as [| a s IH]; simpl.
  - unfold char_in. simpl. discriminate.
  - destruct (Ascii.eqb a c) eqn:Eac.
    + rewrite char_in_app. intros H. apply orb_true_iff in H as [H | H].
      * right. assumption.
      * destruct (IH H) as [[Hs Hne] | Hr]; [left | right; assumption].
        split; [ | assumption]. unfold char_in in *. simpl. rewrite Hs.
        apply orb_true_r.
    + unfold char_in at 1. simpl. fold (char_in x (replace_char c r s)).
      intros H. apply orb_true_iff in H as [H | H].
      * left. apply Ascii.eqb_eq in H. subst a. split.
        -- unfold char_in. simpl. rewrite Ascii.eqb_refl. reflexivity.
        -- intros ->. rewrite Ascii.eqb_refl in Eac. discriminate.
      * destruct (IH H) as [[Hs Hne] | Hr]; [left | right; assumption].
        split; [ | assumption]. unfold char_in in *. simpl. rewrite Hs.
        apply orb_true_r.
Qed.

(** No character that opens or closes a tag or an attribute value
    survives [html.escape]. *)
Lemma html_escape_neutral (s : string) (x : ascii) :
  In x ["<"%char; ">"%char; "034"%char; "'"%char] ->
  char_in x (html_escape s) = false.
Proof.
  intros Hx. destruct (char_in x (html_escape s)) eqn:E; [ | reflexivity].
  exfalso. unfold html_escape in E.
  apply char_in_replace in E as [[E N5] | E];
    [ | destruct Hx as [<- | [<- | [<- | [<- | []]]]]; discriminate E].
  apply char_in_replace in E as [[E N4] | E];
    [ | destruct Hx as [<- | [<- | [<- | [<- | []]]]]; discriminate E].
  apply char_in_replace in E as [[E N3] | E];
    [ | destruct Hx as [<- | [<- | [<- | [<- | []]]]]; discriminate E].
  apply char_in_replace in E as [[E N2] | E];
    [ | destruct Hx as [<- | [<- | [<- | [<- | []]]]]; discriminate E].
  destruct Hx as [<- | [<- | [<- | [<- | []]]]]; congruence.
Qed.

Lemma escape_Ok (v : json) (s : string) :
  escape v = Ok s -> exists t : string, v = JStr t /\ s = html_escape t.
Proof.
  destruct v; try discriminate. intros H. injection H as <-.
  eexists. split; reflexivity.
Qed.

Lemma getitem_Ok (d : json) (k : string) (v : json) :
  getitem d k = Ok v ->
  exists m : list (string * json), d = JObj m /\ lookup k m = Some v.
Proof.
  destruct d as [| b | n | s | l | m]; try discriminate. simpl.
  destruct (lookup k m) as [v' |] eqn:E; [ | discriminate].
  intros H. injection H as <-. exists m. split; [reflexivity | assumption].
Qed.

(** [format] fills the templates with the values of their fields. *)
Lemma format_comment (author time reply_count body : string) :
  format COMMENT_TEMPLATE
    [ ("author", author); ("time", time); ("reply_count", reply_count);
      ("body", body) ]
  = comment_text author time reply_count body.
Proof. reflexivity. Qed.

Lemma format_section
  (rank total title points author num_comments story_id url_link
     article_section comment_count comments_html : string) :
  format SECTION_TEMPLATE
    [ ("rank", rank); ("total", total); ("title", title); ("points", points);
      ("author", author); ("num_comments", num_comments);
      ("story_id", story_id); ("url_link", url_link);
      ("article_section", article_section); ("comment_count", comment_count);
      ("comments_html", comments_html) ]
  = section_text rank total title points num_comments author story_id url_link
      article_section comment_count comments_html.
Proof. reflexivity. Qed.

Lemma format_toc_entry (rank title points num_comments author : string) :
  format TOC_ENTRY_TEMPLATE
    [ ("rank", rank); ("title", title); ("points", points);
      ("num_comments", num_comments); ("author", author) ]
  = toc_entry_text rank title points num_comments author.
Proof. reflexivity. Qed.

Lemma format_toc (date toc_entries : string) :
  format TOC_TEMPLATE [ ("date", date); ("toc_entries", toc_entries) ]
  = toc_text date toc_entries.
Proof. reflexivity. Qed.

Lemma format_document (toc sections : string) :
  format DOCUMENT_TEMPLATE [ ("toc", toc); ("sections", sections) ]
  = document_text toc sections.
Proof. reflexivity. Qed.

Lemma comment_block_inserted (L : Library) (c : json) (block : string) :
  comment_block L c = Ok block -> comment_inserted L c block.
Proof.
  unfold comment_block. intros H.
  bind_inv H as time Htime. bind_inv H as ts Hts.
  bind_inv H as kids Hkids. bind_inv H as replies Hreplies.
  bind_inv H as by_ Hby. bind_inv H as author Hauthor.
  bind_inv H as body Hbody. injection H as <-.
  assert (Hcount : reply_count c = replies).
  { unfold reply_count. rewrite Hkids. cbn [bind]. rewrite Hreplies.
    reflexivity. }
  apply getitem_Ok in Htime as [m [-> Htime]].
  apply escape_Ok in Hauthor as [b [-> ->]].
  simpl in Hby, Hbody. injection Hby as Hby. injection Hbody as Hbody.
  exists m, b, (py_str L body), time, ts.
  split; [reflexivity|].
  split.
  { destruct (lookup "by" m); [assumption | congruence]. }
  split.
  { rewrite <- Hbody. destruct (lookup "text" m); reflexivity. }
  split.
  { intros text Htext. rewrite <- Hbody, Htext. reflexivity. }
  split; [assumption|]. split; [assumption|].
  rewrite Hcount. apply format_comment.
Qed.

(** The text of a rendered section. *)
Lemma render_section_text (L : Library) (post : json)
  (article : option string) (comments : list json) (rank total : Z)
  (section : string) :
  render_section L post article comments rank total = Ok section ->
  exists (title author : string) (points num_comments story_id : json)
         (url_link article_section : string) (blocks : list string),
    getitem post "title" = Ok (JStr title)
    /\ getitem post "author" = Ok (JStr author)
    /\ getitem post "points" = Ok points
    /\ getitem post "num_comments" = Ok num_comments
    /\ getitem post "id" = Ok story_id
    /\ url_link_of post = Ok url_link
    /\ article_section_of L post article = Ok article_section
    /\ mapM (comment_block L) comments = Ok blocks
    /\ section
       = section_text (str_int rank) (str_int total) (html_escape title)
           (py_str L points) (py_str L num_comments) (html_escape author)
           (py_str L story_id) url_link article_section
           (str_int (Z.of_nat (List.length comments))) (join nl blocks).
Proof.
  unfold render_section. intros H.
  bind_inv H as article_section Harticle. bind_inv H as url_link Hurl.
  bind_inv H as blocks Hblocks. bind_inv H as title Htitle.
  bind_inv H as etitle Hetitle. bind_inv H as points Hpoints.
  bind_inv H as author Hauthor. bind_inv H as eauthor Heauthor.
  bind_inv H as num_comments Hnum. bind_inv H as story_id Hid.
  injection H as <-.
  apply escape_Ok in Hetitle as [t [-> ->]].
  apply escape_Ok in Heauthor as [a [-> ->]].
  exists t, a, points, num_comments, story_id, url_link, article_section, blocks.
  split; [assumption|]. split; [assumption|]. split; [assumption|].
  split; [assumption|]. split; [assumption|]. split; [assumption|].
  split; [assumption|]. split; [assumption|].
  apply format_section.
Qed.



(** ** The run *)

Lemma enumerate_mapM_spec {A B : Type} (f : Z -> A -> result B) (l : list A) :
  forall (i : Z) (l' : list B),
    enumerate_mapM f i l = Ok l' ->
    List.length l' = List.length l
    /\ forall (j : nat) (x : A),
         nth_error l j = Some x ->
         exists y : B, nth_error l' j = Some y /\ f (i + Z.of_nat j) x = Ok y.
Proof.
  induction l as [| x0 l IH]; intros i l' H; simpl in H.
  - injection H as <-. split; [reflexivity|]. intros [| j] x Hj; discriminate.
  - bind_inv H as y0 Hy0. bind_inv H as ys Hys. injection H as <-.
    destruct (IH (i + 1) ys Hys) as [Hlen Hnth]. split.
    + simpl. rewrite Hlen. reflexivity.
    + intros [| j] x Hj; simpl in Hj.
      * injection Hj as <-. exists y0. split; [reflexivity|].
        rewrite Z.add_0_r. assumption.
      * destruct (Hnth j x Hj) as [y [Hy Hf]]. exists y.
        split; [exact Hy|].
        replace (i + Z.of_nat (S j)) with (i + 1 + Z.of_nat j) by lia.
        assumption.
Qed.

Section RunFacts.

Variable L : Library.
Variable H : host.
Variable W : World.

Lemma entry_of_post (i : nat) (post : json) (e : entry) :
  entry_of L W i post = Ok e -> fst (fst e) = post.
Proof.
  unfold entry_of. intros He.
  bind_inv He as title Htitle. bind_inv He as points Hpoints.
  bind_inv He as num_comments Hnum.
  bind_inv He as url Hurl. bind_inv He as article Harticle.
  bind_inv He as id Hid. bind_inv He as story_id Hstory.
  bind_inv He as comments Hcomments. injection He as <-. reflexivity.
Qed.

Lemma entries_from_spec (posts : list json) :
  forall (i : nat) (entries : list entry),
    entries_from L W i posts = Ok entries ->
    map (fun e => fst (fst e)) entries = posts
    /\ forall (j : nat) (post : json),
         nth_error posts j = Some post ->
         exists e : entry,
           nth_error entries j = Some e /\ entry_of L W (i + j) post = Ok e.
Proof.
  induction posts as [| p posts IH]; intros i entries Hrun; simpl in Hrun.
  - injection Hrun as <-. split; [reflexivity|]. intros [| j] post Hj; discriminate.
  - bind_inv Hrun as e He. bind_inv Hrun as es Hes. injection Hrun as <-.
    destruct (IH (S i) es Hes) as [Hmap Hnth]. split.
    + simpl. rewrite Hmap. f_equal. apply entry_of_post with (i := i). assumption.
    + intros [| j] post Hj; simpl in Hj.
      * injection Hj as <-. exists e. split; [reflexivity|].
        rewrite Nat.add_0_r. assumption.
      * destruct (Hnth j post Hj) as [e' [He' Hentry]]. exists e'.
        split; [exact He'|].
        replace (i + S j)%nat with (S i + j)%nat by lia. assumption.
Qed.

End RunFacts.

(** A string that is not empty has a first character. *)
Lemma chars_nonempty (c : ascii) (s : string) : chars (String c s) <> [].
Proof.
  unfold chars. cbn [str_chars]. destruct s as [| c' s']; [discriminate|].
  destruct (is_continuation c'); [ | discriminate].
  destruct (str_chars (String c' s')); discriminate.
Qed.

(** Discovery returns between one and [limit] posts, or it does not
    return. *)
Lemma find_top_posts_yesterday_bounds
  (index : search_params -> nat -> attempt body) (now limit : Z)
  (posts : list json) :
  0 < limit ->
  find_top_posts_yesterday index now limit = Ok posts ->
  posts <> [] /\ Z.of_nat (List.length posts) <= limit.
Proof.
  intros Hlimit Hrun. unfold find_top_posts_yesterday in Hrun.
  bind_inv Hrun as resp Hresp. bind_inv Hrun as data Hdata.
  bind_inv Hrun as hits Hhits.
  destruct (truthy hits) eqn:Htruthy; simpl in Hrun; [ | discriminate].
  bind_inv Hrun as hits' Hhits'. bind_inv Hrun as batch Hbatch.
  assert (hits' = hits).
  { apply getitem_Ok in Hhits' as [m [-> Hlookup]].
    simpl in Hhits. rewrite Hlookup in Hhits. congruence. }
  subst hits'.
  apply mapM_Ok_length in Hrun.
  unfold slice_elements in Hbatch. bind_inv Hbatch as l Hl.
  injection Hbatch as <-.
  assert (Hne : l <> []).
  { destruct hits as [| b | n | s | l0 | m]; try discriminate.
    - injection Hl as <-.
      destruct s; [discriminate Htruthy | apply chars_nonempty].
    - injection Hl as <-. destruct l0; [discriminate Htruthy | discriminate]. }
  rewrite slice_to_firstn in Hrun by lia. split.
  - intros ->. simpl in Hrun. symmetry in Hrun.
    apply length_zero_iff_nil in Hrun.
    destruct l as [| x l]; [congruence|].
    destruct (Z.to_nat limit) eqn:E; [lia | discriminate].
  - rewrite Hrun, length_firstn. lia.
Qed.

(** What a successful [generate_pdf] did. *)
Lemma generate_pdf_Ok (L : Library) (H : host) (now : Z) (fs fs' : files)
  (entries : list entry) (output_path : string) :
  generate_pdf L H now fs entries = Ok (output_path, fs') ->
  let yesterday := date_today now (utc_offset H) - 1 in
  exists (toc_entries sections : list string) (pdf : string),
    enumerate_mapM (toc_entry L) 1 entries = Ok toc_entries
    /\ sections_of L entries = Ok sections
    /\ write_pdf L
         (document_text
            (toc_text (strftime_long yesterday) (join nl toc_entries))
            (join nl sections))
       = Ok pdf
    /\ output_path = OUTPUT_DIR H ++ "/" ++ isoformat yesterday ++ ".pdf"
    /\ fs' = write_file output_path pdf fs.
Proof.
  unfold generate_pdf, html_content_of. intros Hrun.
  bind_inv Hrun as html Hhtml. bind_inv Hrun as u Hmkdir.
  bind_inv Hrun as pdf Hpdf. injection Hrun as <- <-.
  bind_inv Hhtml as toc_entries Htoc. bind_inv Hhtml as sections Hsections.
  injection Hhtml as <-.
  exists toc_entries, sections, pdf.
  repeat split; assumption.
Qed.

Lemma write_file_read (path content : string) (fs : files) :
  write_file path content fs path = Some content.
Proof. unfold write_file. rewrite String.eqb_refl. reflexivity. Qed.

(** A rendered section begins with the header of its rank and of the
    title of its post. *)
Lemma section_text_header
  (rank total title points num_comments author story_id url_link
     article_section comment_count comments_html : string) :
  startswith
    (section_text rank total title points num_comments author story_id
       url_link article_section comment_count comments_html)
    (section_header rank total title)
  = true.
Proof.
  unfold startswith.
  match goal with
  | |- String.prefix ?p ?s = true =>
      assert (Hsplit : exists rest : string, s = p ++ rest)
  end.
  { eexists. unfold section_text, section_header. simpl.
    repeat (rewrite !string_app_assoc; simpl). reflexivity. }
  destruct Hsplit as [rest ->]. apply prefix_app.
Qed.

Lemma render_section_header (L : Library) (post : json)
  (article : option string) (comments : list json) (rank total : Z)
  (section : string) :
  render_section L post article comments rank total = Ok section ->
  exists title : string,
    getitem post "title" = Ok (JStr title)
    /\ startswith section
         (section_header (str_int rank) (str_int total) (html_escape title))
       = true.
Proof.
  intros H.
  destruct (render_section_text _ _ _ _ _ _ _ H)
    as [t [a [points [num_comments [story_id [url_link [article_section [blocks
         [Htitle [_ [_ [_ [_ [_ [_ [_ ->]]]]]]]]]]]]]]]].
  exists t. split; [assumption|]. apply section_text_header.
Qed.



(** ** The output file *)

Lemma utc_day_of_yesterday_start (now : Z) :
  utc_day (yesterday_start now) = utc_day now - 1.
Proof.
  unfold utc_day, yesterday_start, today_utc, SECONDS_PER_DAY.
  pose proof (Z.div_mod now 86400 ltac:(lia)) as Hdm.
  replace (now - now mod 86400 - 1 * 86400) with ((now / 86400 - 1) * 86400) by lia.
  apply Z.div_mul. lia.
Qed.

(** C8: a successful [generate_pdf] writes one file, into the output
    directory, replacing what was there and touching nothing else; the
    file is named by the day before the local date of the host at
    rendering time.  On a host on UTC, with discovery and rendering on the
    same UTC day, that is the day of the discovery window.  On a host five
    hours behind UTC, a run at 2024-01-02T02:00:00Z discovers the stories
    of 2024-01-01 and names the file 2023-12-31. *)
Theorem digest_file_is_named_by_the_local_date :
  (forall (L : Library) (H : host) (now : Z) (fs fs' : files)
          (entries : list entry) (output_path : string),
      generate_pdf L H now fs entries = Ok (output_path, fs') ->
      output_path
      = OUTPUT_DIR H ++ "/" ++ isoformat (date_today now (utc_offset H) - 1)
        ++ ".pdf"
      /\ (exists pdf : string, fs' output_path = Some pdf)
      /\ forall p : string, p <> output_path -> fs' p = fs p)
  /\ (forall discovery_now render_now : Z,
         utc_day render_now = utc_day discovery_now ->
         date_today render_now 0 - 1 = utc_day (yesterday_start discovery_now))
  /\ (filters_text
        (numericFilters (discovery_params (discovery_clock night_world) MAX_POSTS))
      = "created_at_i>1704067200,created_at_i<1704153600"
      /\ isoformat (utc_day 1704067200) = "2024-01-01"
      /\ exists fs' : files,
           run (sample_library sample_soup) eastern_host night_world no_files
           = Ok ("/home/u/Documents/hn-digests/2023-12-31.pdf", fs')).
Proof.
  split; [ | split ].
  - intros L H now fs fs' entries output_path Hrun.
    destruct (generate_pdf_Ok _ _ _ _ _ _ _ Hrun)
      as [toc_entries [sections [pdf [_ [_ [_ [Hpath Hfs]]]]]]].
    split; [exact Hpath|]. split.
    + exists pdf. rewrite Hfs. apply write_file_read.
    + intros p Hp. rewrite Hfs. unfold write_file.
      destruct (String.eqb p output_path) eqn:E; [ | reflexivity].
      apply String.eqb_eq in E. contradiction.
  - intros discovery_now render_now Hday.
    rewrite utc_day_of_yesterday_start, <- Hday.
    unfold date_today, utc_day. rewrite Z.add_0_r. reflexivity.
  - split; [vm_compute; reflexivity|]. split; [vm_compute; reflexivity|].
    destruct (run (sample_library sample_soup) eastern_host night_world no_files)
      as [[output_path fs'] | e] eqn:Hrun;
      [ | vm_compute in Hrun; discriminate Hrun ].
    exists fs'.
    assert (Hfst : option_map fst
                     (match run (sample_library sample_soup) eastern_host
                              night_world no_files with
                      | Ok r => Some r
                      | Raise _ => None
                      end)
                   = Some "/home/u/Documents/hn-digests/2023-12-31.pdf")
      by (vm_compute; reflexivity).
    rewrite Hrun in Hfst. simpl in Hfst. congruence.
Qed.

(** ** Fault isolation *)

Lemma mapM_total {A B : Type} (f : A -> result B) (l : list A) :
  Forall (fun x => exists y : B, f x = Ok y) l ->
  exists l' : list B, mapM f l = Ok l'.
Proof.
  induction 1 as [| x l [y Hy] _ [l' IH]]; simpl.
  - eexists. reflexivity.
  - rewrite Hy, IH. simpl. eexists. reflexivity.
Qed.

Lemma enumerate_mapM_total {A B : Type} (f : Z -> A -> result B) (l : list A) :
  Forall (fun x => forall i : Z, exists y : B, f i x = Ok y) l ->
  forall i : Z, exists l' : list B, enumerate_mapM f i l = Ok l'.
Proof.
  induction 1 as [| x l Hx _ IH]; intros i; simpl.
  - eexists. reflexivity.
  - destruct (Hx i) as [y Hy]. destruct (IH (i + 1)) as [l' Hl'].
    rewrite Hy, Hl'. simpl. eexists. reflexivity.
Qed.

Section RenderingFacts.

Variable L : Library.

Lemma url_link_total (post : json) :
  documented_post post -> exists link : string, url_link_of post = Ok link.
Proof.
  intros [m [title [author [id [url [story_id [points [num_comments
            [-> [_ [_ [Hurl [Hshape _]]]]]]]]]]]]].
  unfold url_link_of. simpl. rewrite Hurl. simpl.
  destruct Hshape as [Hfalsy | [u ->]].
  - rewrite Hfalsy. eexists. reflexivity.
  - destruct (truthy (JStr u)); [ | eexists; reflexivity].
    simpl. destruct (60 <? Z.of_nat (str_len u)); simpl;
      eexists; reflexivity.
Qed.

Lemma article_section_total (m : list (string * json)) (article : option string) :
  exists body : string, article_section_of L (JObj m) article = Ok body.
Proof.
  unfold article_section_of. destruct article as [content_html |].
  - eexists. reflexivity.
  - simpl. destruct (lookup "story_text" m) as [v |]; simpl.
    + destruct (truthy v); eexists; reflexivity.
    + eexists. reflexivity.
Qed.

Lemma comment_block_total (c : json) :
  renderable_comment c -> exists block : string, comment_block L c = Ok block.
Proof.
  intros [m [time [ts [-> [Htime [Hts [Hby [Hkids _]]]]]]]].
  unfold comment_block. simpl. rewrite Htime. simpl. rewrite Hts. simpl.
  destruct Hkids as [-> | [l ->]]; simpl;
    destruct Hby as [-> | [b ->]]; simpl; eexists; reflexivity.
Qed.

Lemma render_section_total (post : json) (article : option string)
  (comments : list json) (rank total : Z) :
  documented_post post ->
  Forall renderable_comment comments ->
  exists section : string,
    render_section L post article comments rank total = Ok section.
Proof.
  intros Hpost Hcomments.
  destruct (url_link_total post Hpost) as [link Hlink].
  destruct Hpost as [m [title [author [id [url [story_id [points [num_comments
            [-> [Htitle [Hauthor [Hurl [Hshape [Hid [_ [Hp [Hn _]]]]]]]]]]]]]]]]].
  destruct (article_section_total m article) as [body Hbody].
  destruct (mapM_total (comment_block L) comments) as [blocks Hblocks].
  { apply Forall_impl with (2 := Hcomments). apply comment_block_total. }
  unfold render_section. rewrite Hbody, Hlink, Hblocks. simpl.
  rewrite Htitle, Hp, Hauthor, Hn, Hid. simpl. eexists. reflexivity.
Qed.

Lemma toc_entry_total (e : entry) (i : Z) :
  documented_post (fst (fst e)) ->
  exists line : string, toc_entry L i e = Ok line.
Proof.
  destruct e as [[post article] comments]. simpl.
  intros [m [title [author [id [url [story_id [points [num_comments
            [-> [Htitle [Hauthor [_ [_ [_ [_ [Hp [Hn _]]]]]]]]]]]]]]]]].
  unfold toc_entry. simpl. rewrite Htitle, Hp, Hn, Hauthor. simpl.
  eexists. reflexivity.
Qed.

(** With documented entries, only the renderer and the file system can
    make [generate_pdf] fail. *)
Lemma generate_pdf_total (H : host) (now : Z) (fs : files) (entries : list entry) :
  mkdir H = Ok tt ->
  renders L ->
  Forall (fun e => documented_post (fst (fst e))
                   /\ Forall renderable_comment (snd e)) entries ->
  exists (document pdf : string),
    html_content_of L (date_today now (utc_offset H) - 1) entries = Ok document
    /\ write_pdf L document = Ok pdf
    /\ generate_pdf L H now fs entries
       = Ok (OUTPUT_DIR H ++ "/"
             ++ isoformat (date_today now (utc_offset H) - 1) ++ ".pdf",
             write_file
               (OUTPUT_DIR H ++ "/"
                ++ isoformat (date_today now (utc_offset H) - 1) ++ ".pdf")
               pdf fs).
Proof.
  intros Hmkdir Hrenders Hentries.
  destruct (enumerate_mapM_total (toc_entry L) entries) with (i := 1)
    as [toc_entries Htoc].
  { apply Forall_impl with (2 := Hentries). intros e [He _] i.
    apply toc_entry_total. assumption. }
  destruct (enumerate_mapM_total
              (section_entry L (Z.of_nat (List.length entries))) entries)
    with (i := 1) as [sections Hsections].
  { apply Forall_impl with (2 := Hentries).
    intros [[post article] comments] [He Hc] i. simpl in *.
    apply render_section_total; assumption. }
  assert (Hhtml : exists document : string,
             html_content_of L (date_today now (utc_offset H) - 1) entries
             = Ok document).
  { unfold html_content_of, sections_of. rewrite Htoc, Hsections.
    eexists. reflexivity. }
  destruct Hhtml as [document Hhtml]. destruct (Hrenders document) as [pdf Hpdf].
  exists document, pdf. split; [assumption|]. split; [assumption|].
  unfold generate_pdf. rewrite Hhtml. cbn [bind]. rewrite Hmkdir. cbn [bind].
  rewrite Hpdf. reflexivity.
Qed.

End RenderingFacts.

Section ArticleTotality.

Variable urljoin : string -> string -> result string.
Variable url : string.

Lemma rewrite_src_total (attrs : list (string * string)) :
  joinable urljoin url attrs ->
  exists attrs' : list (string * string), rewrite_src urljoin url attrs = Ok attrs'.
Proof.
  intros Hjoin. unfold rewrite_src.
  destruct (attr_get "src" attrs) as [src |] eqn:Esrc; [ | eexists; reflexivity].
  destruct (negb (String.eqb src "")
            && negb (startswith src "http://" || startswith src "https://"
                     || startswith src "data:"));
    [ | eexists; reflexivity].
  destruct (Hjoin src Esrc) as [joined Hjoined]. rewrite Hjoined. simpl.
  eexists. reflexivity.
Qed.

Lemma rewrite_images_total (n : node) :
  Forall (joinable urljoin url) (images n) ->
  exists n' : node, rewrite_images urljoin url n = Ok n'.
Proof.
  induction n as [s | name attrs children IH] using node_induction;
    intros Hjoin; simpl.
  - eexists. reflexivity.
  - simpl in Hjoin. apply Forall_app in Hjoin as [Hown Hchildren].
    assert (Hattrs : exists attrs',
               (if String.eqb name "img" then rewrite_src urljoin url attrs
                else Ok attrs) = Ok attrs').
    { destruct (String.eqb name "img"); [ | eexists; reflexivity].
      apply rewrite_src_total. inversion Hown. assumption. }
    destruct Hattrs as [attrs' ->]. simpl.
    destruct (mapM_total (rewrite_images urljoin url) children) as [children' ->].
    { clear -IH Hchildren. induction IH as [| c l Hc _ IHl]; constructor.
      - apply Hc. simpl in Hchildren. apply Forall_app in Hchildren.
        apply Hchildren.
      - apply IHl. simpl in Hchildren. apply Forall_app in Hchildren.
        apply Hchildren. }
    simpl. eexists. reflexivity.
Qed.

Lemma rewrite_all_images_total (soup : list node) :
  Forall (joinable urljoin url) (images_of soup) ->
  exists soup' : list node, rewrite_all_images urljoin url soup = Ok soup'.
Proof.
  intros Hjoin. unfold rewrite_all_images. apply mapM_total.
  unfold images_of in Hjoin. induction soup as [| n soup IH]; constructor.
  - apply rewrite_images_total. simpl in Hjoin. apply Forall_app in Hjoin.
    apply Hjoin.
  - apply IH. simpl in Hjoin. apply Forall_app in Hjoin. apply Hjoin.
Qed.

End ArticleTotality.

(** [fetch_article] returns when readability raises nothing beyond
    [Exception] and the image sources of the fragment can be joined to the
    page URL: no article when the page cannot be fetched or the content
    reduction raises, the serialised fragment otherwise. *)
Lemma fetch_article_outcome (L : Library) (web : string -> attempt string)
  (url : string) :
  summary_raises_exceptions L ->
  (forall (resp : response string) (summary_html : string),
      accepted (web url) = Some resp ->
      summary L (payload resp) = Ok summary_html ->
      joinable_images L url
        (decompose_all ["script"; "style"; "iframe"] (BeautifulSoup L summary_html))) ->
  truthy (JStr url) = true ->
  exists article : option string,
    fetch_article L web (JStr url) = Ok article
    /\ article_outcome L web (JStr url) article.
Proof.
  intros Hsummary Hjoin Htruthy. unfold fetch_article, fetch_article_soup.
  rewrite Htruthy. cbn [negb]. unfold article_outcome.
  assert (Hne : String.eqb url "" = false).
  { simpl in Htruthy. apply negb_true_iff in Htruthy. assumption. }
  rewrite Hne. rewrite request_accepted.
  destruct (accepted (web url)) as [resp |] eqn:Hresp;
    [ | exists None; split; reflexivity].
  destruct (summary L (payload resp)) as [summary_html | e] eqn:Hsum.
  - destruct (rewrite_all_images_total (urljoin L) url
                (decompose_all ["script"; "style"; "iframe"]
                   (BeautifulSoup L summary_html))) as [soup' Hsoup'].
    { apply (Hjoin resp summary_html); [reflexivity | assumption]. }
    rewrite Hsoup'. cbn [bind option_map].
    exists (Some (soup_str L soup')). split; [reflexivity|].
    exists soup'. split; reflexivity.
  - rewrite (Hsummary _ _ Hsum). exists None. split; reflexivity.
Qed.

Lemma live_items_members (E : thread_env) (l : list Z) :
  forall (slot : nat) (c : json),
    In c (live_items (submit_from E slot (map JNum l))) ->
    exists (j : nat) (id : Z),
      nth_error l j = Some id
      /\ fetch_item (kid_service E (slot + j)) (JNum id) = Ok c
      /\ is_live_comment c = Ok true.
Proof.
  induction l as [| id l IH]; intros slot c Hc; simpl in Hc; [contradiction|].
  apply in_app_or in Hc as [Hc | Hc].
  - destruct (fetch_item (kid_service E slot) (JNum id)) as [item | e] eqn:Hitem;
      [ | contradiction].
    destruct (is_live_comment item) as [[|] | e] eqn:Hlive; try contradiction.
    destruct Hc as [<- | []].
    exists 0%nat, id. rewrite Nat.add_0_r. repeat split; assumption.
  - destruct (IH (S slot) c Hc) as [j [id' [Hj [Hitem Hlive]]]].
    exists (S j), id'. replace (slot + S j)%nat with (S slot + j)%nat by lia.
    repeat split; assumption.
Qed.

Lemma reschedule_completion (E : thread_env) : reschedule E (completion E) = E.
Proof. destruct E. reflexivity. Qed.

Lemma map_JNum_injective (l l' : list Z) : map JNum l = map JNum l' -> l = l'.
Proof.
  revert l'. induction l as [| x l IH]; intros [| y l'] H; try discriminate.
  - reflexivity.
  - simpl in H. injection H as -> H. f_equal. apply IH. assumption.
Qed.

(** In a documented thread [fetch_top_comments] returns: nothing when the
    story lookup yielded nothing or the story has no replies, and the
    ranking of the kept answers of the batch otherwise; what it returns
    can be rendered. *)
Lemma fetch_top_comments_outcome (E : thread_env) (story_id : Z) :
  documented_thread E story_id ->
  exists comments : list json,
    fetch_top_comments E story_id MAX_COMMENTS = Ok comments
    /\ comments_outcome E story_id comments
    /\ Forall renderable_comment comments.
Proof.
  intros [story [Hstory Hshape]].
  destruct Hshape as [Hfalsy | [m [-> [Hnokids | [ids [Hkids [Hnd Hitems]]]]]]].
  - exists []. split; [ | split; [ | constructor]].
    + unfold fetch_top_comments. rewrite Hstory. simpl. rewrite Hfalsy.
      reflexivity.
    + exists story. split; [assumption|]. split; [reflexivity|].
      intros m ->. destruct m as [| kv m]; [ | discriminate Hfalsy].
      split; [reflexivity|]. intros ids Hkids. discriminate Hkids.
  - exists []. split; [ | split; [ | constructor]].
    + unfold fetch_top_comments. rewrite Hstory. simpl.
      destruct m as [| [k v] m]; [reflexivity|].
      cbn [truthy negb]. unfold get_default. rewrite Hnokids. reflexivity.
    + exists (JObj m). split; [assumption|]. split; [reflexivity|].
      intros m' Hm'. injection Hm' as <-.
      split; [reflexivity|]. intros ids Hkids. congruence.
  - assert (Hwf : well_formed_thread E story_id ids).
    { split; [assumption | split].
      - exists m. split; assumption.
      - intros k id Hk.
        destruct (Hitems k id Hk) as [item [Hitem [Hdrop | [Hlive [Hid Hrender]]]]];
          exists item; (split; [assumption|]); [left; assumption | right].
        split; [assumption | split; [assumption|]].
        destruct Hrender as [m' [time [ts [-> [_ [_ [_ [Hk' _]]]]]]]].
        simpl. destruct Hk' as [-> | [l ->]]; eexists; reflexivity. }
    assert (Hlimit : 0 <= MAX_COMMENTS) by (unfold MAX_COMMENTS; lia).
    destruct (fetch_top_comments_rank E story_id MAX_COMMENTS ids Hlimit Hwf)
      as [_ Hall].
    specialize (Hall (completion E)). rewrite reschedule_completion in Hall.
    eexists. split; [exact Hall|]. split.
    + exists (JObj m). split; [assumption|]. split.
      * intros Hfalsy. destruct m; [discriminate Hkids | discriminate Hfalsy].
      * intros m' Hm'. injection Hm' as <-. split; [congruence|].
        intros ids' Hkids'. rewrite Hkids in Hkids'. injection Hkids' as Hids.
        apply map_JNum_injective in Hids. subst ids'. reflexivity.
    + apply Forall_forall. intros c Hc. apply In_firstn in Hc.
      apply Permutation_in with (l' :=
        live_items
          (submit_from E 0
             (map JNum (firstn (Z.to_nat (MAX_COMMENTS + 10)) ids)))) in Hc;
        [ | apply rank_perm].
      apply live_items_members in Hc as [j [id [Hj [Hitem Hlive]]]].
      apply nth_error_firstn_Some in Hj. simpl in Hitem.
      destruct (Hitems j id Hj) as [item [Hitem' [Hdrop | [_ [_ Hrender]]]]];
        rewrite Hitem in Hitem'; injection Hitem' as <-;
        [congruence | assumption].
Qed.

Section Isolation.

Variable L : Library.
Variable W : World.

Hypothesis readability_raises_exceptions : summary_raises_exceptions L.

Lemma entry_of_total (i : nat) (post : json) :
  documented_answers L W i post ->
  exists e : entry, entry_of L W i post = Ok e /\ entry_outcome L W i post e.
Proof.
  intros [Hpost [Himages Hthread]].
  destruct Hpost as [m [title [author [id [url [story_id [points [num_comments
            [-> [Htitle [Hauthor [Hurl [Hshape [Hid [Hint [Hp [Hn _]]]]]]]]]]]]]]]]].
  assert (Hgeturl : getitem (JObj m) "url" = Ok url)
    by (simpl; rewrite Hurl; reflexivity).
  assert (Hgetid : getitem (JObj m) "id" = Ok (JStr id))
    by (simpl; rewrite Hid; reflexivity).
  assert (Harticle : exists article : option string,
             (if truthy url then fetch_article L (web W i) url else Ok None)
             = Ok article
             /\ article_outcome L (web W i) url article).
  { destruct (truthy url) eqn:Htruthy.
    - destruct Hshape as [Hfalsy | [u ->]]; [congruence|].
      apply fetch_article_outcome; try assumption.
      intros resp summary_html. apply Himages. assumption.
    - exists None. split; [reflexivity|].
      destruct url as [| b | n | u | l | items]; try reflexivity.
      simpl in Htruthy. apply negb_false_iff in Htruthy.
      unfold article_outcome. rewrite Htruthy. reflexivity. }
  destruct Harticle as [article [Harticle Houtcome]].
  destruct (fetch_top_comments_outcome (threads W i) story_id)
    as [comments [Hcomments [Hranked Hrender]]].
  { apply (Hthread (JStr id) story_id); assumption. }
  exists (JObj m, article, comments). split.
  - unfold entry_of. unfold getitem at 1 2 3. rewrite Htitle, Hp, Hn.
    cbn [bind]. rewrite Hgeturl. cbn [bind]. rewrite Harticle. cbn [bind].
    rewrite Hgetid. cbn [bind]. rewrite Hint. cbn [bind]. rewrite Hcomments.
    reflexivity.
  - split; [reflexivity|]. split; [ | split; [ | assumption]].
    + intros url' Hurl'. assert (url' = url) by congruence. subst url'.
      assumption.
    + intros id' story_id' Hid' Hint'.
      assert (id' = JStr id) by congruence. subst id'.
      assert (story_id' = story_id) by congruence. subst story_id'.
      assumption.
Qed.

Lemma entries_from_total (posts : list json) :
  forall i : nat,
    (forall (j : nat) (post : json),
        nth_error posts j = Some post -> documented_answers L W (i + j) post) ->
    exists entries : list entry,
      entries_from L W i posts = Ok entries
      /\ List.length entries = List.length posts
      /\ Forall (fun e => documented_post (fst (fst e))
                          /\ Forall renderable_comment (snd e)) entries
      /\ forall (j : nat) (post : json),
           nth_error posts j = Some post ->
           exists e : entry,
             nth_error entries j = Some e /\ entry_outcome L W (i + j) post e.
Proof.
  induction posts as [| p posts IH]; intros i Hdoc.
  - exists []. split; [reflexivity|]. split; [reflexivity|].
    split; [constructor|]. intros [| j] post Hj; discriminate.
  - assert (Hp : documented_answers L W i p).
    { replace i with (i + 0)%nat by lia. apply Hdoc. reflexivity. }
    destruct (entry_of_total i p Hp) as [e [He Hout]].
    destruct (IH (S i)) as [es [Hes [Hlen [Hall Hnth]]]].
    { intros j post Hj. replace (S i + j)%nat with (i + S j)%nat by lia.
      apply Hdoc. assumption. }
    exists (e :: es). split; [simpl; rewrite He, Hes; reflexivity|].
    split; [simpl; rewrite Hlen; reflexivity|]. split.
    + constructor; [ | assumption].
      destruct Hout as [Hfst [_ [_ Hrender]]]. split; [ | assumption].
      rewrite Hfst. apply Hp.
    + intros [| j] post Hj; simpl in Hj.
      * injection Hj as <-. exists e. rewrite Nat.add_0_r.
        split; [reflexivity | assumption].
      * destruct (Hnth j post Hj) as [e' [He' Hout']]. exists e'.
        replace (i + S j)%nat with (S i + j)%nat by lia.
        split; assumption.
Qed.

End Isolation.




(** * Further properties *)

(** ** Retries and backoff *)

Section RetryLoop.

Context {B : Type}.
Variable net : nat -> attempt B.
Variable retries : nat.

(** One iteration of the loop. *)
Lemma retry_loop_step (remaining attempt : nat) :
  retry_loop net retries (S remaining) attempt
  = match accepted (net attempt) with
    | Some resp => ([Get attempt], Ok (Some resp))
    | None =>
        if Nat.eqb attempt (retries - 1)
        then ([Get attempt], Raise RequestException)
        else
          (Get attempt :: Sleep (Z.of_nat attempt + 1)
             :: fst (retry_loop net retries remaining (S attempt)),
           snd (retry_loop net retries remaining (S attempt)))
    end.
Proof.
  cbn [retry_loop]. rewrite try_get_accepted.
  destruct (accepted (net attempt)) as [resp |]; [reflexivity|].
  cbn [is_RequestException].
  destruct (Nat.eqb attempt (retries - 1)); [reflexivity|].
  destruct (retry_loop net retries remaining (S attempt)) as [t r].
  rewrite Z.mul_1_l. reflexivity.
Qed.

Lemma retry_loop_succeeds (more : nat) :
  forall (remaining attempt : nat) (r : response B),
    (attempt + more < retries)%nat ->
    (more < remaining)%nat ->
    accepted (net (attempt + more)) = Some r ->
    (forall j : nat, (attempt <= j < attempt + more)%nat -> accepted (net j) = None) ->
    retry_loop net retries remaining attempt
    = (backoff_trace attempt more, Ok (Some r)).
Proof.
  induction more as [| more IH]; intros remaining attempt r Hlt Hrem Hacc Hnone;
    (destruct remaining as [| remaining]; [lia|]); rewrite retry_loop_step.
  - rewrite Nat.add_0_r in Hacc. rewrite Hacc. reflexivity.
  - rewrite (Hnone attempt) by lia.
    replace (Nat.eqb attempt (retries - 1)) with false
      by (symmetry; apply Nat.eqb_neq; lia).
    rewrite (IH remaining (S attempt) r).
    + reflexivity.
    + lia.
    + lia.
    + replace (S attempt + more)%nat with (attempt + S more)%nat by lia.
      assumption.
    + intros j Hj. apply Hnone. lia.
Qed.

Lemma retry_loop_gives_up (more : nat) :
  forall remaining attempt : nat,
    (attempt + more = retries - 1)%nat ->
    (0 < retries)%nat ->
    (more < remaining)%nat ->
    (forall j : nat, (attempt <= j <= attempt + more)%nat -> accepted (net j) = None) ->
    retry_loop net retries remaining attempt
    = (backoff_trace attempt more, Raise RequestException).
Proof.
  induction more as [| more IH]; intros remaining attempt Hlast Hpos Hrem Hnone;
    (destruct remaining as [| remaining]; [lia|]); rewrite retry_loop_step;
    rewrite (Hnone attempt) by lia.
  - replace (Nat.eqb attempt (retries - 1)) with true
      by (symmetry; apply Nat.eqb_eq; lia).
    reflexivity.
  - replace (Nat.eqb attempt (retries - 1)) with false
      by (symmetry; apply Nat.eqb_neq; lia).
    rewrite (IH remaining (S attempt)).
    + reflexivity.
    + lia.
    + assumption.
    + lia.
    + intros j Hj. apply Hnone. lia.
Qed.

End RetryLoop.

Lemma backoff_trace_requests (more : nat) :
  forall attempt : nat,
    requests_made (backoff_trace attempt more) = seq attempt (S more).
Proof.
  induction more as [| more IH]; intros attempt.
  - reflexivity.
  - cbn [backoff_trace requests_made]. rewrite IH. reflexivity.
Qed.

Lemma backoff_trace_seconds (more : nat) :
  forall attempt : nat,
    2 * seconds_slept (backoff_trace attempt more)
    = Z.of_nat more * (2 * Z.of_nat attempt + Z.of_nat more + 1).
Proof.
  induction more as [| more IH]; intros attempt.
  - reflexivity.
  - cbn [backoff_trace seconds_slept].
    rewrite Z.mul_add_distr_l, IH. lia.
Qed.

(** X1: with any number [retries >= 1] of attempts, [_request_with_retry]
    returns the response of the first attempt that [raise_for_status]
    accepts, after one request per attempt and, between two requests, a
    sleep of 1, 2, 3, ... seconds; when no attempt is accepted it raises
    after exactly [retries] requests.  There is no sleep after the last
    request: a call that ends with request [k] slept [k (k + 1) / 2]
    seconds. *)
Theorem retry_backs_off_linearly :
  forall (B : Type) (net : nat -> attempt B) (retries : nat),
    (0 < retries)%nat ->
    (forall (k : nat) (r : response B),
        (k < retries)%nat ->
        accepted (net k) = Some r ->
        (forall j : nat, (j < k)%nat -> accepted (net j) = None) ->
        _request_with_retry net retries = (backoff_trace 0 k, Ok (Some r)))
    /\ ((forall k : nat, (k < retries)%nat -> accepted (net k) = None) ->
        _request_with_retry net retries
        = (backoff_trace 0 (retries - 1), Raise RequestException))
    /\ (forall k : nat,
          requests_made (backoff_trace 0 k) = seq 0 (S k)
          /\ 2 * seconds_slept (backoff_trace 0 k)
             = Z.of_nat k * (Z.of_nat k + 1)).
Proof.
  intros B net retries Hpos. split; [ | split ].
  - intros k r Hk Hacc Hnone. unfold _request_with_retry.
    apply retry_loop_succeeds; simpl; try lia; try assumption.
    intros j Hj. apply Hnone. lia.
  - intros Hnone. unfold _request_with_retry.
    apply retry_loop_gives_up; simpl; try lia.
    intros j Hj. apply Hnone. lia.
  - intros k. split; [apply backoff_trace_requests|].
    rewrite backoff_trace_seconds. simpl Z.of_nat. lia.
Qed.

(** Four attempts against a server that answers 503 twice and then 200:
    three requests, with sleeps of one and two seconds between them. *)
Lemma retry_backs_off_linearly_witness :
  (0 < 4)%nat
  /\ _request_with_retry
       (fun k => if (k <? 2)%nat then Responds 503 "busy" else Responds 200 "ok") 4
     = ([Get 0; Sleep 1; Get 1; Sleep 2; Get 2], Ok (Some (mkResponse 200 "ok"))).
Proof.
  assert (Hpos : (0 < 4)%nat) by lia.
  split; [exact Hpos|].
  destruct (retry_backs_off_linearly string
              (fun k => if (k <? 2)%nat then Responds 503 "busy" else Responds 200 "ok")
              4%nat Hpos) as [Hfirst _].
  apply (Hfirst 2%nat (mkResponse 200 "ok")).
  - lia.
  - reflexivity.
  - intros j Hj. destruct j as [| [| j]]; [reflexivity | reflexivity | lia].
Defined.

(** ** The item lookup, continued *)


(** ** The top comments, continued *)

(** What the collecting loop returns, when it returns, is what
    [live_items] selects. *)
Lemma collect_Ok_live_items (done : list (result json)) :
  forall comments : list json,
    collect done = Ok comments -> comments = live_items done.
Proof.
  induction done as [| r done IH]; intros comments H; simpl in H.
  - injection H as <-. reflexivity.
  - bind_inv H as item Hitem. bind_inv H as keep Hkeep.
    bind_inv H as rest Hrest. injection H as <-.
    subst r. simpl. rewrite Hkeep. rewrite (IH rest Hrest).
    destruct keep; reflexivity.
Qed.

(** Every item kept is the answer to the worker of one slot. *)
Lemma live_items_answers (E : thread_env) (l : list json) :
  forall (slot : nat) (c : json),
    In c (live_items (submit_from E slot l)) ->
    exists (j : nat) (cid : json),
      nth_error l j = Some cid
      /\ fetch_item (kid_service E (slot + j)) cid = Ok c.
Proof.
  induction l as [| id l IH]; intros slot c Hc; simpl in Hc; [contradiction|].
  apply in_app_or in Hc as [Hc | Hc].
  - destruct (fetch_item (kid_service E slot) id) as [item | e] eqn:Hitem;
      [ | contradiction].
    destruct (is_live_comment item) as [[|] | e] eqn:Hlive; try contradiction.
    destruct Hc as [<- | []].
    exists 0%nat, id. rewrite Nat.add_0_r. split; [reflexivity | assumption].
  - destruct (IH (S slot) c Hc) as [j [id' [Hj Hitem]]].
    exists (S j), id'. replace (slot + S j)%nat with (S slot + j)%nat by lia.
    split; assumption.
Qed.

(** The steps of a call of [fetch_top_comments] that went past the two
    early returns. *)
Lemma fetch_top_comments_steps (E : thread_env) (story_id limit : Z)
  (comments : list json) :
  fetch_top_comments E story_id limit = Ok comments ->
  comments = []
  \/ exists (m : list (string * json)) (kid_ids : json)
            (all_ids ranked : list json),
       fetch_item (story_service E) (JNum story_id) = Ok (JObj m)
       /\ lookup "kids" m = Some kid_ids
       /\ elements kid_ids = Ok all_ids
       /\ (exists position_map : list (json * Z),
             sort_by_key (sort_key position_map)
               (live_items
                  (as_completed (completion E)
                     (submit_from E 0 (slice_to all_ids (limit + 10)))))
             = Ok ranked)
       /\ comments = slice_to ranked limit.
Proof.
  unfold fetch_top_comments. intros H. bind_inv H as story Hstory.
  destruct (negb (truthy story)); [left; congruence|].
  bind_inv H as kid_ids Hkids.
  destruct (negb (truthy kid_ids)) eqn:Htruthy; [left; congruence|].
  bind_inv H as batch Hbatch. bind_inv H as collected Hcollect.
  bind_inv H as all_ids Hall. bind_inv H as pm Hpm.
  bind_inv H as ranked Hranked. injection H as <-.
  right. unfold get_default in Hkids.
  destruct story as [| b | n | s | l | m]; try discriminate.
  injection Hkids as Hkids.
  destruct (lookup "kids" m) as [v |] eqn:Hlookup;
    [ | subst kid_ids; discriminate Htruthy ].
  subst v.
  unfold slice_elements in Hbatch. rewrite Hall in Hbatch.
  injection Hbatch as <-.
  apply collect_Ok_live_items in Hcollect. subst collected.
  exists m, kid_ids, all_ids, ranked.
  split; [assumption|]. split; [assumption|]. split; [assumption|].
  split; [exists pm; assumption | reflexivity].
Qed.

(** X3: a story that cannot be fetched, that is empty, that has no replies or
    whose replies are empty yields no comment, whatever the limit; a
    story that is some other object than a dict makes the call raise. *)
Theorem fetch_top_comments_without_replies :
  forall (E : thread_env) (story_id limit : Z) (story : json),
    fetch_item (story_service E) (JNum story_id) = Ok story ->
    (truthy story = false -> fetch_top_comments E story_id limit = Ok [])
    /\ (forall m : list (string * json),
          story = JObj m -> lookup "kids" m = None ->
          fetch_top_comments E story_id limit = Ok [])
    /\ (forall (m : list (string * json)) (kids : json),
          story = JObj m -> lookup "kids" m = Some kids -> truthy kids = false ->
          fetch_top_comments E story_id limit = Ok [])
    /\ (truthy story = true -> (forall m : list (string * json), story <> JObj m) ->
          fetch_top_comments E story_id limit = Raise AttributeError).
Proof.
  intros E story_id limit story Hstory. unfold fetch_top_comments.
  rewrite Hstory. cbn [bind].
  split; [ | split; [ | split ] ].
  - intros ->. reflexivity.
  - intros m -> Hnone. destruct (negb (truthy (JObj m))); [reflexivity|].
    unfold get_default. rewrite Hnone. reflexivity.
  - intros m kids -> Hkids Hfalsy.
    destruct (negb (truthy (JObj m))); [reflexivity|].
    unfold get_default. rewrite Hkids. cbn [bind]. rewrite Hfalsy. reflexivity.
  - intros Htruthy Hshape. rewrite Htruthy. cbn [negb].
    destruct story as [| b | n | s | l | m]; try reflexivity.
    exfalso. apply (Hshape m). reflexivity.
Qed.

(** The item service has no item 999: its lookup yields [None], and the
    call returns no comment. *)
Lemma fetch_top_comments_without_replies_witness :
  fetch_item (story_service (sample_thread [])) (JNum 999) = Ok JNull
  /\ fetch_top_comments (sample_thread []) 999 MAX_COMMENTS = Ok [].
Proof.
  assert (Hstory : fetch_item (story_service (sample_thread [])) (JNum 999)
                   = Ok JNull) by (vm_compute; reflexivity).
  split; [exact Hstory|].
  destruct (fetch_top_comments_without_replies (sample_thread []) 999
              MAX_COMMENTS JNull Hstory) as [Hnone _].
  apply Hnone. reflexivity.
Defined.

(** The lookups depend on what their own attempts meet, and on nothing
    else. *)
Lemma first_accepted_ext {B : Type} (net net' : nat -> attempt B) :
  (forall k : nat, net' k = net k) ->
  forall n attempt : nat, first_accepted net' attempt n = first_accepted net attempt n.
Proof.
  intros Hnet. induction n as [| n IH]; intros attempt; simpl; [reflexivity|].
  rewrite Hnet. rewrite IH. reflexivity.
Qed.

Lemma fetch_item_ext (firebase firebase' : item_service) (item_id : json) :
  (forall k : nat, firebase' item_id k = firebase item_id k) ->
  fetch_item firebase' item_id = fetch_item firebase item_id.
Proof.
  intros Hnet. rewrite !fetch_item_first_accepted.
  rewrite (first_accepted_ext (firebase item_id) (firebase' item_id) Hnet).
  reflexivity.
Qed.

Lemma submit_from_ext (E E' : thread_env) (l : list json) :
  forall slot : nat,
    (forall (j : nat) (item_id : json) (k : nat),
        (slot <= j < slot + List.length l)%nat ->
        kid_service E' j item_id k = kid_service E j item_id k) ->
    submit_from E' slot l = submit_from E slot l.
Proof.
  induction l as [| cid l IH]; intros slot Hsame; simpl; [reflexivity|].
  f_equal.
  - apply fetch_item_ext. intros k. apply Hsame. simpl. lia.
  - apply IH. intros j item_id k Hj. apply Hsame. simpl. lia.
Qed.

(** The call asks for the story and for the first [limit + 10] replies,
    and for nothing else. *)
Lemma fetch_top_comments_same_batch (E E' : thread_env) (story_id limit : Z) :
  0 <= limit ->
  same_batch limit E E' ->
  fetch_top_comments E' story_id limit = fetch_top_comments E story_id limit.
Proof.
  intros Hlimit [Hstory [Hcompletion Hkids]]. unfold fetch_top_comments.
  rewrite (fetch_item_ext (story_service E) (story_service E') (JNum story_id))
    by (intros k; apply Hstory).
  destruct (fetch_item (story_service E) (JNum story_id)) as [story | e];
    [ | reflexivity]. cbn [bind].
  destruct (negb (truthy story)); [reflexivity|].
  destruct (get_default story "kids" (JArr [])) as [kid_ids | e];
    [ | reflexivity]. cbn [bind].
  destruct (negb (truthy kid_ids)); [reflexivity|].
  unfold slice_elements.
  destruct (elements kid_ids) as [all_ids | e]; [ | reflexivity]. cbn [bind].
  rewrite Hcompletion.
  rewrite (submit_from_ext E E' (slice_to all_ids (limit + 10)) 0);
    [reflexivity|].
  intros j item_id k Hj. apply Hkids.
  pose proof (slice_to_length all_ids (limit + 10)). lia.
Qed.

(** X4: for a story with replies, the comments returned are drawn, each answer
    at most once, from the kept answers to the lookups of the first
    [limit + 10] replies of the story, and they are [limit] of them, or
    all of them when there are fewer: none of the kept answers is lost
    unless there are more than [limit].  A reply further down the list is
    not looked up: whatever the network would answer for it, the call
    returns the same comments. *)
Theorem top_comments_come_from_the_batch :
  forall (E : thread_env) (story_id limit : Z) (m : list (string * json))
         (kid_ids : json) (comments : list json),
    0 <= limit ->
    fetch_item (story_service E) (JNum story_id) = Ok (JObj m) ->
    lookup "kids" m = Some kid_ids ->
    truthy kid_ids = true ->
    fetch_top_comments E story_id limit = Ok comments ->
    (exists all_ids rest : list json,
        elements kid_ids = Ok all_ids
        /\ Permutation (comments ++ rest)%list
             (live_items
                (submit_from E 0 (firstn (Z.to_nat (limit + 10)) all_ids)))
        /\ List.length comments
           = Nat.min (Z.to_nat limit) (List.length (comments ++ rest)%list)
        /\ forall c : json,
             In c comments ->
             exists (j : nat) (cid : json),
               Z.of_nat j < limit + 10
               /\ nth_error all_ids j = Some cid
               /\ fetch_item (kid_service E j) cid = Ok c)
    /\ forall E' : thread_env,
         same_batch limit E E' ->
         fetch_top_comments E' story_id limit = Ok comments.
Proof.
  intros E story_id limit m kid_ids comments Hlimit Hstory Hkids Htruthy Hrun.
  split;
    [ | intros E' Hsame;
        rewrite (fetch_top_comments_same_batch E E' story_id limit Hlimit Hsame);
        exact Hrun ].
  unfold fetch_top_comments in Hrun. rewrite Hstory in Hrun.
  cbn [bind] in Hrun.
  assert (Hm : truthy (JObj m) = true)
    by (destruct m; [discriminate Hkids | reflexivity]).
  rewrite Hm in Hrun. cbn [negb] in Hrun.
  unfold get_default in Hrun. rewrite Hkids in Hrun. cbn [bind] in Hrun.
  rewrite Htruthy in Hrun. cbn [negb] in Hrun.
  bind_inv Hrun as batch Hbatch. bind_inv Hrun as collected Hcollect.
  bind_inv Hrun as all_ids Hall. bind_inv Hrun as pm Hpm.
  bind_inv Hrun as ranked Hranked. injection Hrun as Hcomments.
  unfold slice_elements in Hbatch. rewrite Hall in Hbatch.
  injection Hbatch as <-.
  apply collect_Ok_live_items in Hcollect. subst collected.
  rewrite slice_to_firstn in Hranked by lia.
  rewrite slice_to_firstn in Hcomments by assumption.
  set (batch := firstn (Z.to_nat (limit + 10)) all_ids) in *.
  assert (Hperm : Permutation ranked (live_items (submit_from E 0 batch))).
  { apply perm_trans with
      (live_items (as_completed (completion E) (submit_from E 0 batch))).
    - apply Permutation_sym. apply sort_by_key_perm with (1 := Hranked).
    - apply live_items_perm. apply as_completed_perm. }
  exists all_ids, (skipn (Z.to_nat limit) ranked).
  split; [assumption|].
  subst comments. rewrite firstn_skipn.
  split; [assumption|]. split; [apply length_firstn|].
  intros c Hc. apply In_firstn in Hc.
  apply Permutation_in with (1 := Hperm) in Hc.
  apply live_items_answers in Hc as [j [cid [Hj Hitem]]].
  exists j, cid. simpl in Hitem.
  assert (Hbound : (j < List.length batch)%nat).
  { apply nth_error_Some. rewrite Hj. discriminate. }
  subst batch. rewrite length_firstn in Hbound.
  split; [lia|]. split; [ | assumption].
  apply nth_error_firstn_Some with (n := Z.to_nat (limit + 10)). assumption.
Qed.

(** A story with sixteen replies and a limit of 5: the five comments
    returned are kept answers to the workers of the first fifteen slots,
    and they are the same whatever network the worker of a later slot
    would meet; the sixteenth reply, which has more replies of its own
    than any other, is not among them. *)
Lemma top_comments_come_from_the_batch_witness :
  0 <= 5
  /\ fetch_item (story_service (crowded_thread crowded_service)) (JNum 100)
     = Ok crowded_story
  /\ truthy
       (JArr (map JNum [ 101; 102; 103; 104; 105; 106; 107; 108; 109; 110;
                         111; 112; 113; 114; 115; 116 ]))
     = true
  /\ fetch_top_comments (crowded_thread crowded_service) 100 5
     = Ok [ sample_comment 101 []; sample_comment 102 []; sample_comment 103 [];
            sample_comment 104 []; sample_comment 105 [] ]
  /\ (forall c : json,
         In c [ sample_comment 101 []; sample_comment 102 [];
                sample_comment 103 []; sample_comment 104 [];
                sample_comment 105 [] ] ->
         exists (j : nat) (cid : json),
           Z.of_nat j < 5 + 10
           /\ fetch_item (kid_service (crowded_thread crowded_service) j) cid
              = Ok c)
  /\ forall last : item_service,
       fetch_top_comments (crowded_thread last) 100 5
       = Ok [ sample_comment 101 []; sample_comment 102 []; sample_comment 103 [];
              sample_comment 104 []; sample_comment 105 [] ].
Proof.
  assert (Hlimit : 0 <= 5) by lia.
  assert (Hstory : fetch_item (story_service (crowded_thread crowded_service))
                     (JNum 100) = Ok crowded_story)
    by (vm_compute; reflexivity).
  assert (Htruthy : truthy
                      (JArr (map JNum [ 101; 102; 103; 104; 105; 106; 107; 108;
                                        109; 110; 111; 112; 113; 114; 115; 116 ]))
                    = true) by reflexivity.
  assert (Hrun : fetch_top_comments (crowded_thread crowded_service) 100 5
                 = Ok [ sample_comment 101 []; sample_comment 102 [];
                        sample_comment 103 []; sample_comment 104 [];
                        sample_comment 105 [] ])
    by (vm_compute; reflexivity).
  split; [exact Hlimit|]. split; [exact Hstory|]. split; [exact Htruthy|].
  split; [exact Hrun|].
  destruct (top_comments_come_from_the_batch (crowded_thread crowded_service)
              100 5 _ _ _ Hlimit Hstory eq_refl Htruthy Hrun)
    as [[all_ids [rest [_ [_ [_ Hfrom]]]]] Hsame].
  split.
  - intros c Hc. destruct (Hfrom c Hc) as [j [cid [Hj [_ Hitem]]]].
    exists j, cid. split; assumption.
  - intros last. apply Hsame.
    split; [reflexivity|]. split; [reflexivity|].
    intros slot item_id k Hslot. simpl.
    assert (Hlt : (slot <? 15)%nat = true) by (apply Nat.ltb_lt; lia).
    rewrite Hlt. reflexivity.
Defined.

(** The first component of the sort key is the negated count of
    replies. *)
Lemma sort_key_reply_count (position_map : list (json * Z)) (c : json)
  (k : Z * Z) :
  sort_key position_map c = Ok k -> fst k = - reply_count c.
Proof.
  unfold sort_key, reply_count. intros H.
  bind_inv H as kids Hkids. bind_inv H as n Hn.
  bind_inv H as id Hid. bind_inv H as pos Hpos. injection H as <-.
  rewrite Hkids. cbn [bind]. rewrite Hn. reflexivity.
Qed.

Lemma StronglySorted_firstn {A : Type} (R : A -> A -> Prop) (n : nat) :
  forall l : list A, StronglySorted R l -> StronglySorted R (firstn n l).
Proof.
  induction n as [| n IH]; intros l Hl.
  - constructor.
  - destruct l as [| x l]; [constructor|].
    apply StronglySorted_inv in Hl as [Hl Hx]. simpl. constructor.
    + apply IH. assumption.
    + apply Forall_forall. intros y Hy. apply In_firstn in Hy.
      rewrite Forall_forall in Hx. apply Hx. assumption.
Qed.

Lemma slice_to_sorted {A : Type} (R : A -> A -> Prop) (l : list A) (stop : Z) :
  StronglySorted R l -> StronglySorted R (slice_to l stop).
Proof.
  intros Hl. unfold slice_to.
  destruct (0 <=? stop); apply StronglySorted_firstn; assumption.
Qed.

(** [list.sort] by the key of the script leaves the comments in an order in
    which the count of replies never rises. *)
Lemma sort_by_key_reply_counts (position_map : list (json * Z))
  (l ranked : list json) :
  sort_by_key (sort_key position_map) l = Ok ranked ->
  StronglySorted (fun a b => reply_count a >= reply_count b) ranked.
Proof.
  unfold sort_by_key. intros H. bind_inv H as keyed Hkeyed. injection H as <-.
  assert (Hkeys : Forall (fun p => fst (fst p) = - reply_count (snd p))
                    (sort_keyed keyed)).
  { apply Forall_perm with (l := keyed); [apply sort_keyed_perm|].
    apply mapM_Ok_Forall2 in Hkeyed. clear -Hkeyed.
    induction Hkeyed as [| c p l l' Hp _ IH]; constructor; [ | assumption].
    bind_inv Hp as k Hk. injection Hp as <-. simpl.
    apply sort_key_reply_count with (1 := Hk). }
  pose proof (sort_keyed_sorted keyed) as Hsorted.
  induction Hsorted as [| p l' _ IH Hp]; simpl; [constructor|].
  apply Forall_cons_iff in Hkeys as [Hkp Hkl].
  constructor; [apply IH; assumption|].
  apply Forall_forall. intros c Hc. apply in_map_iff in Hc as [r [<- Hr]].
  rewrite Forall_forall in Hp, Hkl.
  specialize (Hp r Hr). specialize (Hkl r Hr).
  unfold keyed_le in Hp. apply key_le_spec in Hp. lia.
Qed.

(** X5: whatever the item service answers and in whatever order the workers
    complete, the comments are returned in an order in which the count of
    replies never rises from one comment to a later one. *)
Theorem top_comments_never_rise_in_replies :
  forall (E : thread_env) (story_id limit : Z) (comments : list json),
    fetch_top_comments E story_id limit = Ok comments ->
    StronglySorted (fun a b => reply_count a >= reply_count b) comments.
Proof.
  intros E story_id limit comments Hrun.
  destruct (fetch_top_comments_steps E story_id limit comments Hrun)
    as [-> | [m [kid_ids [all_ids [ranked [_ [_ [_ [[pm Hranked] ->]]]]]]]]].
  - constructor.
  - apply slice_to_sorted.
    apply sort_by_key_reply_counts with (1 := Hranked).
Qed.

(** The sample thread: reply counts 3, 3, 1, 0. *)
Lemma top_comments_never_rise_in_replies_witness :
  fetch_top_comments (sample_thread [3; 1]%nat) 100 MAX_COMMENTS
  = Ok [ sample_comment 101 [201; 202; 203]; sample_comment 103 [205; 206; 207];
         sample_comment 102 [204]; sample_comment 104 [] ]
  /\ StronglySorted (fun a b => reply_count a >= reply_count b)
       [ sample_comment 101 [201; 202; 203]; sample_comment 103 [205; 206; 207];
         sample_comment 102 [204]; sample_comment 104 [] ].
Proof.
  assert (Hrun : fetch_top_comments (sample_thread [3; 1]%nat) 100 MAX_COMMENTS
                 = Ok [ sample_comment 101 [201; 202; 203];
                        sample_comment 103 [205; 206; 207];
                        sample_comment 102 [204]; sample_comment 104 [] ])
    by (vm_compute; reflexivity).
  split; [exact Hrun|].
  exact (top_comments_never_rise_in_replies _ _ _ _ Hrun).
Defined.

(** ** The test of the collecting loop *)

Lemma get_Ok_dict (d : json) (k : string) (v : json) :
  get d k = Ok v ->
  exists m : list (string * json),
    d = JObj m /\ v = match lookup k m with Some x => x | None => JNull end.
Proof.
  unfold get, get_default. destruct d as [| b | n | s | l | m]; try discriminate.
  intros H. injection H as <-. exists m. split; reflexivity.
Qed.

(** X6: the collecting loop keeps an answer exactly when it is a dict of type
    ["comment"] whose flags [deleted] and [dead] are absent or falsy; it
    drops [None] and every other falsy answer, it never raises on a dict,
    and it raises on an answer that is truthy and no dict. *)
Theorem collecting_loop_keeps_the_live_comments :
  forall item : json,
    (is_live_comment item = Ok true <-> live_comment item)
    /\ (truthy item = false -> is_live_comment item = Ok false)
    /\ ((exists m : list (string * json), item = JObj m) ->
        exists keep : bool, is_live_comment item = Ok keep)
    /\ (truthy item = true ->
        (forall m : list (string * json), item <> JObj m) ->
        is_live_comment item = Raise AttributeError).
Proof.
  intros item. split; [ | split; [ | split ] ].
  - split; [apply is_live_comment_sound|].
    intros [Htype [[deleted [Hdeleted Hd]] [dead [Hdead Hx]]]].
    unfold has_type_comment in Htype.
    destruct (get_Ok_dict _ _ _ Htype) as [m [-> Hlookup]].
    assert (Htruthy : truthy (JObj m) = true).
    { destruct m as [| kv m]; [discriminate Hlookup | reflexivity]. }
    unfold is_live_comment. rewrite Htruthy. cbn [negb].
    rewrite Htype. cbn [bind eq_str]. rewrite String.eqb_refl. cbn [negb].
    rewrite Hdeleted. cbn [bind]. rewrite Hd.
    rewrite Hdead. cbn [bind]. rewrite Hx. reflexivity.
  - intros Hfalsy. unfold is_live_comment. rewrite Hfalsy. reflexivity.
  - intros [m ->]. unfold is_live_comment, get, get_default.
    destruct (negb (truthy (JObj m))); [eexists; reflexivity|].
    cbn [bind].
    destruct (negb (eq_str _ "comment")); [eexists; reflexivity|].
    destruct (truthy _); eexists; reflexivity.
  - intros Htruthy Hshape. unfold is_live_comment. rewrite Htruthy.
    cbn [negb].
    destruct item as [| b | n | s | l | m]; try reflexivity.
    exfalso. apply (Hshape m). reflexivity.
Qed.

(** ** The article, continued *)

Lemma existsb_eqb_In (x : string) (l : list string) :
  existsb (String.eqb x) l = true <-> In x l.
Proof.
  rewrite existsb_exists. split.
  - intros [y [Hy Heq]]. apply String.eqb_eq in Heq. subst y. assumption.
  - intros Hx. exists x. split; [assumption | apply String.eqb_refl].
Qed.

Lemma In_flat_map_Forall {A B : Type} (f : A -> list B) (P : A -> Prop)
  (l : list A) (y : B) :
  Forall P l -> In y (flat_map f l) -> exists x : A, P x /\ In y (f x).
Proof.
  intros Hall Hy. apply in_flat_map in Hy as [x [Hx Hy]].
  rewrite Forall_forall in Hall. exists x. split; [apply Hall|]; assumption.
Qed.

(** No tag of the names given survives [decompose], at any depth. *)
Lemma decompose_removes (names : list string) (n : node) :
  forall name : string,
    In name (tag_names_of (decompose names n)) -> ~ In name names.
Proof.
  induction n as [s | tag attrs children IH] using node_induction;
    intros name Hin; simpl in Hin.
  - contradiction.
  - destruct (existsb (String.eqb tag) names) eqn:Etag; simpl in Hin;
      [contradiction|].
    rewrite app_nil_r in Hin. destruct Hin as [<- | Hin].
    + intros Habs. apply existsb_eqb_In in Habs. congruence.
    + apply in_flat_map in Hin as [c' [Hc' Hname]].
      apply in_flat_map in Hc' as [c [Hc Hc']].
      rewrite Forall_forall in IH. apply (IH c Hc name).
      unfold tag_names_of. apply in_flat_map. exists c'. split; assumption.
Qed.

Lemma decompose_all_removes (names : list string) (soup : list node) :
  forall name : string,
    In name (tag_names_of (decompose_all names soup)) -> ~ In name names.
Proof.
  intros name Hin. unfold tag_names_of, decompose_all in Hin.
  apply in_flat_map in Hin as [n' [Hn' Hname]].
  apply in_flat_map in Hn' as [n [Hn Hn']].
  apply (decompose_removes names n name).
  unfold tag_names_of. apply in_flat_map. exists n'. split; assumption.
Qed.

(** A tree without a tag of the names given is left as it is. *)
Lemma decompose_clean (names : list string) (n : node) :
  (forall name : string, In name (tag_names n) -> ~ In name names) ->
  decompose names n = [n].
Proof.
  induction n as [s | tag attrs children IH] using node_induction;
    intros Hclean; simpl.
  - reflexivity.
  - destruct (existsb (String.eqb tag) names) eqn:Etag.
    + exfalso. apply (Hclean tag); [left; reflexivity|].
      apply existsb_eqb_In. assumption.
    + do 2 f_equal.
      assert (Hchildren : forall name : string,
                 In name (flat_map tag_names children) -> ~ In name names).
      { intros name Hname. apply Hclean. right. assumption. }
      clear Hclean Etag. induction IH as [| c l Hc _ IHl]; simpl.
      * reflexivity.
      * rewrite Hc, IHl.
        -- reflexivity.
        -- intros name Hname. apply Hchildren. simpl. apply in_or_app.
           right. assumption.
        -- intros name Hname. apply Hchildren. simpl. apply in_or_app.
           left. assumption.
Qed.

(** The tags of a tree do not depend on the attributes of its images. *)
Lemma tag_names_without_image_attrs (n : node) :
  tag_names (without_image_attrs n) = tag_names n.
Proof.
  induction n as [s | tag attrs children IH] using node_induction; simpl.
  - reflexivity.
  - f_equal. induction IH as [| c l Hc _ IHl]; simpl.
    + reflexivity.
    + rewrite Hc, IHl. reflexivity.
Qed.

Lemma tag_names_of_without_image_attrs (soup : list node) :
  tag_names_of (map without_image_attrs soup) = tag_names_of soup.
Proof.
  unfold tag_names_of. induction soup as [| n soup IH]; simpl.
  - reflexivity.
  - rewrite tag_names_without_image_attrs, IH. reflexivity.
Qed.

(** X7: an extracted article holds no [script], no [style] and no [iframe]
    tag, at any depth. *)
Theorem article_has_no_script_style_iframe :
  forall (L : Library) (web : string -> attempt string) (url : json)
         (soup' : list node),
    fetch_article_soup L web url = Ok (Some soup') ->
    fetch_article L web url = Ok (Some (soup_str L soup'))
    /\ forall name : string,
         In name (tag_names_of soup') ->
         ~ In name ["script"; "style"; "iframe"].
Proof.
  intros L web url soup' H. split.
  { unfold fetch_article. rewrite H. reflexivity. }
  destruct (fetch_article_soup_Some L web url soup' H)
    as [u [resp [summary_html [_ [_ [_ Hrw]]]]]].
  apply rewrite_all_images_spec in Hrw as [_ Hsame].
  intros name Hname.
  rewrite <- tag_names_of_without_image_attrs in Hname.
  rewrite Hsame in Hname.
  rewrite tag_names_of_without_image_attrs in Hname.
  apply decompose_all_removes with (1 := Hname).
Qed.

(** The sample page holds a script; the article extracted from it holds
    the tags [html], [body], [p] and [img] only. *)
Lemma article_has_no_script_style_iframe_witness :
  In "script" (tag_names_of sample_soup)
  /\ exists soup' : list node,
       fetch_article_soup (sample_library sample_soup) sample_web
         (JStr "https://ex.com/post") = Ok (Some soup')
       /\ tag_names_of soup' = ["html"; "body"; "p"; "img"; "img"; "img"]
       /\ forall name : string,
            In name (tag_names_of soup') ->
            ~ In name ["script"; "style"; "iframe"].
Proof.
  split; [simpl; tauto|].
  destruct (fetch_article_soup (sample_library sample_soup) sample_web
              (JStr "https://ex.com/post")) as [[soup' |] | e] eqn:Hrun;
    [ | vm_compute in Hrun; discriminate Hrun
      | vm_compute in Hrun; discriminate Hrun ].
  exists soup'. split; [reflexivity|]. split.
  - vm_compute in Hrun. injection Hrun as <-. reflexivity.
  - apply (article_has_no_script_style_iframe _ _ _ _ Hrun).
Defined.

(** X8: the removal of tags leaves a fragment that holds none of them as it
    is: every tag, attribute and text stays in place. *)
Theorem decompose_all_keeps_clean_fragments :
  forall (names : list string) (soup : list node),
    (forall name : string, In name (tag_names_of soup) -> ~ In name names) ->
    decompose_all names soup = soup.
Proof.
  intros names soup. unfold decompose_all, tag_names_of.
  induction soup as [| n soup IH]; intros Hclean; simpl.
  - reflexivity.
  - rewrite decompose_clean, IH.
    + reflexivity.
    + intros name Hname. apply Hclean. simpl. apply in_or_app. right.
      assumption.
    + intros name Hname. apply Hclean. simpl. apply in_or_app. left.
      assumption.
Qed.

Lemma decompose_all_keeps_clean_fragments_witness :
  (forall name : string,
      In name (tag_names_of clean_soup) ->
      ~ In name ["script"; "style"; "iframe"])
  /\ decompose_all ["script"; "style"; "iframe"] clean_soup = clean_soup.
Proof.
  assert (Hclean : forall name : string,
             In name (tag_names_of clean_soup) ->
             ~ In name ["script"; "style"; "iframe"]).
  { intros name Hname Hbad. simpl in Hname, Hbad.
    destruct Hname as [<- | [<- | [<- | [<- | []]]]];
      destruct Hbad as [Hbad | [Hbad | [Hbad | []]]]; discriminate Hbad. }
  split; [exact Hclean|].
  exact (decompose_all_keeps_clean_fragments _ _ Hclean).
Defined.

Lemma bind_Raise {A B : Type} (m : result A) (k : A -> result B) (e : exn) :
  bind m k = Raise e <-> m = Raise e \/ exists a : A, m = Ok a /\ k a = Raise e.
Proof.
  destruct m as [a | e']; simpl; split.
  - intros H. right. exists a. split; [reflexivity | assumption].
  - intros [H | [a' [Ha Hk]]]; [discriminate|]. injection Ha as Ha. subst a'.
    assumption.
  - intros H. left. injection H as ->. reflexivity.
  - intros [H | [a' [Ha _]]]; [injection H as ->; reflexivity | discriminate].
Qed.

(** A loop raises what its body raised on one of the elements. *)
Lemma mapM_Raise {A B : Type} (f : A -> result B) (l : list A) (e : exn) :
  mapM f l = Raise e -> exists x : A, In x l /\ f x = Raise e.
Proof.
  induction l as [| x l IH]; simpl; [discriminate|].
  intros H. apply bind_Raise in H as [H | [y [_ H]]].
  - exists x. split; [left; reflexivity | assumption].
  - apply bind_Raise in H as [H | [ys [_ H]]]; [ | discriminate].
    destruct (IH H) as [x' [Hx' Hf]]. exists x'.
    split; [right; assumption | assumption].
Qed.

Section ImageFailures.

Variable urljoin : string -> string -> result string.
Variable url : string.

Lemma rewrite_src_Raise (attrs : list (string * string)) (e : exn) :
  rewrite_src urljoin url attrs = Raise e ->
  exists src : string,
    attr_get "src" attrs = Some src
    /\ kept_src src = false
    /\ urljoin url src = Raise e.
Proof.
  unfold rewrite_src, kept_src.
  destruct (attr_get "src" attrs) as [src |]; [ | discriminate].
  destruct (String.eqb src "") eqn:E1, (startswith src "http://") eqn:E2,
    (startswith src "https://") eqn:E3, (startswith src "data:") eqn:E4; simpl;
    try discriminate.
  intros H. apply bind_Raise in H as [H | [new_src [_ H]]]; [ | discriminate].
  exists src. rewrite E1, E2, E3, E4.
  split; [reflexivity | split; [reflexivity | assumption]].
Qed.

Lemma rewrite_images_Raise (n : node) (e : exn) :
  rewrite_images urljoin url n = Raise e ->
  exists attrs : list (string * string),
    In attrs (images n) /\ rewrite_src urljoin url attrs = Raise e.
Proof.
  induction n as [s | tag attrs children IH] using node_induction;
    simpl; [discriminate|].
  intros H. apply bind_Raise in H as [H | [attrs' [_ H]]].
  - destruct (String.eqb tag "img"); [ | discriminate].
    exists attrs. split; [left; reflexivity | assumption].
  - apply bind_Raise in H as [H | [children' [_ H]]]; [ | discriminate].
    apply mapM_Raise in H as [c [Hc Hraise]].
    rewrite Forall_forall in IH.
    destruct (IH c Hc Hraise) as [attrs0 [Hin Hsrc]].
    exists attrs0. split; [ | assumption].
    apply in_or_app. right. apply in_flat_map. exists c. split; assumption.
Qed.

Lemma rewrite_all_images_Raise (soup : list node) (e : exn) :
  rewrite_all_images urljoin url soup = Raise e ->
  exists (attrs : list (string * string)) (src : string),
    In attrs (images_of soup)
    /\ attr_get "src" attrs = Some src
    /\ kept_src src = false
    /\ urljoin url src = Raise e.
Proof.
  unfold rewrite_all_images. intros H.
  apply mapM_Raise in H as [n [Hn Hraise]].
  apply rewrite_images_Raise in Hraise as [attrs [Hin Hsrc]].
  apply rewrite_src_Raise in Hsrc as [src [Hget [Hkept Hjoin]]].
  exists attrs, src. split; [ | split; [assumption | split; assumption]].
  unfold images_of. apply in_flat_map. exists n. split; assumption.
Qed.

End ImageFailures.



(** ** The document, continued *)

(** The characters of a string. *)
Lemma str_len_app (a b : string) :
  str_len (a ++ b) = (str_len a + str_len b)%nat.
Proof.
  induction a as [| c a IH]; simpl; [reflexivity|].
  destruct (is_continuation c); rewrite IH; reflexivity.
Qed.

Lemma str_len_take (s : string) :
  forall n : nat, (n <= str_len s)%nat -> str_len (str_take n s) = n.
Proof.
  induction s as [| c s IH]; intros n Hn; simpl in *.
  - lia.
  - destruct (is_continuation c) eqn:Ec.
    + simpl. rewrite Ec. apply IH. assumption.
    + destruct n as [| n]; [reflexivity|].
      simpl. rewrite Ec. rewrite IH by lia. reflexivity.
Qed.

Lemma str_take_prefix (s : string) :
  forall n : nat, String.prefix (str_take n s) s = true.
Proof.
  induction s as [| c s IH]; intros n; simpl.
  - reflexivity.
  - destruct (is_continuation c).
    + simpl. destruct (ascii_dec c c) as [_ | Hne]; [apply IH | contradiction].
    + destruct n as [| n]; [reflexivity|].
      simpl. destruct (ascii_dec c c) as [_ | Hne]; [apply IH | contradiction].
Qed.

(** X10: the link shown for the URL of a post: the reference is the whole URL,
    the text shown is the URL when it has at most 60 characters and its
    first 57 characters followed by three dots otherwise, which makes 60
    characters; characters are counted, not bytes, and the text is cut
    before it is escaped. *)
Theorem url_link_shows_at_most_60_characters :
  forall (post : json) (u : string),
    getitem post "url" = Ok (JStr u) ->
    u <> "" ->
    exists display : string,
      url_link_of post
      = Ok (q " | <a href=`" ++ html_escape u ++ q "`>" ++ html_escape display
            ++ "</a>")
      /\ (str_len display <= 60)%nat
      /\ ((str_len u <= 60)%nat -> display = u)
      /\ ((60 < str_len u)%nat ->
          display = str_take 57 u ++ "..."
          /\ String.prefix (str_take 57 u) u = true
          /\ str_len (str_take 57 u) = 57%nat
          /\ str_len display = 60%nat).
Proof.
  intros post u Hurl Hne.
  apply getitem_Ok in Hurl as [m [-> Hlookup]].
  assert (Htruthy : truthy (JStr u) = true).
  { simpl. apply negb_true_iff. apply String.eqb_neq. assumption. }
  unfold url_link_of, get, get_default, getitem. rewrite Hlookup.
  cbn [bind]. rewrite Htruthy. cbn [bind py_len].
  assert (Hcut : (60 < str_len u)%nat ->
                 str_len (str_take 57 u ++ "...") = 60%nat).
  { intros Hlong. rewrite str_len_app, str_len_take by lia. reflexivity. }
  destruct (60 <? Z.of_nat (str_len u)) eqn:Elong.
  - apply Z.ltb_lt in Elong.
    exists (str_take 57 u ++ "...").
    split; [reflexivity|]. split; [rewrite Hcut; lia|].
    split; [intros Hshort; lia|].
    intros Hlong. split; [reflexivity|].
    split; [apply str_take_prefix|].
    split; [apply str_len_take; lia | apply Hcut; assumption].
  - apply Z.ltb_ge in Elong.
    exists u. split; [reflexivity|]. split; [lia|].
    split; [reflexivity|]. intros Hlong. lia.
Qed.

(** A URL of 70 characters whose 57th is an ampersand: the text shown
    ends with the escaped ampersand and the three dots.  A URL of 53
    characters, which are 61 bytes, is shown whole. *)
Lemma url_link_shows_at_most_60_characters_witness :
  (exists u : string,
      getitem long_url_post "url" = Ok (JStr u)
      /\ u <> ""
      /\ str_len u = 70%nat
      /\ url_link_of long_url_post
         = Ok (q " | <a href=`https://example.com/café/crème-brûlée/a-long-read/24?pg=&amp;ref=hn-digest`>https://example.com/café/crème-brûlée/a-long-read/24?pg=&amp;...</a>"))
  /\ exists u : string,
       getitem accented_url_post "url" = Ok (JStr u)
       /\ u <> ""
       /\ str_len u = 53%nat
       /\ String.length u = 61%nat
       /\ url_link_of accented_url_post
          = Ok (q " | <a href=`https://example.com/café/crème-brûlée/déjà-vu/naïveté`>https://example.com/café/crème-brûlée/déjà-vu/naïveté</a>").
Proof.
  split.
  - eexists. split; [reflexivity|]. split; [discriminate|].
    split; [reflexivity|].
    destruct (url_link_shows_at_most_60_characters long_url_post _ eq_refl)
      as [display [Hlink [_ [_ Hlong]]]]; [discriminate|].
    destruct Hlong as [-> _]; [vm_compute; lia|].
    rewrite Hlink. reflexivity.
  - eexists. split; [reflexivity|]. split; [discriminate|].
    split; [reflexivity|]. split; [reflexivity|].
    destruct (url_link_shows_at_most_60_characters accented_url_post _ eq_refl)
      as [display [Hlink [_ [Hshort _]]]]; [discriminate|].
    rewrite Hshort in Hlink by (vm_compute; lia).
    rewrite Hlink. reflexivity.
Defined.

(** The line of the table of contents for a post holds the link to the
    anchor of its rank, and the section of a post opens with the tag that
    carries that anchor. *)
Lemma toc_line_contains_link (rank title points num_comments author : string) :
  contains
    (format TOC_ENTRY_TEMPLATE
       [ ("rank", rank); ("title", title); ("points", points);
         ("num_comments", num_comments); ("author", author) ])
    (q "<a href=`#post-" ++ rank ++ q "`>" ++ title ++ "</a>").
Proof.
  exists (q "<div class=`toc-item`>
    <span class=`toc-item-rank`>" ++ rank ++ q "</span>
    <span class=`toc-item-title`>").
  eexists. simpl. repeat (rewrite !string_app_assoc; simpl). reflexivity.
Qed.

Lemma section_opens_with_anchor
  (rank total title points author num_comments story_id url_link
     article_section comment_count comments_html : string) :
  startswith
    (format SECTION_TEMPLATE
       [ ("rank", rank); ("total", total); ("title", title);
         ("points", points); ("author", author);
         ("num_comments", num_comments); ("story_id", story_id);
         ("url_link", url_link); ("article_section", article_section);
         ("comment_count", comment_count); ("comments_html", comments_html) ])
    (q "<div class=`post-section` id=`post-" ++ rank ++ q "`>")
  = true.
Proof.
  unfold startswith.
  match goal with
  | |- String.prefix ?p ?s = true =>
      assert (Hsplit : exists rest : string, s = p ++ rest)
  end.
  { eexists. simpl. repeat (rewrite !string_app_assoc; simpl). reflexivity. }
  destruct Hsplit as [rest ->]. apply prefix_app.
Qed.

Lemma toc_entry_link (L : Library) (i : Z) (post : json)
  (article : option string) (comments : list json) (line : string) :
  toc_entry L i (post, article, comments) = Ok line ->
  exists title : string,
    getitem post "title" = Ok (JStr title) /\ contains line (toc_link i title).
Proof.
  unfold toc_entry. intros H.
  bind_inv H as title Htitle. bind_inv H as etitle Hetitle.
  bind_inv H as points Hpoints. bind_inv H as num_comments Hnum.
  bind_inv H as author Hauthor. bind_inv H as eauthor Heauthor.
  injection H as <-.
  apply escape_Ok in Hetitle as [t [-> ->]].
  exists t. split; [assumption|].
  unfold toc_link. apply toc_line_contains_link.
Qed.

Lemma render_section_opening (L : Library) (post : json)
  (article : option string) (comments : list json) (rank total : Z)
  (section : string) :
  render_section L post article comments rank total = Ok section ->
  startswith section (section_opening rank) = true.
Proof.
  unfold render_section. intros H.
  bind_inv H as article_section Harticle. bind_inv H as url_link Hurl.
  bind_inv H as blocks Hblocks. bind_inv H as title Htitle.
  bind_inv H as etitle Hetitle. bind_inv H as points Hpoints.
  bind_inv H as author Hauthor. bind_inv H as eauthor Heauthor.
  bind_inv H as num_comments Hnum. bind_inv H as story_id Hid.
  injection H as <-.
  unfold section_opening. apply section_opens_with_anchor.
Qed.

Lemma prefix_split (p : string) :
  forall s : string, String.prefix p s = true -> exists rest : string, s = p ++ rest.
Proof.
  induction p as [| c p IH]; intros s H.
  - exists s. reflexivity.
  - destruct s as [| d s]; [discriminate H|]. simpl in H.
    destruct (ascii_dec c d) as [<- | _]; [ | discriminate H].
    destruct (IH s H) as [rest ->]. exists rest. reflexivity.
Qed.

Lemma string_of_uint_digits (d : Decimal.uint) :
  ~ In "034"%char (list_ascii_of_string (NilEmpty.string_of_uint d)).
Proof.
  induction d; simpl; [intros [] | ..];
    (intros [Habs | Habs]; [discriminate Habs | contradiction]).
Qed.

Lemma str_int_no_quote (n : Z) :
  ~ In "034"%char (list_ascii_of_string (str_int n)).
Proof.
  unfold str_int, NilZero.string_of_int.
  assert (Hu : forall d : Decimal.uint,
             ~ In "034"%char (list_ascii_of_string (NilZero.string_of_uint d))).
  { intros d. unfold NilZero.string_of_uint.
    destruct d; try apply string_of_uint_digits.
    simpl. intros [Habs | []]. discriminate Habs. }
  destruct (Z.to_int n) as [d | d]; [apply Hu|].
  simpl. intros [Habs | Habs]; [discriminate Habs | apply (Hu d); assumption].
Qed.

Lemma app_until_char (c : ascii) (x : string) :
  forall (y r1 r2 : string),
    x ++ String c r1 = y ++ String c r2 ->
    ~ In c (list_ascii_of_string x) ->
    ~ In c (list_ascii_of_string y) ->
    x = y.
Proof.
  induction x as [| a x IH]; intros y r1 r2 H Hx Hy.
  - destruct y as [| b y]; [reflexivity|].
    simpl in H. injection H as Hc _. exfalso. apply Hy. left. symmetry. assumption.
  - destruct y as [| b y].
    + simpl in H. injection H as Hc _. exfalso. apply Hx. left. assumption.
    + simpl in H. injection H as <- H. f_equal.
      apply (IH y r1 r2 H).
      * intros Hin. apply Hx. right. assumption.
      * intros Hin. apply Hy. right. assumption.
Qed.

Lemma section_opening_prefix_injective (s : string) (a b : Z) :
  startswith s (section_opening a) = true ->
  startswith s (section_opening b) = true ->
  a = b.
Proof.
  unfold startswith. intros Ha Hb.
  apply prefix_split in Ha as [ra Ha]. apply prefix_split in Hb as [rb Hb].
  rewrite Ha in Hb. unfold section_opening in Hb.
  rewrite !string_app_assoc in Hb.
  apply string_app_inv_head in Hb.
  apply str_int_injective.
  apply app_until_char with (c := "034"%char) (r1 := (">" ++ ra)%string)
                            (r2 := (">" ++ rb)%string).
  - exact Hb.
  - apply str_int_no_quote.
  - apply str_int_no_quote.
Qed.



(** ** Discovery, continued *)

(** The three attempts, seen through [first_accepted]. *)
Lemma retry_three_first_accepted {B : Type} (net : nat -> attempt B) :
  snd (_request_with_retry net 3)
  = match first_accepted net 0 3 with
    | Some r => Ok (Some r)
    | None => Raise RequestException
    end.
Proof.
  rewrite retry_three_unrolled. cbn [first_accepted].
  destruct (accepted (net 0%nat)); [reflexivity|].
  destruct (accepted (net 1%nat)); [reflexivity|].
  destruct (accepted (net 2%nat)); reflexivity.
Qed.

Lemma post_of_hit_Ok (hit post : json) :
  post_of_hit hit = Ok post -> post_from_hit hit post.
Proof.
  unfold post_of_hit. intros H.
  bind_inv H as objectID HobjectID. bind_inv H as title Htitle.
  bind_inv H as url Hurl. bind_inv H as story_text Hstory.
  bind_inv H as points Hpoints. bind_inv H as num_comments Hnum.
  bind_inv H as author Hauthor. bind_inv H as created_at Hcreated.
  injection H as <-.
  exists objectID, title, url, story_text, points, num_comments, author,
    created_at.
  repeat (split; [assumption|]). reflexivity.
Qed.

(** X12: the posts that discovery returns are built, in order, from the first
    [limit] hits of the first response that [raise_for_status] accepts:
    each is a dict with the eight keys of a post, whose URL and self-text
    are [None] where the hit has none; later lookups of these keys in a
    post cannot fail. *)
Theorem posts_are_built_from_the_first_hits :
  forall (index : search_params -> nat -> attempt body)
         (now limit : Z) (posts : list json),
    find_top_posts_yesterday index now limit = Ok posts ->
    exists (resp : response body) (data hits : json)
           (all_hits : list json),
      first_accepted (index (discovery_params now limit)) 0 3 = Some resp
      /\ payload resp = Decodes data
      /\ getitem data "hits" = Ok hits
      /\ elements hits = Ok all_hits
      /\ Forall2 post_from_hit (slice_to all_hits limit) posts
      /\ Forall (fun post =>
                   exists m : list (string * json),
                     post = JObj m /\ map fst m = post_fields)
           posts.
Proof.
  intros index now limit posts Hrun. unfold find_top_posts_yesterday in Hrun.
  bind_inv Hrun as resp Hresp. bind_inv Hrun as data Hdata.
  bind_inv Hrun as hits0 Hhits0.
  destruct (negb (truthy hits0)); [discriminate|].
  bind_inv Hrun as hits Hhits. bind_inv Hrun as batch Hbatch.
  unfold returned in Hresp. rewrite retry_three_first_accepted in Hresp.
  destruct (first_accepted (index (discovery_params now limit)) 0 3)
    as [resp' |] eqn:Hfirst; [ | discriminate].
  cbn [bind] in Hresp. injection Hresp as ->.
  unfold resp_json in Hdata.
  destruct (payload resp) as [data' | | |] eqn:Hpayload; try discriminate.
  injection Hdata as ->.
  unfold slice_elements in Hbatch. bind_inv Hbatch as all_hits Hall.
  injection Hbatch as <-.
  apply mapM_Ok_Forall2 in Hrun.
  assert (Hbuilt : Forall2 post_from_hit (slice_to all_hits limit) posts).
  { apply Forall2_impl with (2 := Hrun). apply post_of_hit_Ok. }
  exists resp, data, hits, all_hits.
  split; [reflexivity|]. split; [assumption|]. split; [assumption|].
  split; [assumption|]. split; [assumption|].
  clear -Hbuilt. induction Hbuilt as [| hit post l l' Hpost _ IH];
    constructor; [ | assumption].
  destruct Hpost as [objectID [title [url [story_text [points [num_comments
                      [author [created_at [_ [_ [_ [_ [_ [_ [_ [_ ->]]]]]]]]]]]]]]]].
  eexists. split; reflexivity.
Qed.

(** The sample index: two hits, the second without a URL. *)
Lemma posts_are_built_from_the_first_hits_witness :
  exists posts : list json,
    find_top_posts_yesterday sample_index 1704196800 MAX_POSTS = Ok posts
    /\ map (fun post => getitem post "url") posts
       = [Ok (JStr "https://ex.com/post"); Ok JNull]
    /\ Forall (fun post =>
                 exists m : list (string * json),
                   post = JObj m /\ map fst m = post_fields)
         posts.
Proof.
  destruct (find_top_posts_yesterday sample_index 1704196800 MAX_POSTS)
    as [posts | e] eqn:Hrun; [ | vm_compute in Hrun; discriminate Hrun].
  exists posts. split; [reflexivity|]. split.
  - vm_compute in Hrun. injection Hrun as <-. reflexivity.
  - destruct (posts_are_built_from_the_first_hits _ _ _ _ Hrun)
      as [resp [data [hits [all_hits [_ [_ [_ [_ [_ Hkeys]]]]]]]]].
    exact Hkeys.
Defined.

(** The ways [main] ends. *)
Lemma main_eq (L : Library) (H : host) (W : World) (fs : files) :
  main L H W fs
  = match setup_mkdir W, open_log W with
    | Ok _, Ok _ =>
        match run L H W (append_file (LOG_FILE H) "" fs) with
        | Ok (_, fs') => (0, append_file (LOG_FILE H) (logged W) fs')
        | Raise (SystemExit code) =>
            (code,
             append_file (LOG_FILE H) (logged W)
               (append_file (LOG_FILE H) "" fs))
        | Raise _ =>
            (1,
             append_file (LOG_FILE H) (logged W)
               (append_file (LOG_FILE H) "" fs))
        end
    | _, _ => (1, fs)
    end.
Proof.
  unfold main, setup_logging.
  destruct (setup_mkdir W) as [u | e]; [ | reflexivity].
  destruct (open_log W) as [u' | e]; reflexivity.
Qed.

Lemma string_app_nil_r (s : string) : s ++ "" = s.
Proof.
  induction s as [| c s IH]; simpl; [reflexivity | rewrite IH; reflexivity].
Qed.

(** The log file once it has been opened and written. *)
Lemma log_appended (H : host) (W : World) (fs : files) :
  only_logged H W fs
    (append_file (LOG_FILE H) (logged W) (append_file (LOG_FILE H) "" fs)).
Proof.
  split.
  - unfold append_file. rewrite String.eqb_refl.
    destruct (fs (LOG_FILE H)) as [old |]; [ | reflexivity].
    rewrite string_app_nil_r. reflexivity.
  - intros p Hp. unfold append_file.
    apply String.eqb_neq in Hp. rewrite Hp. reflexivity.
Qed.

Lemma only_logged_untouched (H : host) (W : World) (fs fs' : files) :
  only_logged H W fs fs' -> untouched_but_log H fs fs'.
Proof. intros [_ Hrest]. exact Hrest. Qed.

Lemma untouched_refl (H : host) (fs : files) : untouched_but_log H fs fs.
Proof. intros p Hp. reflexivity. Qed.

(** A run whose [try] block raises ends with the status of [sys.exit] or
    with status 1, and leaves nothing but its log. *)
Lemma main_raises (L : Library) (H : host) (W : World) (fs : files) (e : exn) :
  setup_mkdir W = Ok tt ->
  open_log W = Ok tt ->
  run L H W (append_file (LOG_FILE H) "" fs) = Raise e ->
  fst (main L H W fs) = match e with SystemExit code => code | _ => 1 end
  /\ only_logged H W fs (snd (main L H W fs)).
Proof.
  intros Hsetup Hopen Hrun. rewrite main_eq, Hsetup, Hopen, Hrun.
  destruct e; (split; [reflexivity | apply log_appended]).
Qed.

(** A run whose [try] block raises an exception ends with status 1, and
    touches no file but its log. *)
Lemma main_fails (L : Library) (H : host) (W : World) (fs : files) :
  (forall fs0 : files, exists e : exn,
      run L H W fs0 = Raise e /\ an_Exception e) ->
  fst (main L H W fs) = 1 /\ untouched_but_log H fs (snd (main L H W fs)).
Proof.
  intros Hrun. rewrite main_eq.
  destruct (setup_mkdir W) as [u | e];
    [ | split; [reflexivity | apply untouched_refl]].
  destruct (open_log W) as [u' | e];
    [ | split; [reflexivity | apply untouched_refl]].
  destruct (Hrun (append_file (LOG_FILE H) "" fs)) as [e [-> He]].
  destruct e; try discriminate He;
    (split; [reflexivity|]);
    apply only_logged_untouched with (W := W); apply log_appended.
Qed.





(** ** What the run can raise *)

Lemma raises_only_Ok {A : Type} (P : exn -> Prop) (a : A) : raises_only P (Ok a).
Proof. intros e H. discriminate H. Qed.

Lemma raises_only_Raise {A : Type} (P : exn -> Prop) (e : exn) :
  P e -> raises_only P (@Raise A e).
Proof. intros He e' H. injection H as <-. assumption. Qed.

Lemma raises_only_bind {A B : Type} (P : exn -> Prop) (m : result A)
  (k : A -> result B) :
  raises_only P m -> (forall a : A, raises_only P (k a)) ->
  raises_only P (bind m k).
Proof.
  intros Hm Hk e H. destruct m as [a | e'].
  - apply (Hk a e H).
  - simpl in H. injection H as <-. apply Hm. reflexivity.
Qed.

Lemma raises_only_weaken {A : Type} (P Q : exn -> Prop) (r : result A) :
  (forall e : exn, P e -> Q e) -> raises_only P r -> raises_only Q r.
Proof. intros HPQ Hr e H. apply HPQ. apply Hr. assumption. Qed.

Lemma raises_only_mapM {A B : Type} (P : exn -> Prop) (f : A -> result B)
  (l : list A) :
  (forall x : A, raises_only P (f x)) -> raises_only P (mapM f l).
Proof.
  intros Hf. induction l as [| x l IH]; simpl.
  - apply raises_only_Ok.
  - apply raises_only_bind; [apply Hf|]. intros y.
    apply raises_only_bind; [apply IH|]. intros ys. apply raises_only_Ok.
Qed.

Lemma raises_only_enumerate_mapM {A B : Type} (P : exn -> Prop)
  (f : Z -> A -> result B) (l : list A) :
  (forall (i : Z) (x : A), raises_only P (f i x)) ->
  forall i : Z, raises_only P (enumerate_mapM f i l).
Proof.
  intros Hf. induction l as [| x l IH]; intros i; simpl.
  - apply raises_only_Ok.
  - apply raises_only_bind; [apply Hf|]. intros y.
    apply raises_only_bind; [apply IH|]. intros ys. apply raises_only_Ok.
Qed.

(** The steps through a computation: a [bind] is split, a test or a
    pattern match is decided. *)
Ltac raises :=
  repeat match goal with
    | |- raises_only _ (Ok _) => apply raises_only_Ok
    | |- raises_only _ (Raise _) => apply raises_only_Raise; exact eq_refl
    | |- raises_only _ (bind _ _) => apply raises_only_bind; [ | intros ? ]
    | |- raises_only _ (if ?b then _ else _) => destruct b
    | |- raises_only _ (match ?x with _ => _ end) => destruct x
    end.

Create HintDb raises.

Lemma getitem_raises (d : json) (k : string) :
  raises_only an_Exception (getitem d k).
Proof. unfold getitem. raises. Qed.

Lemma get_default_raises (d : json) (k : string) (default : json) :
  raises_only an_Exception (get_default d k default).
Proof. unfold get_default. raises. Qed.

Lemma get_raises (d : json) (k : string) : raises_only an_Exception (get d k).
Proof. apply get_default_raises. Qed.

Lemma py_len_raises (v : json) : raises_only an_Exception (py_len v).
Proof. unfold py_len. raises. Qed.

Lemma elements_raises (v : json) : raises_only an_Exception (elements v).
Proof. unfold elements. raises. Qed.

Lemma slice_elements_raises (v : json) (stop : Z) :
  raises_only an_Exception (slice_elements v stop).
Proof. unfold slice_elements. raises. apply elements_raises. Qed.

Lemma escape_raises (v : json) : raises_only an_Exception (escape v).
Proof. unfold escape. raises. Qed.

Lemma shorten_raises (v : json) : raises_only an_Exception (shorten v).
Proof. unfold shorten. raises. Qed.

Lemma fromtimestamp_utc_raises (t : json) :
  raises_only an_Exception (fromtimestamp_utc t).
Proof. unfold fromtimestamp_utc, fromtimestamp_int. raises. Qed.

Lemma py_int_raises (v : json) : raises_only an_Exception (py_int v).
Proof.
  unfold py_int. destruct v as [| b | n | s | l | m];
    try (apply raises_only_Ok); try (apply raises_only_Raise; exact eq_refl).
  cbv zeta.
  match goal with
  | |- raises_only _ (match ?x with _ => _ end) => destruct x
  end; raises.
Qed.

Lemma position_map_raises (kid_ids : list json) :
  raises_only an_Exception (position_map kid_ids).
Proof. unfold position_map. raises. Qed.

Lemma position_get_raises (m : list (json * Z)) (k : json) (default : Z) :
  raises_only an_Exception (position_get m k default).
Proof. unfold position_get. raises. Qed.

Lemma fetch_item_raises (firebase : item_service) (item_id : json) :
  raises_only an_Exception (fetch_item firebase item_id).
Proof.
  rewrite fetch_item_first_accepted.
  destruct (first_accepted (firebase item_id) 0 3) as [resp |];
    [ | apply raises_only_Ok].
  unfold item_of_body. raises.
Qed.

#[local] Hint Resolve getitem_raises get_default_raises get_raises py_len_raises
  elements_raises slice_elements_raises escape_raises shorten_raises
  fromtimestamp_utc_raises py_int_raises position_map_raises
  position_get_raises fetch_item_raises : raises.

Lemma is_live_comment_raises (item : json) :
  raises_only an_Exception (is_live_comment item).
Proof. unfold is_live_comment. raises; auto with raises. Qed.

Lemma collect_raises (done : list (result json)) :
  Forall (raises_only an_Exception) done ->
  raises_only an_Exception (collect done).
Proof.
  induction 1 as [| r done Hr _ IH]; simpl.
  - apply raises_only_Ok.
  - apply raises_only_bind; [assumption|]. intros item.
    apply raises_only_bind; [apply is_live_comment_raises|]. intros keep.
    apply raises_only_bind; [assumption|]. intros rest. apply raises_only_Ok.
Qed.

Lemma submit_from_raises (E : thread_env) (batch_ids : list json) :
  forall slot : nat,
    Forall (raises_only an_Exception) (submit_from E slot batch_ids).
Proof.
  induction batch_ids as [| cid l IH]; intros slot; simpl; constructor.
  - apply fetch_item_raises.
  - apply IH.
Qed.

Lemma sort_key_raises (m : list (json * Z)) (c : json) :
  raises_only an_Exception (sort_key m c).
Proof. unfold sort_key. raises; auto with raises. Qed.

Lemma sort_by_key_raises (m : list (json * Z)) (l : list json) :
  raises_only an_Exception (sort_by_key (sort_key m) l).
Proof.
  unfold sort_by_key. raises. apply raises_only_mapM. intros c.
  raises. apply sort_key_raises.
Qed.

Lemma fetch_top_comments_raises (E : thread_env) (story_id limit : Z) :
  raises_only an_Exception (fetch_top_comments E story_id limit).
Proof.
  unfold fetch_top_comments. raises; auto with raises.
  - apply collect_raises.
    match goal with
    | |- Forall _ (as_completed _ ?futures) =>
        apply Forall_perm with (l := futures);
          [apply Permutation_sym; apply as_completed_perm|]
    end.
    apply submit_from_raises.
  - apply sort_by_key_raises.
Qed.

Section ArticleRaises.

Variable L : Library.
Hypothesis library_behaves : library_raises_exceptions L.

Lemma rewrite_src_raises (url : string) (attrs : list (string * string)) :
  raises_only an_Exception (rewrite_src (urljoin L) url attrs).
Proof. unfold rewrite_src. raises. apply library_behaves. Qed.

Lemma rewrite_images_raises (url : string) (n : node) :
  raises_only an_Exception (rewrite_images (urljoin L) url n).
Proof.
  induction n as [s | tag attrs children IH] using node_induction; simpl.
  - apply raises_only_Ok.
  - apply raises_only_bind.
    + destruct (String.eqb tag "img");
        [apply rewrite_src_raises | apply raises_only_Ok].
    + intros attrs'. apply raises_only_bind; [ | intros; apply raises_only_Ok].
      clear attrs'. induction IH as [| c l Hc _ IHl]; simpl.
      * apply raises_only_Ok.
      * apply raises_only_bind; [assumption|]. intros c'.
        apply raises_only_bind; [assumption|]. intros l'.
        apply raises_only_Ok.
Qed.

Lemma fetch_article_raises (web : string -> attempt string) (url : json) :
  raises_only an_Exception (fetch_article L web url).
Proof.
  unfold fetch_article. apply raises_only_bind; [ | intros; apply raises_only_Ok].
  unfold fetch_article_soup.
  destruct (negb (truthy url)); [apply raises_only_Ok|].
  destruct url as [| b | n | u | l | m]; try apply raises_only_Ok.
  rewrite request_accepted.
  destruct (accepted (web u)) as [resp |]; [ | apply raises_only_Ok].
  destruct (summary L (payload resp)) as [summary_html | e] eqn:Hsum.
  - apply raises_only_bind; [ | intros; apply raises_only_Ok].
    unfold rewrite_all_images. apply raises_only_mapM.
    apply rewrite_images_raises.
  - destruct library_behaves as [Hsummary _].
    rewrite (Hsummary _ _ Hsum). apply raises_only_Ok.
Qed.

Lemma entry_of_raises (W : World) (i : nat) (post : json) :
  raises_only an_Exception (entry_of L W i post).
Proof.
  unfold entry_of. raises; auto with raises.
  - apply fetch_article_raises.
  - apply fetch_top_comments_raises.
Qed.

Lemma entries_from_raises (W : World) (posts : list json) :
  forall i : nat, raises_only an_Exception (entries_from L W i posts).
Proof.
  induction posts as [| post posts IH]; intros i; simpl.
  - apply raises_only_Ok.
  - apply raises_only_bind; [apply entry_of_raises|]. intros e.
    apply raises_only_bind; [apply IH|]. intros es. apply raises_only_Ok.
Qed.

Lemma comment_block_raises (c : json) :
  raises_only an_Exception (comment_block L c).
Proof. unfold comment_block. raises; auto with raises. Qed.

Lemma render_section_raises (post : json) (article : option string)
  (comments : list json) (rank total : Z) :
  raises_only an_Exception (render_section L post article comments rank total).
Proof.
  unfold render_section, article_section_of, url_link_of.
  raises; auto with raises.
  apply raises_only_mapM. apply comment_block_raises.
Qed.

Lemma toc_entry_raises (i : Z) (e : entry) :
  raises_only an_Exception (toc_entry L i e).
Proof.
  destruct e as [[post article] comments]. unfold toc_entry.
  raises; auto with raises.
Qed.

Lemma generate_pdf_raises (H : host) (now : Z) (fs : files)
  (entries : list entry) :
  raises_only an_Exception (mkdir H) ->
  raises_only an_Exception (generate_pdf L H now fs entries).
Proof.
  intros Hmkdir. unfold generate_pdf, html_content_of, sections_of.
  raises; try assumption.
  - apply raises_only_enumerate_mapM. apply toc_entry_raises.
  - apply raises_only_enumerate_mapM. intros i [[post article] comments].
    apply render_section_raises.
  - apply library_behaves.
Qed.

End ArticleRaises.

(** Discovery raises an exception, or it ends the process with status 0. *)
Lemma find_top_posts_yesterday_raises
  (index : search_params -> nat -> attempt body) (now limit : Z) :
  raises_only (fun e => an_Exception e \/ e = SystemExit 0)
    (find_top_posts_yesterday index now limit).
Proof.
  assert (Hweak : forall (A : Type) (r : result A),
             raises_only an_Exception r ->
             raises_only (fun e => an_Exception e \/ e = SystemExit 0) r).
  { intros A r. apply raises_only_weaken. intros e He. left. assumption. }
  unfold find_top_posts_yesterday.
  apply raises_only_bind.
  { apply Hweak. unfold returned. rewrite retry_three_first_accepted.
    destruct (first_accepted (index (discovery_params now limit)) 0 3);
      raises. }
  intros resp. apply raises_only_bind.
  { apply Hweak. unfold resp_json. raises. }
  intros data. apply raises_only_bind; [apply Hweak; apply get_raises|].
  intros hits. destruct (negb (truthy hits)).
  { apply raises_only_Raise. right. reflexivity. }
  apply Hweak. raises; auto with raises.
  apply raises_only_mapM. intros hit. unfold post_of_hit.
  raises; auto with raises.
Qed.

(** The digest and the log are different files. *)
Lemma pdf_is_not_the_log (dir name : string) :
  dir ++ "/" ++ name ++ ".pdf" <> dir ++ "/hn_digest.log".
Proof.
  intros Heq. apply string_app_inv_head in Heq.
  simpl in Heq. injection Heq as Heq.
  assert (Hlast : forall a b : string, a ++ ".pdf" <> b ++ ".log").
  { clear. induction a as [| x a IH]; intros b Hab.
    - destruct b as [| y b]; [discriminate Hab|].
      apply (f_equal String.length) in Hab. simpl in Hab.
      rewrite string_length_app in Hab. simpl in Hab. lia.
    - destruct b as [| y b].
      + apply (f_equal String.length) in Hab. simpl in Hab.
        rewrite string_length_app in Hab. simpl in Hab. lia.
      + simpl in Hab. injection Hab as _ Hab. apply (IH b). assumption. }
  apply (Hlast name "hn_digest"). assumption.
Qed.


(** The transcription of [urljoin] raises [ValueError] only. *)
Lemma urlsplit_raises (url scheme : string) :
  raises_only an_Exception (urlsplit url scheme).
Proof. unfold urlsplit. cbv zeta. raises. Qed.

Lemma urlparse_raises (url scheme : string) :
  raises_only an_Exception (urlparse url scheme).
Proof. unfold urlparse. cbv zeta. raises. apply urlsplit_raises. Qed.

Lemma urllib_urljoin_raises (base url : string) :
  raises_only an_Exception (urllib_urljoin base url).
Proof. unfold urllib_urljoin. cbv zeta. raises; apply urlparse_raises. Qed.

Lemma sample_library_raises_exceptions (soup : list node) :
  library_raises_exceptions (sample_library soup).
Proof.
  split; [ | split ].
  - intros text e Hraise. discriminate Hraise.
  - intros base url. apply urllib_urljoin_raises.
  - intros html e Hraise. discriminate Hraise.
Qed.


(** ** A failing post *)



(** ** The comments of a section *)

Lemma comment_block_contains_meta (author time reply_count body : string) :
  contains
    (format COMMENT_TEMPLATE
       [ ("author", author); ("time", time); ("reply_count", reply_count);
         ("body", body) ])
    ("<strong>" ++ author ++ "</strong> &middot; " ++ time ++ " &middot; "
     ++ reply_count ++ " replies").
Proof.
  exists (q "<div class=`comment`>
    <div class=`comment-meta`>
        ").
  eexists. simpl. repeat (rewrite !string_app_assoc; simpl). reflexivity.
Qed.

Lemma comment_block_shown (L : Library) (c : json) (block : string) :
  comment_block L c = Ok block -> shown_comment c block.
Proof.
  unfold comment_block. intros H.
  bind_inv H as time Htime. bind_inv H as ts Hts.
  bind_inv H as kids Hkids. bind_inv H as replies Hreplies.
  bind_inv H as by_ Hby. bind_inv H as author Hauthor.
  bind_inv H as body Hbody. injection H as <-.
  apply escape_Ok in Hauthor as [b [-> ->]].
  exists time, ts, b.
  split; [assumption|]. split; [assumption|]. split; [assumption|].
  assert (Hcount : reply_count c = replies).
  { unfold reply_count. rewrite Hkids. cbn [bind]. rewrite Hreplies.
    reflexivity. }
  rewrite Hcount. unfold comment_meta. apply comment_block_contains_meta.
Qed.

Lemma section_contains_comments
  (rank total title points author num_comments story_id url_link
     article_section comment_count comments_html : string) :
  contains
    (format SECTION_TEMPLATE
       [ ("rank", rank); ("total", total); ("title", title);
         ("points", points); ("author", author);
         ("num_comments", num_comments); ("story_id", story_id);
         ("url_link", url_link); ("article_section", article_section);
         ("comment_count", comment_count); ("comments_html", comments_html) ])
    ("<h2>Top " ++ comment_count ++ " Comments</h2>" ++ nl ++ "        "
     ++ comments_html).
Proof.
  exists (format (firstn 20 SECTION_TEMPLATE)
            [ ("rank", rank); ("total", total); ("title", title);
              ("points", points); ("author", author);
              ("num_comments", num_comments); ("story_id", story_id);
              ("url_link", url_link); ("article_section", article_section) ]
          ++ q "
    </div>

    <div class=`comments`>
        ").
  eexists. simpl. repeat (rewrite !string_app_assoc; simpl). reflexivity.
Qed.


